(** * trash_placement.py: synthetic marine debris over a survey rectangle

    A shallow embedding of [generate_trash] and of the tables it reads, of
    the bookkeeping and the report of [plot_trash], of
    [calculate_expected_collection] and of [main].

    Numbers.  Python floats are idealised as the real numbers [R]: the model
    of the functions computes on exact reals.  Where a statement is about a
    bound at an end point or about a comparison with a computed value, which
    rounding can change, lines 203-209 are modelled a second time with the
    floating-point operations as a parameter ([float_ops]), and the
    statement is made for every such arithmetic.  [math.floor] and
    [math.ceil] return Python integers, modelled as [Z] through [Zfloor] and
    [Zceil].

    Randomness.  The program reads two global generators and takes no seed
    argument: Python's [random] module ([random.uniform]) and NumPy's
    legacy global [RandomState] ([np.random.choice]).  Each generator is a
    stream of values of [random()], fixed once the caller has seeded it; the
    state threaded through the program is the pair of positions in the two
    streams.

    Effects.  Exceptions and the unbounded rejection loop are explicit in
    the result type [Py.outcome]. *)

From Stdlib Require Import Reals Lra Lia ZArith String Bool Arith List Sorted.
Import ListNotations.
Local Open Scope R_scope.

(** ** Boolean tests on reals *)

Definition Rltb (a b : R) : bool := if Rlt_dec a b then true else false.
Definition Reqb (a b : R) : bool := if Req_dec_T a b then true else false.

(** ** The Python runtime: exceptions, the two generators, the state monad *)

Module Py.

Inductive exn : Type :=
| ValueError
| KeyError
| IndexError
| ZeroDivisionError.

(** [Hang] is the rejection loop of line 205 still running when the fuel
    given to the model is spent. *)
Inductive outcome (A : Type) : Type :=
| Ok (a : A)
| Raise (e : exn)
| Hang.
Arguments Ok {A} a.
Arguments Raise {A} e.
Arguments Hang {A}.

(** The values the two seeded generators will return, in order. *)
Record source : Type := mkSource {
  py_random : nat -> R;   (* random.random() *)
  np_random : nat -> R    (* np.random.random_sample() *)
}.

(** How many values of each stream have been consumed. *)
Record cursor : Type := mkCursor {
  py_pos : nat;
  np_pos : nat
}.

Definition M (A : Type) : Type := source -> cursor -> outcome (A * cursor).

Definition ret {A} (a : A) : M A := fun _ c => Ok (a, c).

Definition bind {A B} (m : M A) (k : A -> M B) : M B :=
  fun s c =>
    match m s c with
    | Ok (a, c') => k a s c'
    | Raise e => Raise e
    | Hang => Hang
    end.

Definition raise {A} (e : exn) : M A := fun _ _ => Raise e.
Definition hang {A} : M A := fun _ _ => Hang.

(** A dictionary lookup [d[k]]: [KeyError] when the key is absent. *)
Definition getitem {A} (o : option A) : M A :=
  match o with
  | Some a => ret a
  | None => raise KeyError
  end.

(** [a / b] on Python floats. *)
Definition truediv (a b : R) : M R :=
  if Reqb b 0 then raise ZeroDivisionError else ret (a / b).

(** [random.random()] *)
Definition random_random : M R :=
  fun s c => Ok (py_random s (py_pos c),
                 mkCursor (S (py_pos c)) (np_pos c)).

(** [np.random.random_sample()] *)
Definition np_random_sample : M R :=
  fun s c => Ok (np_random s (np_pos c),
                 mkCursor (py_pos c) (S (np_pos c))).

End Py.
Import Py.

Declare Scope py_scope.
Delimit Scope py_scope with py.
Notation "x <- m ;; k" := (bind m (fun x => k))
  (at level 61, m at next level, right associativity) : py_scope.
Notation "' pat <- m ;; k" := (bind m (fun x => match x with pat => k end))
  (at level 61, pat pattern, m at next level, right associativity) : py_scope.
Local Open Scope py_scope.

(** [random.uniform(a, b)] is [a + (b-a) * random()]. *)
Definition random_uniform (a b : R) : M R :=
  r <- random_random ;; ret (a + (b - a) * r).

(** ** [np.random.choice(a, p=p)] (one draw, with replacement) *)

Definition Rsum (l : list R) : R := fold_right Rplus 0 l.

Fixpoint cumsum_from (acc : R) (p : list R) : list R :=
  match p with
  | [] => []
  | w :: p' => (acc + w) :: cumsum_from (acc + w) p'
  end.

Definition cumsum (p : list R) : list R := cumsum_from 0 p.

(** [cdf.searchsorted(u, side='right')] on an ascending [cdf]: the number of
    leading entries that are [<= u]. *)
Fixpoint searchsorted_right (cdf : list R) (u : R) : nat :=
  match cdf with
  | [] => O
  | c :: cdf' => if Rltb u c then O else S (searchsorted_right cdf' u)
  end.

(** [a[i]] on a list: [IndexError] when [i] is out of range. *)
Definition list_getitem {A} (a : list A) (i : nat) : M A :=
  match nth_error a i with
  | Some v => ret v
  | None => raise IndexError
  end.

(** NumPy validates [p] before it draws: the sizes must agree, no entry may be
    negative, and the entries must sum to 1 (NumPy allows a tolerance of
    [sqrt eps]; in exact arithmetic the test is equality).  Then
    [cdf = p.cumsum(); cdf /= cdf[-1]] and the index is
    [cdf.searchsorted(random_sample(), side='right')]. *)
Definition np_random_choice {A} (a : list A) (p : list R) : M A :=
  if (length a =? 0)%nat then raise ValueError
  else if negb (length p =? length a)%nat then raise ValueError
  else if existsb (fun w => Rltb w 0) p then raise ValueError
  else if negb (Reqb (Rsum p) 1) then raise ValueError
  else
    u <- np_random_sample ;;
    let cdf := cumsum p in
    let cdf := map (fun c => c / last cdf 0) cdf in
    list_getitem a (searchsorted_right cdf u).

(** ** Dictionaries whose iteration order matters: association lists *)

Definition dict (K V : Type) : Type := list (K * V).

Fixpoint dict_get {K V} (eqb : K -> K -> bool) (d : dict K V) (k : K)
  : option V :=
  match d with
  | [] => None
  | (k', v) :: d' => if eqb k' k then Some v else dict_get eqb d' k
  end.

(** [d[k] = v]: overwrite in place when the key exists, append otherwise. *)
Fixpoint dict_set {K V} (eqb : K -> K -> bool) (d : dict K V) (k : K) (v : V)
  : dict K V :=
  match d with
  | [] => [(k, v)]
  | (k', v') :: d' =>
      if eqb k' k then (k', v) :: d' else (k', v') :: dict_set eqb d' k v
  end.

(** ** The enumerations (lines 25-30 and 62-67) *)

Module SizeClass.
Inductive t : Type := MICRO | MESO | MACRO | MEGA.

Definition eqb (a b : t) : bool :=
  match a, b with
  | MICRO, MICRO | MESO, MESO | MACRO, MACRO | MEGA, MEGA => true
  | _, _ => false
  end.
End SizeClass.

Module PlasticType.
Inductive t : Type := H | N | P | F.

Definition eqb (a b : t) : bool :=
  match a, b with
  | H, H | N, N | P, P | F, F => true
  | _, _ => false
  end.

(** [for plastic_type in PlasticType]: members in definition order. *)
Definition members : list t := [H; N; P; F].
End PlasticType.

(** ** The empirical tables *)

(** Lines 40-52, centimetres.  Every size class is a key. *)
Definition size_ranges (size_class : SizeClass.t) : R * R :=
  match size_class with
  | SizeClass.MICRO => (0.05, 0.5)
  | SizeClass.MESO => (0.5, 5)
  | SizeClass.MACRO => (5, 50)
  | SizeClass.MEGA => (50, 200)
  end.

(** Lines 77-99: share of pieces of each material.  MACRO has no entry for P,
    MEGA none for P and F. *)
Definition plastic_materials
  : dict SizeClass.t (dict PlasticType.t (list (string * R))) :=
  [ (SizeClass.MICRO,
      [ (PlasticType.H, [("PE", 0.95); ("PP", 0.05)]);
        (PlasticType.N, [("PE", 0.50); ("PP", 0.50)]);
        (PlasticType.P, [("PE", 1.00)]);
        (PlasticType.F, [("PE", 0.30); ("PS", 0.60)]) ]);
    (SizeClass.MESO,
      [ (PlasticType.H, [("PE", 0.75); ("PP", 0.25)]);
        (PlasticType.N, [("PE", 0.70); ("PP", 0.30)]);
        (PlasticType.P, [("PE", 1.00)]);
        (PlasticType.F,
          [("PE", 0.40); ("PP", 0.05); ("PS", 0.40); ("PVC", 0.10)]) ]);
    (SizeClass.MACRO,
      [ (PlasticType.H, [("PE", 0.55); ("PP", 0.45)]);
        (PlasticType.N, [("PE", 0.65); ("PP", 0.35)]);
        (PlasticType.F,
          [("PE", 0.50); ("PP", 0.05); ("PS", 0.15); ("PVC", 0.10)]) ]);
    (SizeClass.MEGA,
      [ (PlasticType.H, [("PE", 0.60); ("PP", 0.40)]);
        (PlasticType.N, [("PE", 0.80); ("PP", 0.10)]) ]) ]%string.

(** Lines 101-106, kg/m^3. *)
Definition material_densities : dict string R :=
  [ ("PE", 920); ("PP", 900.5); ("PS", 1005); ("PVC", 1005) ]%string.

(** Lines 109-134: (mass, number) concentration per km^2.  All sixteen
    pairs are keys. *)
Definition mean_plastic_concentration
  (size_class : SizeClass.t) (plastic_type : PlasticType.t) : R * R :=
  match size_class, plastic_type with
  | SizeClass.MICRO, PlasticType.H => (2.33, 643930)
  | SizeClass.MICRO, PlasticType.N => (0.041, 19873)
  | SizeClass.MICRO, PlasticType.P => (0.13, 14362)
  | SizeClass.MICRO, PlasticType.F => (0.001, 216)
  | SizeClass.MESO, PlasticType.H => (3.68, 20993)
  | SizeClass.MESO, PlasticType.N => (0.23, 803)
  | SizeClass.MESO, PlasticType.P => (0.0003, 3.6)
  | SizeClass.MESO, PlasticType.F => (0.003, 12)
  | SizeClass.MACRO, PlasticType.H => (15.53, 640)
  | SizeClass.MACRO, PlasticType.N => (1.27, 49)
  | SizeClass.MACRO, PlasticType.P => (0, 0)
  | SizeClass.MACRO, PlasticType.F => (0.021, 0.7)
  | SizeClass.MEGA, PlasticType.H => (3.52, 0.3)
  | SizeClass.MEGA, PlasticType.N => (42.82, 3.3)
  | SizeClass.MEGA, PlasticType.P => (0, 0)
  | SizeClass.MEGA, PlasticType.F => (0, 0)
  end.

(** Line 137.  The source writes [(69.58, 700,886)], a tuple of three. *)
Definition total_mean_plastic_concentration : R * R * R := (69.58, 700, 886).

(** Line 140. *)
Definition default_mean_scale : R :=
  100 / fst (fst total_mean_plastic_concentration).

(** ** The particle (lines 142-150) *)

Module Trash.
Record t : Type := mk {
  x : R;
  y : R;
  size : R;
  mass : R;
  density : R;
  size_class : SizeClass.t;
  plastic_type : PlasticType.t
}.

(** [piece.mass = m] *)
Definition set_mass (piece : t) (m : R) : t :=
  mk (x piece) (y piece) (size piece) m (density piece)
     (size_class piece) (plastic_type piece).

(** [piece.density = d] *)
Definition set_density (piece : t) (d : R) : t :=
  mk (x piece) (y piece) (size piece) (mass piece) d
     (size_class piece) (plastic_type piece).
End Trash.

(** [math.log10], used here only on positive table entries. *)
Definition log10 (v : R) : R := ln v / ln 10.

(** [plastic_materials[size_class][plastic_type]] *)
Definition materials_of (size_class : SizeClass.t)
  (plastic_type : PlasticType.t) : M (list (string * R)) :=
  row <- getitem (dict_get SizeClass.eqb plastic_materials size_class) ;;
  getitem (dict_get PlasticType.eqb row plastic_type).

(** ** [generate_trash], the canned layout (lines 155-190) *)

(** Lines 164-166: [avg_density[sc][pt] = 0], then one [+=] per material. *)
Fixpoint sum_material_density (materials : list (string * R)) (acc : R)
  : M R :=
  match materials with
  | [] => ret acc
  | material :: rest =>
      d <- getitem (dict_get String.eqb material_densities (fst material)) ;;
      sum_material_density rest (acc + d * snd material)
  end.

(** Line 163: the plastic types of one size class. *)
Fixpoint fill_avg_density_row
  (row : dict PlasticType.t (list (string * R)))
  (out : dict PlasticType.t R) : M (dict PlasticType.t R) :=
  match row with
  | [] => ret out
  | (plastic_type, materials) :: rest =>
      d <- sum_material_density materials 0 ;;
      fill_avg_density_row rest (dict_set PlasticType.eqb out plastic_type d)
  end.

(** Line 162: the size classes of [plastic_materials]. *)
Fixpoint fill_avg_density
  (table : dict SizeClass.t (dict PlasticType.t (list (string * R))))
  (avg_density : dict SizeClass.t (dict PlasticType.t R))
  : M (dict SizeClass.t (dict PlasticType.t R)) :=
  match table with
  | [] => ret avg_density
  | (size_class, row) :: rest =>
      out <- getitem (dict_get SizeClass.eqb avg_density size_class) ;;
      out' <- fill_avg_density_row row out ;;
      fill_avg_density rest
        (dict_set SizeClass.eqb avg_density size_class out')
  end.

(** Lines 168-176. *)
Definition example_pieces : list Trash.t :=
  [ Trash.mk (100+00) 16 0.75 0 0 SizeClass.MEGA PlasticType.N;
    Trash.mk (100+10) 100 0.75 0 0 SizeClass.MEGA PlasticType.N;
    Trash.mk (100-10) 100 0.75 0 0 SizeClass.MEGA PlasticType.N;
    Trash.mk (100+15) 130 1.00 0 0 SizeClass.MEGA PlasticType.N;
    Trash.mk (100-12) 170 0.75 0 0 SizeClass.MEGA PlasticType.N;
    Trash.mk (100+15) 210 2.50 0 0 SizeClass.MEGA PlasticType.N;
    Trash.mk (100+00) 240 0.50 0 0 SizeClass.MEGA PlasticType.N ].

(** Line 183: the average volume per piece the source computes. *)
Definition avg_vol_per_piece (min_log_size max_log_size : R) : M R :=
  inv <- truediv 1 (max_log_size - min_log_size) ;;
  truediv (inv * (Rpower (10^3) max_log_size - Rpower (10^3) min_log_size))
          (log10 (10^3)).

(** Lines 179-188: the body of [for piece in pieces]. *)
Definition example_piece (W H mean_scale : R)
  (avg_density : dict SizeClass.t (dict PlasticType.t R))
  (piece : Trash.t) : M Trash.t :=
  let conc :=
    mean_plastic_concentration (Trash.size_class piece)
                               (Trash.plastic_type piece) in
  let total_mass_for_type := mean_scale * fst conc * (W/1000) * (H/1000) in
  let n_pieces_for_type := mean_scale * snd conc * (W/1000) * (H/1000) in
  let min_log_size :=
    log10 (fst (size_ranges (Trash.size_class piece)) / 100) in
  let max_log_size :=
    log10 (snd (size_ranges (Trash.size_class piece)) / 100) in
  avg_vol <- avg_vol_per_piece min_log_size max_log_size ;;
  let total_vol := avg_vol * n_pieces_for_type in
  let piece_vol := Trash.size piece ^ 3 in
  ratio <- truediv piece_vol total_vol ;;
  let piece := Trash.set_mass piece (ratio * total_mass_for_type) in
  row <- getitem (dict_get SizeClass.eqb avg_density
                           (Trash.size_class piece)) ;;
  d <- getitem (dict_get PlasticType.eqb row (Trash.plastic_type piece)) ;;
  ret (Trash.set_density piece d).

Fixpoint example_loop (W H mean_scale : R)
  (avg_density : dict SizeClass.t (dict PlasticType.t R))
  (pieces : list Trash.t) : M (list Trash.t) :=
  match pieces with
  | [] => ret []
  | piece :: rest =>
      piece' <- example_piece W H mean_scale avg_density piece ;;
      rest' <- example_loop W H mean_scale avg_density rest ;;
      ret (piece' :: rest')
  end.

Definition generate_example (W H mean_scale : R) : M (list Trash.t) :=
  avg_density <-
    fill_avg_density plastic_materials
      [ (SizeClass.MICRO, []); (SizeClass.MESO, []);
        (SizeClass.MACRO, []); (SizeClass.MEGA, []) ] ;;
  example_loop W H mean_scale avg_density example_pieces.

(** ** [generate_trash], the sampling path (lines 192-226) *)

Section Sampling.

(** The arguments that stay fixed during one call.  [fuel] bounds the
    number of redraws of one position; the source has no such bound. *)
Variable fuel : nat.
Variables W H : R.
Variables boat_pos boat_box : R * R.
Variable centered : bool.
Variable mean_scale : R.

(** Line 203. *)
Definition pos_range : (R * R) * (R * R) :=
  if centered then ((- W / 2, W / 2), (- H / 2, H / 2))
  else ((0, W), (0, H)).

(** Lines 204 and 206: x is drawn before y. *)
Definition draw_pos : M (R * R) :=
  px <- random_uniform (fst (fst pos_range)) (snd (fst pos_range)) ;;
  py <- random_uniform (fst (snd pos_range)) (snd (snd pos_range)) ;;
  ret (px, py).

(** The loop test of line 205, its bounds computed on exact reals
    ([in_boat_fl] below takes the arithmetic as a parameter). *)
Definition in_boat (pos : R * R) : bool :=
  Rltb (fst boat_pos - fst boat_box / 2) (fst pos)
  && Rltb (fst pos) (fst boat_pos + fst boat_box / 2)
  && Rltb (snd boat_pos - snd boat_box / 2) (snd pos)
  && Rltb (snd pos) (snd boat_pos + snd boat_box / 2).

(** Lines 205-206: [while in_boat(pos): pos = draw]. *)
Fixpoint redraw (k : nat) (pos : R * R) : M (R * R) :=
  if in_boat pos then
    match k with
    | O => hang
    | S k' => pos' <- draw_pos ;; redraw k' pos'
    end
  else ret pos.

(** Lines 208-209, on exact reals ([draw_size_fl] below takes the
    arithmetic as a parameter). *)
Definition draw_size (size_class : SizeClass.t) : M R :=
  u <- random_uniform (log10 (fst (size_ranges size_class)))
                      (log10 (snd (size_ranges size_class))) ;;
  ret (Rpower 10 u / 100).

(** Lines 211-219.  Dividing by a zero sum gives NaN entries in NumPy,
    which [choice] rejects with a [ValueError]. *)
Definition draw_density (size_class : SizeClass.t)
  (plastic_type : PlasticType.t) : M R :=
  materials <- materials_of size_class plastic_type ;;
  let possible_materials := map fst materials in
  let material_probabilities := map snd materials in
  let total := Rsum material_probabilities in
  if Reqb total 0 then raise ValueError
  else
    let material_probabilities :=
      map (fun w => w / total) material_probabilities in
    material <- np_random_choice possible_materials
                                 material_probabilities ;;
    getitem (dict_get String.eqb material_densities material).

(** Lines 203-221: one particle, its mass still 0. *)
Definition draw_piece (size_class : SizeClass.t)
  (plastic_type : PlasticType.t) : M Trash.t :=
  pos <- draw_pos ;;
  pos <- redraw fuel pos ;;
  size <- draw_size size_class ;;
  density <- draw_density size_class plastic_type ;;
  ret (Trash.mk (fst pos) (snd pos) size 0 density size_class plastic_type).

(** Lines 202-222: [for i in range(n_pieces)], appending to [pieces] and
    accumulating [total_mass_proportion]. *)
Fixpoint draw_pieces (size_class : SizeClass.t)
  (plastic_type : PlasticType.t) (n : nat)
  (pieces : list Trash.t) (total_mass_proportion : R)
  : M (list Trash.t * R) :=
  match n with
  | O => ret (pieces, total_mass_proportion)
  | S n' =>
      piece <- draw_piece size_class plastic_type ;;
      draw_pieces size_class plastic_type n' (pieces ++ [piece])
        (total_mass_proportion
         + Trash.density piece * Trash.size piece ^ 3)
  end.

(** [pieces[i] = v] *)
Fixpoint list_setitem (pieces : list Trash.t) (i : nat) (v : Trash.t)
  : list Trash.t :=
  match pieces, i with
  | [], _ => []
  | _ :: rest, O => v :: rest
  | p :: rest, S i' => p :: list_setitem rest i' v
  end.

(** Lines 223-224: the second pass over the given indices. *)
Fixpoint assign_mass (indices : list nat) (total_mass : R)
  (total_mass_proportion : R) (pieces : list Trash.t)
  : M (list Trash.t) :=
  match indices with
  | [] => ret pieces
  | i :: rest =>
      piece <- list_getitem pieces i ;;
      let m := total_mass * (Trash.density piece * Trash.size piece ^ 3)
               / total_mass_proportion in
      assign_mass rest total_mass total_mass_proportion
        (list_setitem pieces i (Trash.set_mass piece m))
  end.

(** Lines 195-224: the body of the two nested loops, for one bucket. *)
Definition bucket (size_class : SizeClass.t)
  (plastic_type : PlasticType.t) (pieces : list Trash.t)
  : M (list Trash.t) :=
  let conc := mean_plastic_concentration size_class plastic_type in
  let total_mass := mean_scale * fst conc * (W/1000) * (H/1000) in
  let n_pieces := mean_scale * snd conc * (W/1000) * (H/1000) in
  if Rltb 0 n_pieces then
    avg_mass_per_piece <- truediv total_mass n_pieces ;;
    n <- np_random_choice
           [Zfloor n_pieces; Zceil n_pieces]
           [1 - (n_pieces - IZR (Zfloor n_pieces));
            1 - (IZR (Zceil n_pieces) - n_pieces)] ;;
    let total_mass := avg_mass_per_piece * IZR n in
    '(pieces, total_mass_proportion) <-
       draw_pieces size_class plastic_type (Z.to_nat n) pieces 0 ;;
    assign_mass
      (seq (length pieces - Z.to_nat n) (Z.to_nat n))
      total_mass total_mass_proportion pieces
  else ret pieces.

(** Line 194: [for plastic_type in PlasticType]. *)
Fixpoint plastic_type_loop (size_class : SizeClass.t)
  (plastic_types : list PlasticType.t) (pieces : list Trash.t)
  : M (list Trash.t) :=
  match plastic_types with
  | [] => ret pieces
  | plastic_type :: rest =>
      pieces <- bucket size_class plastic_type pieces ;;
      plastic_type_loop size_class rest pieces
  end.

(** Line 193: [for size_class in relevant_size_classes]. *)
Fixpoint size_class_loop (size_classes : list SizeClass.t)
  (pieces : list Trash.t) : M (list Trash.t) :=
  match size_classes with
  | [] => ret pieces
  | size_class :: rest =>
      pieces <- plastic_type_loop size_class PlasticType.members pieces ;;
      size_class_loop rest pieces
  end.

End Sampling.

(** The default of [relevant_size_classes]. *)
Definition default_relevant_size_classes : list SizeClass.t :=
  [SizeClass.MESO; SizeClass.MACRO; SizeClass.MEGA].

(** Line 154.  [fuel] is the model's bound on redraws per position. *)
Definition generate_trash (fuel : nat) (W H : R) (boat_pos boat_box : R * R)
  (centered : bool) (mean_scale : R)
  (relevant_size_classes : list SizeClass.t) (use_example : bool)
  : M (list Trash.t) :=
  if use_example then generate_example W H mean_scale
  else size_class_loop fuel W H boat_pos boat_box centered mean_scale
         relevant_size_classes [].

(** ** [plot_trash]: the tally and the report (lines 236-241, 248-250,
       257-259)

    The calls into matplotlib (axes, circles, legend) are left out: what is
    modelled is the bookkeeping of the function and the text it prints. *)

(** Lines 240-241: [piece_counts[size_class][plastic_type] = 0]. *)
Fixpoint zero_row (types : list PlasticType.t) (row : dict PlasticType.t nat)
  : dict PlasticType.t nat :=
  match types with
  | [] => row
  | plastic_type :: rest =>
      zero_row rest (dict_set PlasticType.eqb row plastic_type 0%nat)
  end.

(** Lines 238-241: [for size_class in SizeClass]. *)
Fixpoint zero_counts (classes : list SizeClass.t)
  (piece_counts : dict SizeClass.t (dict PlasticType.t nat))
  : dict SizeClass.t (dict PlasticType.t nat) :=
  match classes with
  | [] => piece_counts
  | size_class :: rest =>
      zero_counts rest
        (dict_set SizeClass.eqb piece_counts size_class
                  (zero_row PlasticType.members []))
  end.

(** [size_classes.add(size_class)].  The set is kept as a list without
    repetition, in order of first insertion; the order in which Python
    iterates over it is a separate matter, see [plot_trash]. *)
Definition set_add (size_classes : list SizeClass.t)
  (size_class : SizeClass.t) : list SizeClass.t :=
  if existsb (SizeClass.eqb size_class) size_classes then size_classes
  else size_classes ++ [size_class].

(** Lines 249-250: the bookkeeping in the body of [for piece in pieces]. *)
Definition tally_piece
  (st : list SizeClass.t * dict SizeClass.t (dict PlasticType.t nat))
  (piece : Trash.t)
  : M (list SizeClass.t * dict SizeClass.t (dict PlasticType.t nat)) :=
  let size_classes := set_add (fst st) (Trash.size_class piece) in
  row <- getitem (dict_get SizeClass.eqb (snd st)
                           (Trash.size_class piece)) ;;
  n <- getitem (dict_get PlasticType.eqb row (Trash.plastic_type piece)) ;;
  ret (size_classes,
       dict_set SizeClass.eqb (snd st) (Trash.size_class piece)
         (dict_set PlasticType.eqb row (Trash.plastic_type piece)
                   (n + 1)%nat)).

(** Line 248. *)
Fixpoint tally (pieces : list Trash.t)
  (st : list SizeClass.t * dict SizeClass.t (dict PlasticType.t nat))
  : M (list SizeClass.t * dict SizeClass.t (dict PlasticType.t nat)) :=
  match pieces with
  | [] => ret st
  | piece :: rest => st' <- tally_piece st piece ;; tally rest st'
  end.

(** Lines 258-259: one printed line per plastic type, as the triple of the
    values the format string receives. *)
Fixpoint report_row
  (piece_counts : dict SizeClass.t (dict PlasticType.t nat))
  (size_class : SizeClass.t) (types : list PlasticType.t)
  : M (list (SizeClass.t * PlasticType.t * nat)) :=
  match types with
  | [] => ret []
  | plastic_type :: rest =>
      row <- getitem (dict_get SizeClass.eqb piece_counts size_class) ;;
      n <- getitem (dict_get PlasticType.eqb row plastic_type) ;;
      lines <- report_row piece_counts size_class rest ;;
      ret ((size_class, plastic_type, n) :: lines)
  end.

(** Line 257: [for size_class in size_classes]. *)
Fixpoint report
  (piece_counts : dict SizeClass.t (dict PlasticType.t nat))
  (size_classes : list SizeClass.t)
  : M (list (SizeClass.t * PlasticType.t * nat)) :=
  match size_classes with
  | [] => ret []
  | size_class :: rest =>
      lines <- report_row piece_counts size_class PlasticType.members ;;
      lines' <- report piece_counts rest ;;
      ret (lines ++ lines')
  end.

(** [plot_trash(W, H, pieces, centered)], as the list of the lines it
    prints.  [W], [H] and [centered] reach matplotlib only.  Python does not
    fix the order in which a set is iterated: [set_order] is that order, a
    parameter of the model. *)
Definition plot_trash (set_order : list SizeClass.t -> list SizeClass.t)
  (W H : R) (pieces : list Trash.t) (centered : bool)
  : M (list (SizeClass.t * PlasticType.t * nat)) :=
  st <- tally pieces
          ([], zero_counts [SizeClass.MICRO; SizeClass.MESO;
                            SizeClass.MACRO; SizeClass.MEGA] []) ;;
  report (snd st) (set_order (fst st)).

(** ** [calculate_expected_collection] (lines 268-312) *)

(** The four numbers of one printed block, in printing order. *)
Record collection : Type := mkCollection {
  small_trash_mass_per_dist : R;
  megaplastic_mass_per_dist : R;
  total_mass_per_dist : R;
  total_mass_collection_rate : R
}.

(** Lines 288-289 and 292-293: [for type in mean_plastic_concentration[sc]]
    adds the mass concentrations to the running sum. *)
Fixpoint sum_mass_concentration_row (size_class : SizeClass.t)
  (types : list PlasticType.t) (acc : R) : R :=
  match types with
  | [] => acc
  | type :: rest =>
      sum_mass_concentration_row size_class rest
        (acc + fst (mean_plastic_concentration size_class type))
  end.

(** Line 287: [for size_class in [SizeClass.MESO, SizeClass.MACRO]]. *)
Fixpoint sum_mass_concentration (classes : list SizeClass.t) (acc : R) : R :=
  match classes with
  | [] => acc
  | size_class :: rest =>
      sum_mass_concentration rest
        (sum_mass_concentration_row size_class PlasticType.members acc)
  end.

(** Line 279, in the three local variables it reads.  [x ** (1/4)] is
    [Rpower x (1/4)]: the bases are positive where the source evaluates
    it, as are the arguments of [math.log10]. *)
Definition avg_sensing_distance (k Dmin Dmax : R) : M R :=
  inv <- truediv 1 (log10 Dmax - log10 Dmin) ;;
  far <- truediv (Dmax ^ 2) k ;;
  near <- truediv (Dmin ^ 2) k ;;
  truediv (inv * 2 * (Rpower far (1 / 4) - Rpower near (1 / 4))) (ln 10).

(** The lines printed from the three masses per distance (lines 299-302
    and 308-311). *)
Definition printed_block (small mega total : R) : collection :=
  mkCollection small mega total (total * 1.5 / 1000 * 3600).

(** The function takes no argument and returns nothing: the model returns
    the two blocks of numbers it prints. *)
Definition calculate_expected_collection : M (collection * collection) :=
  let CONVEYOR_OPENING_WIDTH := 4.5 in
  let BACKSCATTERING_CROSS_SECTION_SCALING := 0.5 in
  k <- truediv (1 ^ 2 / 60 ^ 4) BACKSCATTERING_CROSS_SECTION_SCALING ;;
  let Dmin := fst (size_ranges SizeClass.MEGA) / 100 in
  let Dmax := snd (size_ranges SizeClass.MEGA) / 100 in
  avg <- avg_sensing_distance k Dmin Dmax ;;
  let avg := avg * sin (130 / 2 * PI / 180) in
  let megaplastic_collection_width := avg * 2 in
  let small_trash_mass_concentration :=
    sum_mass_concentration [SizeClass.MESO; SizeClass.MACRO] 0 in
  let megaplastic_mass_concentration :=
    sum_mass_concentration_row SizeClass.MEGA PlasticType.members 0 in
  let small :=
    CONVEYOR_OPENING_WIDTH / 1000 * small_trash_mass_concentration in
  let mega :=
    megaplastic_collection_width / 1000 * megaplastic_mass_concentration in
  let total := small + mega in
  ret (printed_block small mega total,
       printed_block (small * default_mean_scale)
                     (mega * default_mean_scale)
                     (total * default_mean_scale)).

(** ** [main] (lines 315-328) *)

(** The model returns what the script prints: the two blocks of
    [calculate_expected_collection] and the lines of [plot_trash]. *)
Definition main (fuel : nat)
  (set_order : list SizeClass.t -> list SizeClass.t)
  : M (collection * collection * list (SizeClass.t * PlasticType.t * nat)) :=
  printed <- calculate_expected_collection ;;
  let W := 100 in
  let H := 100 in
  let mean_scale := default_mean_scale in
  let relevant_size_classes :=
    [SizeClass.MESO; SizeClass.MACRO; SizeClass.MEGA] in
  let centered := false in
  pieces <- generate_trash fuel W H (0, 0) (0, 0) centered mean_scale
                           relevant_size_classes false ;;
  lines <- plot_trash set_order W H pieces centered ;;
  ret (printed, lines).

(** ** Lines 203-209 with the platform's arithmetic as a parameter

    The model above computes on exact reals.  Where a bound at an end point
    or a comparison against a computed value is at stake, the lines are
    modelled a second time with every floating-point operation taken from
    a record: the decimal literals as the parser rounds them, the four
    operations, [math.log10] and [**].  The exact operations are one
    instance; IEEE arithmetic with a libm is another. *)

Record float_ops : Type := mkFloatOps {
  fl_literal : R -> R;
  fl_add : R -> R -> R;
  fl_sub : R -> R -> R;
  fl_mul : R -> R -> R;
  fl_div : R -> R -> R;
  fl_log10 : R -> R;
  fl_pow : R -> R -> R
}.

Definition exact_ops : float_ops :=
  mkFloatOps (fun x => x) Rplus Rminus Rmult Rdiv log10 Rpower.

Section Rounded.

Variable ops : float_ops.
Variables W H : R.
Variables boat_pos boat_box : R * R.
Variable centered : bool.

(** [random.uniform(a, b)] is [a + (b-a) * random()]. *)
Definition random_uniform_fl (a b : R) : M R :=
  r <- random_random ;; ret (fl_add ops a (fl_mul ops (fl_sub ops b a) r)).

(** Line 203.  Negation is exact. *)
Definition pos_range_fl : (R * R) * (R * R) :=
  if centered
  then ((fl_div ops (- W) 2, fl_div ops W 2),
        (fl_div ops (- H) 2, fl_div ops H 2))
  else ((0, W), (0, H)).

(** Lines 204 and 206. *)
Definition draw_pos_fl : M (R * R) :=
  px <- random_uniform_fl (fst (fst pos_range_fl))
                          (snd (fst pos_range_fl)) ;;
  py <- random_uniform_fl (fst (snd pos_range_fl))
                          (snd (snd pos_range_fl)) ;;
  ret (px, py).

(** The four bounds the test of line 205 computes. *)
Definition boat_bounds : (R * R) * (R * R) :=
  ((fl_sub ops (fst boat_pos) (fl_div ops (fst boat_box) 2),
    fl_add ops (fst boat_pos) (fl_div ops (fst boat_box) 2)),
   (fl_sub ops (snd boat_pos) (fl_div ops (snd boat_box) 2),
    fl_add ops (snd boat_pos) (fl_div ops (snd boat_box) 2))).

(** The loop test of line 205. *)
Definition in_boat_fl (pos : R * R) : bool :=
  Rltb (fl_sub ops (fst boat_pos) (fl_div ops (fst boat_box) 2)) (fst pos)
  && Rltb (fst pos) (fl_add ops (fst boat_pos) (fl_div ops (fst boat_box) 2))
  && Rltb (fl_sub ops (snd boat_pos) (fl_div ops (snd boat_box) 2)) (snd pos)
  && Rltb (snd pos)
          (fl_add ops (snd boat_pos) (fl_div ops (snd boat_box) 2)).

(** Lines 205-206. *)
Fixpoint redraw_fl (k : nat) (pos : R * R) : M (R * R) :=
  if in_boat_fl pos then
    match k with
    | O => hang
    | S k' => pos' <- draw_pos_fl ;; redraw_fl k' pos'
    end
  else ret pos.

(** Lines 208-209.  The table entries are literals of the source; 10 and
    100 are integers. *)
Definition draw_size_fl (size_class : SizeClass.t) : M R :=
  u <- random_uniform_fl
         (fl_log10 ops (fl_literal ops (fst (size_ranges size_class))))
         (fl_log10 ops (fl_literal ops (snd (size_ranges size_class)))) ;;
  ret (fl_div ops (fl_pow ops 10 u) 100).

End Rounded.

(** * Vocabulary of the statements *)

(** ** Cursor steps and the index NumPy picks *)

Definition np_next (c : cursor) : cursor := mkCursor (py_pos c) (S (np_pos c)).
Definition py_next (c : cursor) : cursor := mkCursor (S (py_pos c)) (np_pos c).

(** The index NumPy picks for the uniform value [u]. *)
Definition choice_index (p : list R) (u : R) : nat :=
  searchsorted_right (map (fun w => w / last (cumsum p) 0) (cumsum p)) u.

(** ** Vocabulary for the runs of the sampling path *)

(** The term the source sums into [total_mass_proportion]. *)
Definition weight (t : Trash.t) : R := Trash.density t * Trash.size t ^ 3.
Definition total_weight (l : list Trash.t) : R := Rsum (map weight l).
Definition total_mass (l : list Trash.t) : R := Rsum (map Trash.mass l).

(** What line 224 stores: [total_mass * (density * size**3) / proportion]. *)
Definition with_mass (target proportion : R) (t : Trash.t) : Trash.t :=
  Trash.set_mass t (target * weight t / proportion).

(** The buckets in the order the two loops visit them. *)
Definition buckets (relevant_size_classes : list SizeClass.t)
  : list (SizeClass.t * PlasticType.t) :=
  flat_map (fun sc => map (pair sc) PlasticType.members)
           relevant_size_classes.

(** A density the material draw of this bucket can return. *)
Definition is_density_of (sc : SizeClass.t) (pt : PlasticType.t) (d : R)
  : Prop :=
  exists row materials material,
    dict_get SizeClass.eqb plastic_materials sc = Some row /\
    dict_get PlasticType.eqb row pt = Some materials /\
    In material (map fst materials) /\
    dict_get String.eqb material_densities material = Some d.

Section Trace.

Variable fuel : nat.
Variables W H : R.
Variables boat_pos boat_box : R * R.
Variable centered : bool.
Variable mean_scale : R.
Variable s : source.

(** Lines 195-196 before rounding. *)
Definition mass_target (sc : SizeClass.t) (pt : PlasticType.t) : R :=
  mean_scale * fst (mean_plastic_concentration sc pt)
  * (W/1000) * (H/1000).
Definition n_target (sc : SizeClass.t) (pt : PlasticType.t) : R :=
  mean_scale * snd (mean_plastic_concentration sc pt)
  * (W/1000) * (H/1000).

(** The position candidate made of draws [j] and [j+1] of [random]. *)
Definition pos_at (j : nat) : R * R :=
  let r := pos_range W H centered in
  (fst (fst r) + (snd (fst r) - fst (fst r)) * py_random s j,
   fst (snd r) + (snd (snd r) - fst (snd r)) * py_random s (S j)).

(** The exponent and the size made of draw [i] of [random]. *)
Definition log_size_at (sc : SizeClass.t) (i : nat) : R :=
  log10 (fst (size_ranges sc))
  + (log10 (snd (size_ranges sc)) - log10 (fst (size_ranges sc)))
    * py_random s i.
Definition size_at (sc : SizeClass.t) (i : nat) : R :=
  Rpower 10 (log_size_at sc i) / 100.

(** One particle of bucket [(sc, pt)]: its first position candidate is
    draw [lo]; [r] candidates were rejected before the one it keeps; its
    size is the draw that follows the kept position. *)
Definition drawn_piece (sc : SizeClass.t) (pt : PlasticType.t)
  (lo r : nat) (t : Trash.t) : Prop :=
  (forall k, (k < r)%nat ->
     in_boat boat_pos boat_box (pos_at (lo + 2 * k)) = true) /\
  in_boat boat_pos boat_box (pos_at (lo + 2 * r)) = false /\
  (r <= fuel)%nat /\
  exists d, is_density_of sc pt d /\
    t = Trash.mk (fst (pos_at (lo + 2 * r))) (snd (pos_at (lo + 2 * r)))
                 (size_at sc (lo + 2 * r + 2)) 0 d sc pt.

(** Particles drawn one after the other from draw [lo] up to draw [hi]. *)
Inductive drawn_pieces (sc : SizeClass.t) (pt : PlasticType.t)
  : nat -> nat -> list Trash.t -> Prop :=
| drawn_nil lo : drawn_pieces sc pt lo lo []
| drawn_cons lo r t hi rest :
    drawn_piece sc pt lo r t ->
    drawn_pieces sc pt (lo + 2 * r + 3) hi rest ->
    drawn_pieces sc pt lo hi (t :: rest).

(** What one bucket adds to [pieces] between cursors [c] and [c']. *)
Inductive bucket_run (sc : SizeClass.t) (pt : PlasticType.t)
  (c c' : cursor) (seg : list Trash.t) : Prop :=
| bucket_skipped :
    n_target sc pt <= 0 -> seg = [] -> c' = c ->
    bucket_run sc pt c c' seg
| bucket_filled (n : Z) (raw : list Trash.t) :
    0 < n_target sc pt ->
    IZR (Zfloor (n_target sc pt)) < n_target sc pt ->
    np_random s (np_pos c) < 1 ->
    n = (if Rltb (np_random s (np_pos c))
                 (1 - (n_target sc pt - IZR (Zfloor (n_target sc pt))))
         then Zfloor (n_target sc pt) else Zceil (n_target sc pt)) ->
    length raw = Z.to_nat n ->
    drawn_pieces sc pt (py_pos c) (py_pos c') raw ->
    np_pos c' = (np_pos c + 1 + length raw)%nat ->
    seg = map (with_mass (mass_target sc pt / n_target sc pt * IZR n)
                         (total_weight raw)) raw ->
    bucket_run sc pt c c' seg.

(** The segments added by a list of buckets, cursor to cursor. *)
Inductive buckets_run
  : list (SizeClass.t * PlasticType.t) -> cursor -> cursor ->
    list (list Trash.t) -> Prop :=
| buckets_nil c : buckets_run [] c c []
| buckets_cons sc pt bs c c1 c2 seg segs :
    bucket_run sc pt c c1 seg ->
    buckets_run bs c1 c2 segs ->
    buckets_run ((sc, pt) :: bs) c c2 (seg :: segs).

End Trace.

(** The segment a bucket contributes, as the specification has it: nothing
    when the target count is not positive; otherwise [n] particles of this
    bucket, [n] the rounded count, each with
    [mass = totalMassTarget * (density * size^3) / totalWeight], every mass
    positive, and the masses adding up to [totalMassTarget]. *)
Definition masses_assigned (W H mean_scale : R)
  (b : SizeClass.t * PlasticType.t) (seg : list Trash.t) : Prop :=
  let nTarget := n_target W H mean_scale (fst b) (snd b) in
  let avgMassPerPiece :=
    mass_target W H mean_scale (fst b) (snd b) / nTarget in
  (nTarget <= 0 /\ seg = []) \/
  (0 < nTarget /\
   exists n : Z,
     (n = Zfloor nTarget \/ n = Zceil nTarget) /\
     length seg = Z.to_nat n /\
     let totalMassTarget := avgMassPerPiece * IZR n in
     let totalWeight :=
       Rsum (map (fun t => Trash.density t * Trash.size t ^ 3) seg) in
     Forall (fun t =>
               Trash.size_class t = fst b /\ Trash.plastic_type t = snd b /\
               Trash.mass t
               = totalMassTarget * (Trash.density t * Trash.size t ^ 3)
                 / totalWeight /\
               0 < Trash.mass t) seg /\
     Rsum (map Trash.mass seg) = totalMassTarget).

(** [t] is a particle drawn for some bucket, with its mass filled in. *)
Definition finished_piece fuel W H boat_pos boat_box centered s
  (t : Trash.t) : Prop :=
  exists lo r raw,
    drawn_piece fuel W H boat_pos boat_box centered s
                (Trash.size_class t) (Trash.plastic_type t) lo r raw /\
    t = Trash.set_mass raw (Trash.mass t).

(** Strictly inside the rectangle on both axes. *)
Definition strictly_inside (boat_pos boat_box pos : R * R) : Prop :=
  (fst boat_pos - fst boat_box / 2 < fst pos
   /\ fst pos < fst boat_pos + fst boat_box / 2) /\
  (snd boat_pos - snd boat_box / 2 < snd pos
   /\ snd pos < snd boat_pos + snd boat_box / 2).

(** The particle's position is the candidate made of draws [j] and [j+1] of
    [random], its size comes from draw [j+2]. *)
Definition made_from_draws W H centered s (j : nat) (t : Trash.t) : Prop :=
  Trash.x t = fst (pos_at W H centered s j) /\
  Trash.y t = snd (pos_at W H centered s j) /\
  Trash.size t = size_at s (Trash.size_class t) (j + 2).

Definition in_bucket (b : SizeClass.t * PlasticType.t) (t : Trash.t) : Prop :=
  Trash.size_class t = fst b /\ Trash.plastic_type t = snd b.

(** Later in the list means made from later draws. *)
Definition later_draws (j j' : nat) : Prop := (j + 3 <= j')%nat.

Definition in_draw_order W H centered s (lo hi : nat) (l : list Trash.t)
  : Prop :=
  (lo <= hi)%nat /\
  exists js, Forall2 (made_from_draws W H centered s) js l /\
             StronglySorted later_draws js /\
             Forall (fun j => (lo <= j)%nat /\ (j + 3 <= hi)%nat) js.

(** Two seedings that make both generators return the same values. *)
Definition same_draws (s1 s2 : source) : Prop :=
  (forall i, py_random s1 i = py_random s2 i) /\
  (forall i, np_random s1 i = np_random s2 i).

(** ** The canned layout in closed form *)

Definition empty_avg_density : dict SizeClass.t (dict PlasticType.t R) :=
  [ (SizeClass.MICRO, []); (SizeClass.MESO, []);
    (SizeClass.MACRO, []); (SizeClass.MEGA, []) ].

(** The value line 183 computes when no division fails. *)
Definition avg_vol_value (min_log_size max_log_size : R) : R :=
  1 / (max_log_size - min_log_size)
  * (Rpower (10^3) max_log_size - Rpower (10^3) min_log_size)
  / log10 (10^3).

(** [total_vol] of line 184 for the bucket MEGA/N. *)
Definition example_total_vol (W H mean_scale : R) : R :=
  avg_vol_value (log10 (50 / 100)) (log10 (200 / 100))
  * n_target W H mean_scale SizeClass.MEGA PlasticType.N.

(** The weighted density sum of the MEGA/N row, as line 166 adds it up. *)
Definition example_density : R := 0 + 920 * 0.80 + 900.5 * 0.10.

(** What lines 179-188 make of one canned particle. *)
Definition example_fill (W H mean_scale : R) (piece : Trash.t) : Trash.t :=
  Trash.set_density
    (Trash.set_mass piece
       (Trash.size piece ^ 3 / example_total_vol W H mean_scale
        * mass_target W H mean_scale SizeClass.MEGA PlasticType.N))
    example_density.

(** ** The mean volume under the log-uniform size distribution *)

(** The volume, by the cube law, of a piece whose size is [10^u] metres. *)
Definition piece_volume_at (u : R) : R := Rpower 10 u ^ 3.

(** An antiderivative of [piece_volume_at]. *)
Definition volume_primitive (u : R) : R := Rpower (10^3) u / ln (10^3).

Definition piece_volume_integrable (a b : R) :
  Riemann_integrable piece_volume_at a b.
Proof.
  assert (Hc : continuity piece_volume_at)
    by (unfold piece_volume_at, Rpower; reg).
  destruct (Rle_dec a b) as [Hab|Hab].
  - apply continuity_implies_RiemannInt; [assumption|].
    intros x _. apply Hc.
  - apply RiemannInt_P1. apply continuity_implies_RiemannInt; [lra|].
    intros x _. apply Hc.
Qed.

(** The mean volume of a piece whose log10 size is uniform on [[a, b]]: the
    integral of the volume over the log-uniform size distribution. *)
Definition log_uniform_mean_volume (a b : R) : R :=
  RiemannInt (piece_volume_integrable a b) / (b - a).

(** ** The scaled total of the concentration table *)

Definition all_size_classes : list SizeClass.t :=
  [SizeClass.MICRO; SizeClass.MESO; SizeClass.MACRO; SizeClass.MEGA].

(** The sum, over the sixteen buckets, of the mass concentration scaled by
    [mean_scale]. *)
Definition scaled_total_mass_concentration (mean_scale : R) : R :=
  Rsum (map (fun b => mean_scale
                      * fst (mean_plastic_concentration (fst b) (snd b)))
            (buckets all_size_classes)).

(** ** Failures *)

(** What can go wrong in a run, and why: a [ValueError] needs [Pval], a
    [KeyError] needs [Pkey], an [IndexError] needs a value of NumPy's
    generator that is not below 1, and the loop can only be left running by
    a position inside the rectangle. *)
Definition explained (boat_pos boat_box : R * R) (s : source)
  (Pval Pkey : Prop) {A} (r : outcome A) : Prop :=
  match r with
  | Ok _ => True
  | Raise ValueError => Pval
  | Raise KeyError => Pkey
  | Raise IndexError => exists i, 1 <= np_random s i
  | Raise ZeroDivisionError => False
  | Hang => exists pos, in_boat boat_pos boat_box pos = true
  end.

(** Some visited bucket has a positive integer target. *)
Definition integer_target (W H mean_scale : R)
  (bs : list (SizeClass.t * PlasticType.t)) : Prop :=
  exists b, In b bs /\ 0 < n_target W H mean_scale (fst b) (snd b) /\
    IZR (Zfloor (n_target W H mean_scale (fst b) (snd b)))
    = n_target W H mean_scale (fst b) (snd b).

(** ** One concrete run of the sampling path

    A 1000 m by 100 m strip at [mean_scale = 1] with only MEGA relevant and a
    10 m by 10 m exclusion square around the origin.  The first position
    candidate, (0, 0), falls inside the square and is redrawn; the bucket
    MEGA/H rounds 0.03 down to no particle, MEGA/N rounds 0.33 up to one. *)

Definition demo_source : source :=
  mkSource (fun i => match i with
                     | 2%nat | 3%nat => 1/2
                     | _ => 0
                     end)
           (fun i => match i with
                     | O => 1/2
                     | _ => 9/10
                     end).

Definition demo_piece : Trash.t :=
  Trash.mk 500 50 0.5 (42.82 / 3.3) 900.5 SizeClass.MEGA PlasticType.N.

(** ** The sampling region and the accounts of a run *)

(** Inside the half-open sampling rectangle of line 203. *)
Definition in_region (W H : R) (centered : bool) (pos : R * R) : Prop :=
  (fst (fst (pos_range W H centered)) <= fst pos
   /\ fst pos < snd (fst (pos_range W H centered))) /\
  (fst (snd (pos_range W H centered)) <= snd pos
   /\ snd pos < snd (snd (pos_range W H centered))).

(** The buckets that pass the test [n_pieces > 0] of line 197. *)
Definition sampled_buckets (W H mean_scale : R)
  (bs : list (SizeClass.t * PlasticType.t))
  : list (SizeClass.t * PlasticType.t) :=
  filter (fun b => Rltb 0 (n_target W H mean_scale (fst b) (snd b))) bs.

(** The mass of a segment against the table: [mass / count] per piece, and
    less than one such piece away from the bucket's target. *)
Definition mass_per_piece_from_table (W H mean_scale : R)
  (b : SizeClass.t * PlasticType.t) (seg : list Trash.t) : Prop :=
  let conc := mean_plastic_concentration (fst b) (snd b) in
  (n_target W H mean_scale (fst b) (snd b) <= 0 /\ seg = []) \/
  (0 < n_target W H mean_scale (fst b) (snd b) /\
   0 < snd conc /\
   total_mass seg = fst conc / snd conc * INR (length seg) /\
   Rabs (total_mass seg - mass_target W H mean_scale (fst b) (snd b))
   < fst conc / snd conc).

(** ** Outcomes compared across two runs *)

(** The same outcome, with [f] applied to the value if there is one. *)
Definition omap {A B} (f : A -> B) (r : outcome (A * cursor))
  : outcome (B * cursor) :=
  match r with
  | Ok (a, c) => Ok (f a, c)
  | Raise e => Raise e
  | Hang => Hang
  end.

(** The outcome of one run followed by another that starts where the first
    stopped, their lists joined. *)
Definition then_append (r1 : outcome (list Trash.t * cursor))
  (run2 : cursor -> outcome (list Trash.t * cursor))
  : outcome (list Trash.t * cursor) :=
  match r1 with
  | Ok (out1, c1) => omap (app out1) (run2 c1)
  | Raise e => Raise e
  | Hang => Hang
  end.

(** The particle moved by [(dx, dy)]. *)
Definition translate (dx dy : R) (t : Trash.t) : Trash.t :=
  Trash.mk (Trash.x t + dx) (Trash.y t + dy) (Trash.size t) (Trash.mass t)
           (Trash.density t) (Trash.size_class t) (Trash.plastic_type t).

(** The centre of the exclusion rectangle, seen from the corner frame. *)
Definition corner_boat (W H : R) (boat_pos : R * R) : R * R :=
  (fst boat_pos + W / 2, snd boat_pos + H / 2).

(** A position of the corner frame, seen from the centered frame. *)
Definition shift (W H : R) (pos : R * R) : R * R :=
  (fst pos + - (W / 2), snd pos + - (H / 2)).

(** ** Shares of the uniform value *)

(** The sum of the first [i] weights. *)
Definition prefix_sum (p : list R) (i : nat) : R := Rsum (firstn i p).

(** ** Vocabulary for the report *)

(** The order of iteration lists the elements of the set, each once. *)
Definition lists_the_set (set_order : list SizeClass.t -> list SizeClass.t)
  : Prop :=
  forall l, NoDup l ->
    NoDup (set_order l) /\ forall x, In x (set_order l) <-> In x l.

(** Is the particle in this bucket? *)
Definition in_bucketb (sc : SizeClass.t) (pt : PlasticType.t) (t : Trash.t)
  : bool :=
  SizeClass.eqb (Trash.size_class t) sc
  && PlasticType.eqb (Trash.plastic_type t) pt.

(** The number of particles of a bucket in a list. *)
Definition count_pieces (sc : SizeClass.t) (pt : PlasticType.t)
  (pieces : list Trash.t) : nat :=
  length (filter (in_bucketb sc pt) pieces).

(** The sum of the counts of a list of printed lines. *)
Definition reported_total (lines : list (SizeClass.t * PlasticType.t * nat))
  : nat :=
  list_sum (map snd lines).

(** [piece_counts[sc][pt]], when both keys exist. *)
Definition lookup_count
  (piece_counts : dict SizeClass.t (dict PlasticType.t nat))
  (sc : SizeClass.t) (pt : PlasticType.t) : option nat :=
  match dict_get SizeClass.eqb piece_counts sc with
  | Some row => dict_get PlasticType.eqb row pt
  | None => None
  end.

(** Is the particle of this size class? *)
Definition in_class (sc : SizeClass.t) (t : Trash.t) : bool :=
  SizeClass.eqb (Trash.size_class t) sc.

(** The count a bucket ends up with: none when its target count is not
    positive, the floor or the ceiling of the target otherwise. *)
Definition rounded_count (W H mean_scale : R)
  (b : SizeClass.t * PlasticType.t) (n : nat) : Prop :=
  (n_target W H mean_scale (fst b) (snd b) <= 0 -> n = 0%nat) /\
  (0 < n_target W H mean_scale (fst b) (snd b) ->
   Z.of_nat n = Zfloor (n_target W H mean_scale (fst b) (snd b)) \/
   Z.of_nat n = Zceil (n_target W H mean_scale (fst b) (snd b))).

(** [piece_counts] after lines 238-241. *)
Definition zero_piece_counts : dict SizeClass.t (dict PlasticType.t nat) :=
  zero_counts [SizeClass.MICRO; SizeClass.MESO; SizeClass.MACRO;
               SizeClass.MEGA] [].

(** ** The mean sensing distance under the log-uniform size distribution *)

(** The distance [d] at which an object of size [D] is at the sensor's
    threshold [D^2 / d^4 = k]. *)
Definition sensing_distance (k D : R) : R := Rpower (D ^ 2 / k) (1 / 4).

(** The same for a piece whose size is [10^u] metres. *)
Definition sensing_distance_at (k u : R) : R :=
  sensing_distance k (Rpower 10 u).

Definition sensing_distance_integrable (k a b : R) :
  Riemann_integrable (sensing_distance_at k) a b.
Proof.
  assert (Hc : continuity (sensing_distance_at k)).
  { destruct (Rlt_dec 0 k) as [Hk|Hk]; intros u.
    - apply continuity_pt_locally_ext
        with (f := fun u => exp (u * (ln 10 / 2)) * exp (- (1 / 4 * ln k)))
             (a := 1); [lra| |reg].
      intros y _. unfold sensing_distance_at, sensing_distance, Rpower.
      assert (He : 0 < exp (y * ln 10)) by apply exp_pos.
      change (exp (y * ln 10) ^ 2 / k) with (exp (y * ln 10) ^ 2 * / k).
      rewrite ln_mult;
        [|apply pow_lt; assumption|apply Rinv_0_lt_compat; assumption].
      rewrite ln_Rinv by assumption.
      rewrite ln_pow by assumption. rewrite ln_exp.
      rewrite <- exp_plus. f_equal. change (INR 2) with (1 + 1). field.
    - apply continuity_pt_locally_ext with (f := fun _ => exp (1 / 4 * 0))
                                            (a := 1); [lra| |reg].
      intros y _. unfold sensing_distance_at, sensing_distance, Rpower.
      assert (Hln0 : forall x, x <= 0 -> ln x = 0).
      { intros x Hx. unfold ln. destruct (Rlt_dec 0 x); [exfalso; lra|reflexivity]. }
      rewrite (Hln0 (exp (y * ln 10) ^ 2 / k)); [reflexivity|].
      assert (He : 0 < exp (y * ln 10) ^ 2) by (apply pow_lt, exp_pos).
      destruct (Req_dec k 0) as [->|Hk0].
      + unfold Rdiv. rewrite Rinv_0. lra.
      + assert (Hinv : / k < 0) by (apply Rinv_lt_0_compat; lra).
        unfold Rdiv. nra. }
  destruct (Rle_dec a b) as [Hab|Hab].
  - apply continuity_implies_RiemannInt; [assumption|].
    intros x _. apply Hc.
  - apply RiemannInt_P1. apply continuity_implies_RiemannInt; [lra|].
    intros x _. apply Hc.
Qed.

(** The mean sensing distance of a piece whose log10 size is uniform on
    [[a, b]]. *)
Definition log_uniform_mean_sensing_distance (k a b : R) : R :=
  RiemannInt (sensing_distance_integrable k a b) / (b - a).

(** An antiderivative of [sensing_distance_at k]. *)
Definition sensing_primitive (k u : R) : R :=
  2 / ln 10 * (exp (u * (ln 10 / 2)) * exp (- (1 / 4 * ln k))).

(** ** The call [main] makes *)

(** The whole part of the target count of each bucket in the call [main]
    makes. *)
Definition main_floor (b : SizeClass.t * PlasticType.t) : Z :=
  match b with
  | (SizeClass.MESO, PlasticType.H) => 301
  | (SizeClass.MESO, PlasticType.N) => 11
  | (SizeClass.MACRO, PlasticType.H) => 9
  | _ => 0
  end.

(** The largest count each bucket can get in that call. *)
Definition main_ceil (b : SizeClass.t * PlasticType.t) : Z :=
  match b with
  | (SizeClass.MESO, PlasticType.H) => 302
  | (SizeClass.MESO, PlasticType.N) => 12
  | (SizeClass.MACRO, PlasticType.H) => 10
  | (SizeClass.MACRO, PlasticType.P) => 0
  | (SizeClass.MEGA, PlasticType.P) => 0
  | (SizeClass.MEGA, PlasticType.F) => 0
  | _ => 1
  end.

(** Sum of a list of integers. *)
Definition Zsum (l : list Z) : Z := fold_right Z.add 0%Z l.

(** ** Vocabulary for the arithmetic *)

(** Every operation returns its exact result with a relative error of at
    most [eps] (the standard model of rounding, away from overflow and
    underflow). *)
Definition accurate (eps : R) (ops : float_ops) : Prop :=
  (forall x, Rabs (fl_literal ops x - x) <= eps * Rabs x) /\
  (forall x y, Rabs (fl_add ops x y - (x + y)) <= eps * Rabs (x + y)) /\
  (forall x y, Rabs (fl_sub ops x y - (x - y)) <= eps * Rabs (x - y)) /\
  (forall x y, Rabs (fl_mul ops x y - x * y) <= eps * Rabs (x * y)) /\
  (forall x y, y <> 0 ->
     Rabs (fl_div ops x y - x / y) <= eps * Rabs (x / y)) /\
  (forall x, 0 < x ->
     Rabs (fl_log10 ops x - log10 x) <= eps * Rabs (log10 x)) /\
  (forall x y, 0 < x ->
     Rabs (fl_pow ops x y - Rpower x y) <= eps * Rpower x y).

(** Halving zero gives zero, and adding or subtracting zero changes
    nothing (true of IEEE arithmetic). *)
Definition zero_is_exact (ops : float_ops) : Prop :=
  fl_div ops 0 2 = 0 /\
  forall x, fl_sub ops x 0 = x /\ fl_add ops x 0 = x.

(** Strictly between the bounds on both axes. *)
Definition strictly_between (bounds : (R * R) * (R * R)) (pos : R * R)
  : Prop :=
  (fst (fst bounds) < fst pos /\ fst pos < snd (fst bounds)) /\
  (fst (snd bounds) < snd pos /\ snd pos < snd (snd bounds)).

(** Outside the closed rectangle. *)
Definition strictly_outside (boat_pos boat_box pos : R * R) : Prop :=
  fst pos < fst boat_pos - fst boat_box / 2 \/
  fst boat_pos + fst boat_box / 2 < fst pos \/
  snd pos < snd boat_pos - snd boat_box / 2 \/
  snd boat_pos + snd boat_box / 2 < snd pos.

(** An arithmetic that is exact except for [math.log10], which returns a
    value too small by the relative error [2^-53]. *)
Definition low_log10_ops : float_ops :=
  mkFloatOps (fun x => x) Rplus Rminus Rmult Rdiv
             (fun x => log10 x - / 2 ^ 53 * Rabs (log10 x)) Rpower.

(** ** A run that ends on the edge of the rectangle

    The strip and the scale of the run of [demo_source]; the first
    candidate is [(500, 0)], on the right edge of a rectangle centred at
    [(450, 0)] that is 100 wide and 10 high.  The values are ones that
    [random] can deliver, and the products and bounds involved are exact in
    binary floating point as well. *)

Definition edge_source : source :=
  mkSource (fun i => match i with
                     | O => 1/2
                     | _ => 0
                     end)
           (fun i => match i with
                     | O => 1/2
                     | _ => 9/10
                     end).

Definition edge_piece : Trash.t :=
  Trash.mk 500 0 0.5 (42.82 / 3.3) 900.5 SizeClass.MEGA PlasticType.N.

(** ** A run over two size classes

    A 50 m by 50 m square at [mean_scale = 1], no exclusion rectangle, the
    classes MACRO and MEGA in this order.  The targets are 1.6 (MACRO/H,
    rounded up to 2), 0.1225 (MACRO/N, up to 1), 0.00175 (MACRO/F, down to
    0), 0.00075 (MEGA/H, down to 0) and 0.00825 (MEGA/N, up to 1): four
    particles in three buckets. *)

Definition two_class_source : source :=
  mkSource (fun i => INR i / 16)
           (fun i => match i with
                     | 3%nat | 4%nat => 9/10
                     | 7%nat | 8%nat => 999/1000
                     | _ => 1/2
                     end).

(** The particle made of draws [j], [j+1] (position) and [j+2] (size) of
    [random], before its mass is set. *)
Definition raw_piece (sc : SizeClass.t) (pt : PlasticType.t) (j : nat)
  (d : R) : Trash.t :=
  Trash.mk (fst (pos_at 50 50 false two_class_source j))
           (snd (pos_at 50 50 false two_class_source j))
           (size_at two_class_source sc (j + 2)) 0 d sc pt.

(** The particles of one bucket with their masses: [count] times the mean
    particle mass of the bucket, shared by weight. *)
Definition filled (sc : SizeClass.t) (pt : PlasticType.t) (count : R)
  (raw : list Trash.t) : list Trash.t :=
  map (with_mass (mass_target 50 50 1 sc pt / n_target 50 50 1 sc pt * count)
                 (total_weight raw)) raw.

Definition two_class_pieces : list Trash.t :=
  filled SizeClass.MACRO PlasticType.H 2
         [raw_piece SizeClass.MACRO PlasticType.H 0 920;
          raw_piece SizeClass.MACRO PlasticType.H 3 920]
  ++ filled SizeClass.MACRO PlasticType.N 1
            [raw_piece SizeClass.MACRO PlasticType.N 6 900.5]
  ++ filled SizeClass.MEGA PlasticType.N 1
            [raw_piece SizeClass.MEGA PlasticType.N 9 900.5].

(** ** What a call reads from the generators *)

(** Both positions moved forward, or stayed. *)
Definition cursor_le (c c' : cursor) : Prop :=
  (py_pos c <= py_pos c')%nat /\ (np_pos c <= np_pos c')%nat.

(** The two generators deliver the same values between the two cursors. *)
Definition agree_between (s1 s2 : source) (c c' : cursor) : Prop :=
  (forall i, (py_pos c <= i < py_pos c')%nat ->
             py_random s1 i = py_random s2 i) /\
  (forall i, (np_pos c <= i < np_pos c')%nat ->
             np_random s1 i = np_random s2 i).

(** A computation that returns depends on the generators only through the
    values between the cursor it starts from and the one it stops at. *)
Definition reads_its_window {A} (m : M A) : Prop :=
  forall s1 c a c', m s1 c = Ok (a, c') ->
    cursor_le c c' /\
    forall s2, agree_between s1 s2 c c' -> m s2 c = Ok (a, c').

(** The streams of [demo_source], continued differently after the five
    values of [random] and the three of NumPy that its run reads. *)
Definition late_source : source :=
  mkSource (fun i => match i with
                     | 2%nat | 3%nat => 1/2
                     | 5%nat => 1/3
                     | _ => 0
                     end)
           (fun i => match i with
                     | O => 1/2
                     | 3%nat => 1/4
                     | _ => 9/10
                     end).

(** * Properties *)

(** ** Reflection of the boolean tests *)

Lemma Rltb_true (a b : R) : Rltb a b = true <-> a < b.
Proof. unfold Rltb. destruct (Rlt_dec a b); split; intros; try easy. Qed.

Lemma Rltb_false (a b : R) : Rltb a b = false <-> b <= a.
Proof.
  unfold Rltb. destruct (Rlt_dec a b); split; intros; try easy; lra.
Qed.

Lemma Reqb_true (a b : R) : Reqb a b = true <-> a = b.
Proof. unfold Reqb. destruct (Req_dec_T a b); split; intros; easy. Qed.

Lemma Reqb_false (a b : R) : Reqb a b = false <-> a <> b.
Proof. unfold Reqb. destruct (Req_dec_T a b); split; intros; easy. Qed.

(** ** Inversion of monadic runs *)

Lemma bind_Ok {A B} (m : M A) (k : A -> M B) s c b c' :
  bind m k s c = Ok (b, c') ->
  exists a c1, m s c = Ok (a, c1) /\ k a s c1 = Ok (b, c').
Proof.
  unfold bind. destruct (m s c) as [[a c1]| |]; try discriminate.
  intros Hk. now exists a, c1.
Qed.

Lemma bind_run {A B} (m : M A) (k : A -> M B) s c a c1 :
  m s c = Ok (a, c1) -> bind m k s c = k a s c1.
Proof. unfold bind. now intros ->. Qed.

Lemma ret_Ok {A} (a b : A) s c c' :
  ret a s c = Ok (b, c') -> a = b /\ c = c'.
Proof. unfold ret. intros [= -> ->]. now split. Qed.

Lemma getitem_Ok {A} (o : option A) s c a c' :
  getitem o s c = Ok (a, c') -> o = Some a /\ c = c'.
Proof.
  destruct o as [v|]; simpl; try discriminate.
  intros Hr. apply ret_Ok in Hr as [-> ->]. now split.
Qed.

Lemma truediv_Ok (a b : R) s c q c' :
  truediv a b s c = Ok (q, c') -> b <> 0 /\ q = a / b /\ c = c'.
Proof.
  unfold truediv. destruct (Reqb b 0) eqn:E; try discriminate.
  intros Hr. apply ret_Ok in Hr as [<- ->].
  apply Reqb_false in E. now repeat split.
Qed.

Lemma truediv_run (a b : R) s c :
  b <> 0 -> truediv a b s c = Ok (a / b, c).
Proof.
  intros Hb. unfold truediv. apply Reqb_false in Hb. now rewrite Hb.
Qed.

Lemma list_getitem_Ok {A} (l : list A) i s c a c' :
  list_getitem l i s c = Ok (a, c') -> nth_error l i = Some a /\ c = c'.
Proof.
  unfold list_getitem. destruct (nth_error l i); try discriminate.
  intros Hr. apply ret_Ok in Hr as [-> ->]. now split.
Qed.

(** ** [np.random.choice] *)

Lemma np_random_choice_Ok {A} (a : list A) (p : list R) s c v c' :
  np_random_choice a p s c = Ok (v, c') ->
  Rsum p = 1 /\ c' = np_next c /\
  nth_error a (choice_index p (np_random s (np_pos c))) = Some v.
Proof.
  unfold np_random_choice.
  destruct (length a =? 0)%nat; try discriminate.
  destruct (negb (length p =? length a)%nat); try discriminate.
  destruct (existsb _ p); try discriminate.
  destruct (Reqb (Rsum p) 1) eqn:Hsum; try discriminate. simpl negb. cbv iota.
  apply Reqb_true in Hsum.
  intros Hrun. apply bind_Ok in Hrun as (u & c1 & Hu & Hrun).
  unfold np_random_sample in Hu. injection Hu as Hu Hc1. subst u c1.
  apply list_getitem_Ok in Hrun as [Hnth <-].
  now repeat split.
Qed.

Lemma np_random_choice_bad_sum {A} (a : list A) (p : list R) s c :
  Rsum p <> 1 -> length a = length p -> a <> [] ->
  (forall w, In w p -> 0 <= w) ->
  np_random_choice a p s c = Raise ValueError.
Proof.
  intros Hsum Hlen Hne Hpos. unfold np_random_choice.
  destruct a as [|a0 a']; [congruence|]. simpl (length (a0 :: a') =? 0)%nat.
  cbv iota. rewrite Hlen, Nat.eqb_refl. simpl negb. cbv iota.
  destruct (existsb _ p); [reflexivity|].
  apply Reqb_false in Hsum. now rewrite Hsum.
Qed.

(** With two alternatives whose weights sum to 1, the first is chosen
    exactly when the uniform value is below its weight. *)
Lemma choice_index_two (p q u : R) :
  p + q = 1 -> u < 1 ->
  choice_index [p; q] u = if Rltb u p then O else 1%nat.
Proof.
  intros Hpq Hu. unfold choice_index, cumsum. simpl.
  replace (0 + p + q) with 1 by lra.
  replace ((0 + p) / 1) with p by lra.
  destruct (Rltb u p); [reflexivity|].
  replace (1 / 1) with 1 by lra.
  apply Rltb_true in Hu. now rewrite Hu.
Qed.

Lemma choice_index_two_ge (p q u : R) :
  p + q = 1 -> 1 <= u -> 0 <= q -> choice_index [p; q] u = 2%nat.
Proof.
  intros Hpq Hu Hq. unfold choice_index, cumsum. simpl.
  replace (0 + p + q) with 1 by lra.
  replace ((0 + p) / 1) with p by lra.
  replace (1 / 1) with 1 by lra.
  assert (Rltb u p = false) as -> by (apply Rltb_false; lra).
  assert (Rltb u 1 = false) as -> by (apply Rltb_false; lra).
  reflexivity.
Qed.

Lemma np_random_choice_two_run {A} (a b : A) (p q : R) s c :
  p + q = 1 -> 0 <= p -> 0 <= q -> np_random s (np_pos c) < 1 ->
  np_random_choice [a; b] [p; q] s c =
  Ok (if Rltb (np_random s (np_pos c)) p then a else b, np_next c).
Proof.
  intros Hpq Hp Hq Hu. unfold np_random_choice.
  assert (existsb (fun w => Rltb w 0) [p; q] = false) as ->.
  { simpl. assert (Rltb p 0 = false) as -> by (apply Rltb_false; lra).
    assert (Rltb q 0 = false) as -> by (apply Rltb_false; lra).
    reflexivity. }
  assert (Reqb (Rsum [p; q]) 1 = true) as ->.
  { apply Reqb_true. unfold Rsum. simpl. lra. }
  cbn [length Nat.eqb negb].
  erewrite bind_run by (unfold np_random_sample; reflexivity).
  fold (choice_index [p; q] (np_random s (np_pos c))).
  rewrite choice_index_two by assumption.
  now destruct (Rltb (np_random s (np_pos c)) p).
Qed.

(** ** Successful runs of the sampling path, step by step *)

Lemma nth_error_setitem_middle (pre post : list Trash.t) (t t' : Trash.t) :
  nth_error (pre ++ t :: post) (length pre) = Some t /\
  list_setitem (pre ++ t :: post) (length pre) t' = pre ++ t' :: post.
Proof.
  induction pre as [|p pre IH]; simpl; [now split|].
  destruct IH as [IH1 IH2]. now rewrite IH1, IH2.
Qed.

(** The second pass rewrites exactly the slice it is given. *)
Lemma assign_mass_slice (target proportion : R) s c :
  forall (raw pre post : list Trash.t),
    assign_mass (seq (length pre) (length raw)) target proportion
                (pre ++ raw ++ post) s c
    = Ok (pre ++ map (with_mass target proportion) raw ++ post, c).
Proof.
  induction raw as [|t raw IH]; intros pre post; [reflexivity|].
  cbn [length seq assign_mass].
  destruct (nth_error_setitem_middle pre (raw ++ post) t
              (with_mass target proportion t)) as [Hget Hset].
  erewrite bind_run
    by (unfold list_getitem; cbn [app]; rewrite Hget; reflexivity).
  cbn [app].
  change (Trash.set_mass t _) with (with_mass target proportion t).
  rewrite Hset.
  specialize (IH (pre ++ [with_mass target proportion t]) post).
  rewrite length_app, Nat.add_1_r, <- app_assoc in IH. simpl app in IH.
  rewrite IH. simpl map. now rewrite <- app_assoc.
Qed.

Lemma dict_get_In {K V} (eqb : K -> K -> bool) (d : dict K V) k v :
  dict_get eqb d k = Some v -> exists k', In (k', v) d.
Proof.
  induction d as [|[k' v'] d IH]; simpl; [discriminate|].
  destruct (eqb k' k).
  - intros [= ->]. exists k'. now left.
  - intros Hd. destruct (IH Hd) as [k'' Hin]. exists k''. now right.
Qed.

Section SamplingRuns.

Variable fuel : nat.
Variables W H : R.
Variables boat_pos boat_box : R * R.
Variable centered : bool.
Variable mean_scale : R.
Variable s : source.

Local Abbreviation pos_at := (pos_at W H centered s).
Local Abbreviation in_boat := (in_boat boat_pos boat_box).
Local Abbreviation drawn_piece :=
  (drawn_piece fuel W H boat_pos boat_box centered s).
Local Abbreviation drawn_pieces :=
  (drawn_pieces fuel W H boat_pos boat_box centered s).
Local Abbreviation bucket_run :=
  (bucket_run fuel W H boat_pos boat_box centered mean_scale s).
Local Abbreviation buckets_run :=
  (buckets_run fuel W H boat_pos boat_box centered mean_scale s).
Local Abbreviation n_target := (n_target W H mean_scale).
Local Abbreviation mass_target := (mass_target W H mean_scale).

Lemma draw_pos_run c :
  draw_pos W H centered s c
  = Ok (pos_at (py_pos c), mkCursor (S (S (py_pos c))) (np_pos c)).
Proof. reflexivity. Qed.

Lemma draw_size_run sc c :
  draw_size sc s c = Ok (size_at s sc (py_pos c), py_next c).
Proof. reflexivity. Qed.

(** The rejection loop: [r] candidates rejected, the next one kept. *)
Lemma redraw_Ok k : forall j c pos' c',
  py_pos c = (j + 2)%nat ->
  redraw W H boat_pos boat_box centered k (pos_at j) s c = Ok (pos', c') ->
  exists r, (r <= k)%nat /\
    (forall i, (i < r)%nat -> in_boat (pos_at (j + 2 * i)) = true) /\
    in_boat (pos_at (j + 2 * r)) = false /\
    pos' = pos_at (j + 2 * r) /\
    py_pos c' = (j + 2 * r + 2)%nat /\ np_pos c' = np_pos c.
Proof.
  induction k as [|k IH]; intros j c pos' c' Hc; cbn [redraw];
    destruct (in_boat (pos_at j)) eqn:Hin.
  - discriminate.
  - intros Hr. apply ret_Ok in Hr as [<- <-]. exists O.
    rewrite Nat.mul_0_r, !Nat.add_0_r. repeat split; auto; intros; lia.
  - rewrite bind_run with (1 := draw_pos_run c). rewrite Hc.
    intros Hr. apply IH in Hr; [|simpl; lia].
    destruct Hr as (r & Hle & Hrej & Hacc & -> & Hpy & Hnp).
    exists (S r). replace (j + 2 * S r)%nat with (j + 2 + 2 * r)%nat by lia.
    repeat split; auto; try lia.
    intros [|i] Hi.
    + now rewrite Nat.mul_0_r, Nat.add_0_r.
    + replace (j + 2 * S i)%nat with (j + 2 + 2 * i)%nat by lia.
      apply Hrej. lia.
  - intros Hr. apply ret_Ok in Hr as [<- <-]. exists O.
    rewrite Nat.mul_0_r, !Nat.add_0_r. repeat split; auto; intros; lia.
Qed.

Lemma materials_of_Ok sc pt c materials c' :
  materials_of sc pt s c = Ok (materials, c') ->
  c' = c /\ exists row,
    dict_get SizeClass.eqb plastic_materials sc = Some row /\
    dict_get PlasticType.eqb row pt = Some materials.
Proof.
  unfold materials_of. intros Hr.
  apply bind_Ok in Hr as (row & c1 & Hrow & Hr).
  apply getitem_Ok in Hrow as [Hrow <-].
  apply getitem_Ok in Hr as [Hm <-].
  split; [reflexivity|]. now exists row.
Qed.

Lemma draw_density_Ok sc pt c d c' :
  draw_density sc pt s c = Ok (d, c') ->
  is_density_of sc pt d /\ c' = np_next c.
Proof.
  unfold draw_density. intros Hr.
  apply bind_Ok in Hr as (materials & c1 & Hm & Hr).
  apply materials_of_Ok in Hm as [-> (row & Hrow & Hm)].
  destruct (Reqb _ 0); [discriminate|].
  apply bind_Ok in Hr as (material & c2 & Hch & Hr).
  apply np_random_choice_Ok in Hch as (_ & -> & Hnth).
  apply getitem_Ok in Hr as [Hd <-].
  split; [|reflexivity].
  exists row, materials, material. repeat split; auto.
  eapply nth_error_In; eauto.
Qed.

Lemma draw_piece_Ok sc pt c t c' :
  draw_piece fuel W H boat_pos boat_box centered sc pt s c = Ok (t, c') ->
  exists r, drawn_piece sc pt (py_pos c) r t /\
    py_pos c' = (py_pos c + 2 * r + 3)%nat /\ np_pos c' = S (np_pos c).
Proof.
  unfold draw_piece. rewrite bind_run with (1 := draw_pos_run c).
  intros Hr. apply bind_Ok in Hr as (pos & c1 & Hpos & Hr).
  apply redraw_Ok in Hpos; [|simpl; lia].
  destruct Hpos as (r & Hle & Hrej & Hacc & -> & Hpy & Hnp).
  rewrite bind_run with (1 := draw_size_run sc c1) in Hr.
  apply bind_Ok in Hr as (d & c2 & Hd & Hr).
  apply draw_density_Ok in Hd as [Hd ->].
  apply ret_Ok in Hr as [<- <-]. simpl in *.
  exists r. split; [|split; [lia | congruence]].
  repeat split; auto. exists d. split; [assumption|].
  rewrite Hpy. reflexivity.
Qed.

Lemma draw_pieces_Ok sc pt n : forall pieces acc c pieces' acc' c',
  draw_pieces fuel W H boat_pos boat_box centered sc pt n pieces acc s c
  = Ok ((pieces', acc'), c') ->
  exists raw, pieces' = pieces ++ raw /\ length raw = n /\
    acc' = acc + total_weight raw /\
    drawn_pieces sc pt (py_pos c) (py_pos c') raw /\
    np_pos c' = (np_pos c + n)%nat.
Proof.
  induction n as [|n IH]; intros pieces acc c pieces' acc' c';
    cbn [draw_pieces].
  - intros Hr. apply ret_Ok in Hr as [[= <- <-] <-]. exists [].
    rewrite app_nil_r, Nat.add_0_r. unfold total_weight, Rsum. simpl.
    repeat split; auto; [lra | constructor].
  - intros Hr. apply bind_Ok in Hr as (t & c1 & Ht & Hr).
    apply draw_piece_Ok in Ht as (r & Ht & Hpy & Hnp).
    apply IH in Hr as (raw & -> & Hlen & -> & Hraw & Hnp').
    exists (t :: raw). rewrite <- app_assoc. cbn [app length].
    split; [reflexivity|]. split; [lia|]. split.
    { unfold total_weight, Rsum. cbn [map fold_right]. unfold weight. lra. }
    split; [|lia].
    econstructor; eauto. now rewrite <- Hpy.
Qed.

Lemma Zceil_Zfloor_integer (v : R) :
  IZR (Zfloor v) = v -> Zceil v = Zfloor v.
Proof. intros Hv. apply Zceil_eq. rewrite Hv. lra. Qed.

Lemma Zceil_Zfloor_succ (v : R) :
  IZR (Zfloor v) < v -> Zceil v = (Zfloor v + 1)%Z.
Proof.
  intros Hv. apply Zceil_eq. rewrite plus_IZR.
  pose proof (Zfloor_bound v). lra.
Qed.

(** One bucket: either skipped, or a rounded count of particles appended
    and then given their masses. *)
Lemma bucket_Ok sc pt pieces c pieces' c' :
  bucket fuel W H boat_pos boat_box centered mean_scale sc pt pieces s c
  = Ok (pieces', c') ->
  exists seg, pieces' = pieces ++ seg /\ bucket_run sc pt c c' seg.
Proof.
  unfold bucket.
  change (mean_scale * snd (mean_plastic_concentration sc pt)
          * (W / 1000) * (H / 1000)) with (n_target sc pt).
  change (mean_scale * fst (mean_plastic_concentration sc pt)
          * (W / 1000) * (H / 1000)) with (mass_target sc pt).
  set (nT := n_target sc pt). set (mT := mass_target sc pt).
  destruct (Rltb 0 nT) eqn:Hpos.
  - apply Rltb_true in Hpos. intros Hr.
    apply bind_Ok in Hr as (avg & c0 & Havg & Hr).
    apply truediv_Ok in Havg as (_ & -> & <-).
    apply bind_Ok in Hr as (n & c1 & Hn & Hr).
    apply np_random_choice_Ok in Hn as (Hsum & -> & Hnth).
    unfold Rsum in Hsum. cbn [fold_right] in Hsum.
    pose proof (Zfloor_bound nT) as Hfl.
    assert (Hfrac : IZR (Zfloor nT) < nT).
    { destruct (Req_dec_T (IZR (Zfloor nT)) nT) as [Heq|Hne]; [|lra].
      rewrite (Zceil_Zfloor_integer _ Heq) in Hsum. lra. }
    assert (Hpq : 1 - (nT - IZR (Zfloor nT))
                  + (1 - (IZR (Zceil nT) - nT)) = 1) by lra.
    assert (Hu : np_random s (np_pos c) < 1).
    { destruct (Rlt_dec (np_random s (np_pos c)) 1) as [Hlt|Hge];
        [assumption|].
      assert (Hq : 0 <= 1 - (IZR (Zceil nT) - nT))
        by (rewrite Zceil_Zfloor_succ, plus_IZR by assumption; lra).
      rewrite choice_index_two_ge in Hnth by (assumption || lra).
      discriminate. }
    rewrite choice_index_two in Hnth by assumption.
    apply bind_Ok in Hr as ([pieces1 acc] & c2 & Hdraw & Hr).
    apply draw_pieces_Ok in Hdraw
      as (raw & -> & Hlen & -> & Hraw & Hnp).
    replace (length (pieces ++ raw) - Z.to_nat n)%nat
      with (length pieces) in Hr by (rewrite length_app; lia).
    rewrite <- Hlen in Hr.
    pose proof (assign_mass_slice (mT / nT * IZR n) (0 + total_weight raw)
                  s c2 raw pieces []) as Hassign.
    rewrite !app_nil_r in Hassign. rewrite Hassign in Hr.
    injection Hr as <- <-.
    exists (map (with_mass (mT / nT * IZR n) (total_weight raw)) raw).
    split; [now rewrite Rplus_0_l|].
    eapply bucket_filled with (n := n) (raw := raw); eauto.
    + fold nT. destruct (Rltb (np_random s (np_pos c)) _);
        cbn [nth_error] in Hnth; congruence.
    + cbn [np_next np_pos] in Hnp. lia.
  - apply Rltb_false in Hpos. intros Hr.
    apply ret_Ok in Hr as [<- <-]. exists []. rewrite app_nil_r.
    split; [reflexivity|]. now apply bucket_skipped.
Qed.

Lemma buckets_run_app bs1 bs2 c c1 c2 segs1 segs2 :
  buckets_run bs1 c c1 segs1 -> buckets_run bs2 c1 c2 segs2 ->
  buckets_run (bs1 ++ bs2) c c2 (segs1 ++ segs2).
Proof.
  induction 1 as [|sc pt bs c c1 c1' seg segs Hb Hbs IH]; intros H2;
    [assumption|].
  cbn [app]. econstructor; eauto.
Qed.

Lemma plastic_type_loop_Ok sc pts : forall pieces c pieces' c',
  plastic_type_loop fuel W H boat_pos boat_box centered mean_scale
                    sc pts pieces s c = Ok (pieces', c') ->
  exists segs, pieces' = pieces ++ concat segs /\
    buckets_run (map (pair sc) pts) c c' segs.
Proof.
  induction pts as [|pt pts IH]; intros pieces c pieces' c';
    cbn [plastic_type_loop].
  - intros Hr. apply ret_Ok in Hr as [<- <-]. exists [].
    cbn [concat]. rewrite app_nil_r. split; [reflexivity|constructor].
  - intros Hr. apply bind_Ok in Hr as (pieces1 & c1 & Hb & Hr).
    apply bucket_Ok in Hb as (seg & -> & Hb).
    apply IH in Hr as (segs & -> & Hbs).
    exists (seg :: segs). cbn [concat map]. rewrite app_assoc.
    split; [reflexivity|]. econstructor; eauto.
Qed.

Lemma size_class_loop_Ok rel : forall pieces c pieces' c',
  size_class_loop fuel W H boat_pos boat_box centered mean_scale
                  rel pieces s c = Ok (pieces', c') ->
  exists segs, pieces' = pieces ++ concat segs /\
    buckets_run (buckets rel) c c' segs.
Proof.
  induction rel as [|sc rel IH]; intros pieces c pieces' c';
    cbn [size_class_loop].
  - intros Hr. apply ret_Ok in Hr as [<- <-]. exists [].
    cbn [concat]. rewrite app_nil_r. split; [reflexivity|constructor].
  - intros Hr. apply bind_Ok in Hr as (pieces1 & c1 & Hp & Hr).
    apply plastic_type_loop_Ok in Hp as (segs1 & -> & Hb1).
    apply IH in Hr as (segs2 & -> & Hb2).
    exists (segs1 ++ segs2). rewrite concat_app, app_assoc.
    split; [reflexivity|].
    unfold buckets. cbn [flat_map]. eapply buckets_run_app; eauto.
Qed.

(** Every successful run of the sampling path is a sequence of bucket
    segments, in the order of the loops. *)
Lemma generate_trash_Ok rel c pieces c' :
  generate_trash fuel W H boat_pos boat_box centered mean_scale rel false
                 s c = Ok (pieces, c') ->
  exists segs, pieces = concat segs /\ buckets_run (buckets rel) c c' segs.
Proof.
  unfold generate_trash. intros Hr.
  apply size_class_loop_Ok in Hr as (segs & -> & Hb). now exists segs.
Qed.

End SamplingRuns.

(** ** Facts read off the tables *)

Lemma material_density_pos (material : string) (d : R) :
  dict_get String.eqb material_densities material = Some d -> 0 < d.
Proof.
  unfold material_densities. cbn [dict_get].
  repeat (match goal with
          | |- context [String.eqb ?a ?b] => destruct (String.eqb a b)
          end; [intros [= <-]; lra|]).
  discriminate.
Qed.

Lemma is_density_of_pos sc pt d : is_density_of sc pt d -> 0 < d.
Proof.
  intros (row & materials & material & _ & _ & _ & Hd).
  eapply material_density_pos; eauto.
Qed.

Lemma concentration_nonneg sc pt :
  0 <= fst (mean_plastic_concentration sc pt) /\
  0 <= snd (mean_plastic_concentration sc pt).
Proof. destruct sc, pt; cbn [mean_plastic_concentration fst snd]; lra. Qed.

(** Wherever there are pieces there is mass. *)
Lemma concentration_mass_pos sc pt :
  0 < snd (mean_plastic_concentration sc pt) ->
  0 < fst (mean_plastic_concentration sc pt).
Proof. destruct sc, pt; cbn [mean_plastic_concentration fst snd]; lra. Qed.

Lemma size_ranges_pos sc :
  0 < fst (size_ranges sc) < snd (size_ranges sc).
Proof. destruct sc; cbn [size_ranges fst snd]; lra. Qed.

Lemma targets_pos W H mean_scale sc pt :
  0 < n_target W H mean_scale sc pt ->
  0 < mass_target W H mean_scale sc pt / n_target W H mean_scale sc pt.
Proof.
  unfold n_target, mass_target. intros Hn.
  destruct (concentration_nonneg sc pt) as [_ Hc].
  set (a := mean_scale * (W / 1000) * (H / 1000)).
  set (cnt := snd (mean_plastic_concentration sc pt)) in *.
  set (m := fst (mean_plastic_concentration sc pt)).
  assert (Hn' : 0 < cnt * a) by (unfold a; lra).
  assert (Hcnt : 0 < cnt).
  { destruct Hc as [Hc|Hc]; [assumption|]. rewrite <- Hc in Hn'. lra. }
  assert (Ha : 0 < a).
  { apply Rmult_lt_reg_l with cnt; [assumption|]. lra. }
  assert (Hm : 0 < m) by (apply concentration_mass_pos; assumption).
  replace (mean_scale * m * (W / 1000) * (H / 1000)) with (m * a)
    by (unfold a; ring).
  apply Rdiv_lt_0_compat; [|assumption].
  apply Rmult_lt_0_compat; assumption.
Qed.

(** ** The weights and masses of a segment *)

Lemma weight_with_mass target proportion t :
  weight (with_mass target proportion t) = weight t.
Proof. reflexivity. Qed.

Lemma total_weight_with_mass target proportion raw :
  total_weight (map (with_mass target proportion) raw) = total_weight raw.
Proof.
  unfold total_weight. rewrite map_map. reflexivity.
Qed.

Lemma total_mass_with_mass target proportion raw :
  total_mass (map (with_mass target proportion) raw)
  = target * total_weight raw / proportion.
Proof.
  unfold total_mass, total_weight, Rsum.
  induction raw as [|t raw IH]; cbn [map fold_right].
  - lra.
  - rewrite IH. cbn [with_mass Trash.set_mass Trash.mass]. lra.
Qed.

Lemma total_weight_pos raw :
  raw <> [] -> Forall (fun t => 0 < weight t) raw -> 0 < total_weight raw.
Proof.
  unfold total_weight, Rsum.
  induction 2 as [|t raw Ht Hraw IH]; [congruence|].
  cbn [map fold_right]. destruct raw as [|t' raw].
  - cbn [map fold_right]. lra.
  - assert (0 < fold_right Rplus 0 (map weight (t' :: raw)))
      by (apply IH; discriminate).
    lra.
Qed.

(** ** What a successful run says about each particle and each bucket *)

Section RunFacts.

Variable fuel : nat.
Variables W H : R.
Variables boat_pos boat_box : R * R.
Variable centered : bool.
Variable mean_scale : R.
Variable s : source.

Local Abbreviation drawn_piece :=
  (drawn_piece fuel W H boat_pos boat_box centered s).
Local Abbreviation drawn_pieces :=
  (drawn_pieces fuel W H boat_pos boat_box centered s).
Local Abbreviation bucket_run :=
  (bucket_run fuel W H boat_pos boat_box centered mean_scale s).
Local Abbreviation buckets_run :=
  (buckets_run fuel W H boat_pos boat_box centered mean_scale s).
Local Abbreviation n_target := (n_target W H mean_scale).
Local Abbreviation mass_target := (mass_target W H mean_scale).

Lemma drawn_pieces_le sc pt lo hi raw :
  drawn_pieces sc pt lo hi raw -> (lo <= hi)%nat.
Proof. induction 1; lia. Qed.

Lemma drawn_pieces_Forall sc pt lo hi raw :
  drawn_pieces sc pt lo hi raw ->
  Forall (fun t => exists lo' r, (lo <= lo')%nat /\
                     (lo' + 2 * r + 3 <= hi)%nat /\
                     drawn_piece sc pt lo' r t) raw.
Proof.
  induction 1 as [|lo r t hi rest Ht Hrest IH]; constructor.
  - exists lo, r. apply drawn_pieces_le in Hrest.
    split; [lia|]. split; [lia|assumption].
  - eapply Forall_impl; [|exact IH].
    intros t' (lo' & r' & Hlo & Hhi & Ht').
    exists lo', r'. split; [lia|]. split; [lia|assumption].
Qed.

Lemma size_at_pos sc i : 0 < size_at s sc i.
Proof.
  unfold size_at, Rpower. pose proof (exp_pos (log_size_at s sc i * ln 10)).
  lra.
Qed.

Lemma drawn_piece_weight_pos sc pt lo r t :
  drawn_piece sc pt lo r t -> 0 < weight t.
Proof.
  intros (_ & _ & _ & d & Hd & ->). unfold weight.
  cbn [Trash.density Trash.size].
  apply is_density_of_pos in Hd.
  pose proof (size_at_pos sc (lo + 2 * r + 2)) as Hs.
  apply Rmult_lt_0_compat; [assumption|]. now apply pow_lt.
Qed.

Lemma drawn_piece_bucket sc pt lo r t :
  drawn_piece sc pt lo r t ->
  Trash.size_class t = sc /\ Trash.plastic_type t = pt.
Proof. intros (_ & _ & _ & d & _ & ->). now split. Qed.

(** A fact about single buckets holds of every segment of a run. *)
Lemma buckets_run_Forall2
  (Q : SizeClass.t * PlasticType.t -> list Trash.t -> Prop) :
  (forall sc pt c c' seg, bucket_run sc pt c c' seg -> Q (sc, pt) seg) ->
  forall bs c c' segs, buckets_run bs c c' segs -> Forall2 Q bs segs.
Proof.
  intros HQ. induction 1; constructor; eauto.
Qed.

End RunFacts.

(** ** C1: the second pass *)

Lemma bucket_run_masses_assigned fuel W H boat_pos boat_box centered
  mean_scale s sc pt c c' seg :
  bucket_run fuel W H boat_pos boat_box centered mean_scale s sc pt c c' seg
  -> masses_assigned W H mean_scale (sc, pt) seg.
Proof.
  intros [Hn -> _ | n raw Hpos Hfrac Hu Hn Hlen Hraw Hnp ->];
    [left; now split | right].
  cbn [fst snd]. split; [assumption|]. exists n.
  set (nT := n_target W H mean_scale sc pt) in *.
  set (avg := mass_target W H mean_scale sc pt / nT).
  assert (Havg : 0 < avg) by (apply targets_pos; assumption).
  split; [destruct (Rltb _ _) in Hn; auto|].
  split; [now rewrite length_map|].
  change (Rsum (map (fun t => Trash.density t * Trash.size t ^ 3) ?l))
    with (total_weight l).
  change (Rsum (map Trash.mass ?l)) with (total_mass l).
  rewrite total_weight_with_mass, total_mass_with_mass.
  pose proof (drawn_pieces_Forall _ _ _ _ _ _ _ _ _ _ _ _ Hraw) as Hall.
  assert (Hw : Forall (fun t => 0 < weight t) raw).
  { eapply Forall_impl; [|exact Hall].
    intros t (lo & r & _ & _ & Ht).
    eapply drawn_piece_weight_pos; eauto. }
  destruct raw as [|t0 raw0] eqn:Eraw.
  - split; [constructor|]. cbn [length] in Hlen.
    assert (Hn0 : (n <= 0)%Z) by lia.
    assert (Hfl : (0 <= Zfloor nT)%Z) by (apply Zfloor_lub; simpl; lra).
    assert (Hce : (0 <= Zceil nT)%Z).
    { rewrite Zceil_Zfloor_succ by assumption. lia. }
    assert (n = 0%Z) as -> by (destruct (Rltb _ _) in Hn; lia).
    unfold total_weight, Rsum. cbn [map fold_right]. lra.
  - rewrite <- Eraw in *.
    assert (Htw : 0 < total_weight raw)
      by (apply total_weight_pos; [congruence | assumption]).
    assert (Hn1 : 1 <= IZR n).
    { apply IZR_le. rewrite Eraw in Hlen. cbn [length] in Hlen. lia. }
    assert (HT : 0 < avg * IZR n) by (apply Rmult_lt_0_compat; lra).
    split; [|field; lra].
    rewrite Forall_map. rewrite Forall_forall in Hall, Hw |- *.
    intros t Hin. destruct (Hall t Hin) as (lo & r & _ & _ & Ht).
    apply drawn_piece_bucket in Ht as [Hsc Hpt].
    specialize (Hw t Hin).
    cbn [with_mass Trash.set_mass Trash.mass Trash.size_class
         Trash.plastic_type Trash.density Trash.size].
    repeat split; auto.
    fold (weight t). apply Rdiv_lt_0_compat; [|assumption].
    apply Rmult_lt_0_compat; assumption.
Qed.

(** C1.  Whenever the sampling path of [generate_trash] returns, its output
    is the concatenation of one segment per visited bucket, and in every
    segment the masses are those of the second pass over exactly that
    segment: [mass = totalMassTarget * (density * size^3) / totalWeight] with
    [totalWeight] summed over the segment and
    [totalMassTarget = avgMassPerPiece * n]; each mass is positive and the
    masses of the segment sum to [totalMassTarget] (exactly, in real
    arithmetic). *)
Theorem C1_second_pass_conserves_bucket_mass
  fuel W H boat_pos boat_box centered mean_scale relevant_size_classes
  s c pieces c' :
  generate_trash fuel W H boat_pos boat_box centered mean_scale
                 relevant_size_classes false s c = Ok (pieces, c') ->
  exists segs,
    pieces = concat segs /\
    Forall2 (masses_assigned W H mean_scale)
            (buckets relevant_size_classes) segs.
Proof.
  intros Hrun. apply generate_trash_Ok in Hrun as (segs & -> & Hruns).
  exists segs. split; [reflexivity|].
  eapply buckets_run_Forall2; [|exact Hruns].
  intros sc pt c0 c1 seg. apply bucket_run_masses_assigned.
Qed.

(** ** Running the sampling path forward *)

(** Decide the comparisons of concrete numbers that occur in a goal. *)
Ltac Rltb_decide :=
  repeat match goal with
  | |- context [Rltb ?a ?b] =>
      first
        [ replace (Rltb a b) with true
            by (symmetry; apply Rltb_true; lra)
        | replace (Rltb a b) with false
            by (symmetry; apply Rltb_false; lra) ]
  | |- context [Reqb ?a ?b] =>
      first
        [ replace (Reqb a b) with true
            by (symmetry; apply Reqb_true; lra)
        | replace (Reqb a b) with false
            by (symmetry; apply Reqb_false; lra) ]
  end.

Section SamplingProgress.

Variable fuel : nat.
Variables W H : R.
Variables boat_pos boat_box : R * R.
Variable centered : bool.
Variable mean_scale : R.
Variable s : source.

Local Abbreviation pos_at := (pos_at W H centered s).
Local Abbreviation in_boat := (in_boat boat_pos boat_box).
Local Abbreviation n_target := (n_target W H mean_scale).
Local Abbreviation mass_target := (mass_target W H mean_scale).

(** [r] rejected candidates, then one that is kept: the loop returns it,
    provided the fuel covers the [r] redraws. *)
Lemma redraw_run k : forall r j np,
  (r <= k)%nat ->
  (forall i, (i < r)%nat -> in_boat (pos_at (j + 2 * i)) = true) ->
  in_boat (pos_at (j + 2 * r)) = false ->
  redraw W H boat_pos boat_box centered k (pos_at j) s
         (mkCursor (j + 2) np)
  = Ok (pos_at (j + 2 * r), mkCursor (j + 2 * r + 2) np).
Proof.
  induction k as [|k IH]; intros r j np Hle Hrej Hacc; cbn [redraw].
  - assert (r = O) as -> by lia.
    rewrite Nat.mul_0_r, !Nat.add_0_r in *. now rewrite Hacc.
  - destruct r as [|r].
    + rewrite Nat.mul_0_r, !Nat.add_0_r in *. now rewrite Hacc.
    + assert (Hj : in_boat (pos_at j) = true).
      { specialize (Hrej O). rewrite Nat.mul_0_r, Nat.add_0_r in Hrej.
        apply Hrej. lia. }
      rewrite Hj.
      rewrite bind_run with (1 := draw_pos_run W H centered s _).
      cbn [py_pos np_pos].
      replace (S (S (j + 2))) with (j + 2 + 2)%nat by lia.
      rewrite (IH r (j + 2)%nat np); try lia.
      * f_equal. f_equal; [f_equal; lia | f_equal; lia].
      * intros i Hi. replace (j + 2 + 2 * i)%nat
          with (j + 2 * S i)%nat by lia. apply Hrej. lia.
      * replace (j + 2 + 2 * r)%nat with (j + 2 * S r)%nat by lia.
        assumption.
Qed.

Lemma draw_piece_run sc pt r lo np d c' :
  (r <= fuel)%nat ->
  (forall i, (i < r)%nat -> in_boat (pos_at (lo + 2 * i)) = true) ->
  in_boat (pos_at (lo + 2 * r)) = false ->
  draw_density sc pt s (mkCursor (lo + 2 * r + 3) np) = Ok (d, c') ->
  draw_piece fuel W H boat_pos boat_box centered sc pt s (mkCursor lo np)
  = Ok (Trash.mk (fst (pos_at (lo + 2 * r))) (snd (pos_at (lo + 2 * r)))
                 (size_at s sc (lo + 2 * r + 2)) 0 d sc pt, c').
Proof.
  intros Hle Hrej Hacc Hd. unfold draw_piece.
  rewrite bind_run with (1 := draw_pos_run W H centered s _).
  cbn [py_pos np_pos]. replace (S (S lo)) with (lo + 2)%nat by lia.
  rewrite bind_run with (1 := redraw_run fuel r lo np Hle Hrej Hacc).
  rewrite bind_run with (1 := draw_size_run s sc _).
  unfold py_next. cbn [py_pos np_pos].
  replace (S (lo + 2 * r + 2)) with (lo + 2 * r + 3)%nat by lia.
  rewrite bind_run with (1 := Hd). reflexivity.
Qed.

Lemma bucket_skip sc pt pieces c :
  n_target sc pt <= 0 ->
  bucket fuel W H boat_pos boat_box centered mean_scale sc pt pieces s c
  = Ok (pieces, c).
Proof.
  intros Hn. unfold bucket.
  change (mean_scale * snd (mean_plastic_concentration sc pt)
          * (W / 1000) * (H / 1000)) with (n_target sc pt).
  apply Rltb_false in Hn. now rewrite Hn.
Qed.

Lemma bucket_fill sc pt pieces c raw acc c2 :
  let nT := n_target sc pt in
  let n := if Rltb (np_random s (np_pos c)) (1 - (nT - IZR (Zfloor nT)))
           then Zfloor nT else Zceil nT in
  0 < nT -> IZR (Zfloor nT) < nT -> np_random s (np_pos c) < 1 ->
  draw_pieces fuel W H boat_pos boat_box centered sc pt (Z.to_nat n)
              pieces 0 s (np_next c) = Ok ((pieces ++ raw, acc), c2) ->
  bucket fuel W H boat_pos boat_box centered mean_scale sc pt pieces s c
  = Ok (pieces ++ map (with_mass (mass_target sc pt / nT * IZR n) acc) raw,
        c2).
Proof.
  intros nT n Hpos Hfrac Hu Hdraw. unfold bucket.
  change (mean_scale * snd (mean_plastic_concentration sc pt)
          * (W / 1000) * (H / 1000)) with nT.
  change (mean_scale * fst (mean_plastic_concentration sc pt)
          * (W / 1000) * (H / 1000)) with (mass_target sc pt).
  assert (Rltb 0 nT = true) as -> by (now apply Rltb_true).
  rewrite bind_run with (1 := truediv_run _ nT s c ltac:(lra)).
  pose proof (Zfloor_bound nT) as Hfl.
  pose proof (Zceil_Zfloor_succ nT Hfrac) as Hce.
  assert (Hce' : IZR (Zceil nT) = IZR (Zfloor nT) + 1)
    by (now rewrite Hce, plus_IZR).
  rewrite bind_run
    with (1 := np_random_choice_two_run (Zfloor nT) (Zceil nT)
                 (1 - (nT - IZR (Zfloor nT)))
                 (1 - (IZR (Zceil nT) - nT)) s c
                 ltac:(lra) ltac:(lra) ltac:(lra) ltac:(lra)).
  fold n. rewrite bind_run with (1 := Hdraw).
  pose proof Hdraw as Hlen.
  apply draw_pieces_Ok in Hlen as (raw' & Happ & Hlen & _).
  apply app_inv_head in Happ. subst raw'.
  replace (length (pieces ++ raw) - Z.to_nat n)%nat with (length pieces)
    by (rewrite length_app; lia).
  rewrite <- Hlen.
  pose proof (assign_mass_slice (mass_target sc pt / nT * IZR n) acc
                s c2 raw pieces []) as Hassign.
  rewrite !app_nil_r in Hassign. exact Hassign.
Qed.

End SamplingProgress.

(** ** Powers of ten *)

Lemma ln_10_pos : 0 < ln 10.
Proof. rewrite <- ln_1. apply ln_increasing; lra. Qed.

Lemma Rpower_10_log10 (v : R) : 0 < v -> Rpower 10 (log10 v) = v.
Proof.
  intros Hv. unfold Rpower, log10. pose proof ln_10_pos.
  replace (ln v / ln 10 * ln 10) with (ln v) by (field; lra).
  now apply exp_ln.
Qed.

Lemma Rpower_10_lt (a b : R) : a < b -> Rpower 10 a < Rpower 10 b.
Proof. intros Hab. apply Rpower_lt; lra. Qed.

Lemma Rpower_10_le (a b : R) : a <= b -> Rpower 10 a <= Rpower 10 b.
Proof. intros Hab. apply Rle_Rpower; lra. Qed.

Lemma log10_lt (a b : R) : 0 < a -> a < b -> log10 a < log10 b.
Proof.
  intros Ha Hab. unfold log10. pose proof ln_10_pos.
  apply Rmult_lt_compat_r; [now apply Rinv_0_lt_compat|].
  now apply ln_increasing.
Qed.

Lemma bucket_eval fuel W H boat_pos boat_box centered mean_scale s
  sc pt pieces c (fl n : Z) raw acc c2 :
  let nT := n_target W H mean_scale sc pt in
  0 < nT -> IZR fl < nT < IZR fl + 1 -> np_random s (np_pos c) < 1 ->
  n = (if Rltb (np_random s (np_pos c)) (1 - (nT - IZR fl))
       then fl else (fl + 1)%Z) ->
  draw_pieces fuel W H boat_pos boat_box centered sc pt (Z.to_nat n)
              pieces 0 s (np_next c) = Ok ((pieces ++ raw, acc), c2) ->
  bucket fuel W H boat_pos boat_box centered mean_scale sc pt pieces s c
  = Ok (pieces ++ map (with_mass
                         (mass_target W H mean_scale sc pt / nT * IZR n) acc)
                      raw, c2).
Proof.
  intros nT Hpos Hfl Hu Hn Hdraw.
  assert (Efl : Zfloor nT = fl) by (apply Zfloor_eq; lra).
  assert (Hfrac : IZR (Zfloor nT) < nT) by (rewrite Efl; lra).
  pose proof (bucket_fill fuel W H boat_pos boat_box centered mean_scale s
                sc pt pieces c raw acc c2) as Hfill.
  cbv zeta in Hfill. fold nT in Hfill.
  rewrite (Zceil_Zfloor_succ nT Hfrac), Efl, <- Hn in Hfill.
  apply Hfill; solve [assumption | lra].
Qed.

Lemma demo_density c :
  np_pos c = 2%nat ->
  draw_density SizeClass.MEGA PlasticType.N demo_source c
  = Ok (900.5, np_next c).
Proof.
  intros Hnp. unfold draw_density, materials_of.
  cbv beta iota delta [bind ret getitem dict_get plastic_materials
                       SizeClass.eqb PlasticType.eqb map fst snd Rsum
                       fold_right].
  Rltb_decide. cbv iota.
  rewrite np_random_choice_two_run; try lra.
  - rewrite Hnp. cbn [demo_source np_random]. Rltb_decide. reflexivity.
  - rewrite Hnp. cbn [demo_source np_random]. lra.
Qed.

Lemma demo_in_boat_0 :
  in_boat (0, 0) (10, 10) (pos_at 1000 100 false demo_source 0) = true.
Proof.
  unfold in_boat, pos_at, pos_range. cbn [fst snd demo_source py_random].
  Rltb_decide. reflexivity.
Qed.

Lemma demo_in_boat_2 :
  in_boat (0, 0) (10, 10) (pos_at 1000 100 false demo_source 2) = false.
Proof.
  unfold in_boat, pos_at, pos_range. cbn [fst snd demo_source py_random].
  Rltb_decide. reflexivity.
Qed.

Lemma demo_run :
  generate_trash 1 1000 100 (0, 0) (10, 10) false 1 [SizeClass.MEGA] false
                 demo_source (mkCursor 0 0)
  = Ok ([demo_piece], mkCursor 5 3).
Proof.
  unfold generate_trash.
  cbn [size_class_loop plastic_type_loop PlasticType.members].
  (* MEGA/H: 0.03 rounds down to 0 *)
  erewrite bind_run.
  2:{ erewrite bind_run.
      2:{ apply bucket_eval with (fl := 0%Z) (n := 0%Z) (raw := []) (acc := 0).
          - unfold n_target. cbn [mean_plastic_concentration snd]. lra.
          - unfold n_target. cbn [mean_plastic_concentration snd]. lra.
          - cbn [demo_source np_random np_pos]. lra.
          - unfold n_target.
            cbn [mean_plastic_concentration snd demo_source np_random np_pos].
            Rltb_decide. reflexivity.
          - reflexivity. }
      cbn [app map].
      (* MEGA/N: 0.33 rounds up to 1 *)
      erewrite bind_run.
      2:{ apply bucket_eval with (fl := 0%Z) (n := 1%Z).
          - unfold n_target. cbn [mean_plastic_concentration snd]. lra.
          - unfold n_target. cbn [mean_plastic_concentration snd]. lra.
          - cbn [demo_source np_random np_pos np_next]. lra.
          - unfold n_target.
            cbn [mean_plastic_concentration snd demo_source np_random np_pos
                 np_next].
            Rltb_decide. reflexivity.
          - change (Z.to_nat 1) with 1%nat. cbn [draw_pieces].
            erewrite bind_run.
            2:{ apply draw_piece_run with (r := 1%nat) (lo := 0%nat).
                - lia.
                - intros i Hi. assert (i = 0%nat) as -> by lia.
                  exact demo_in_boat_0.
                - exact demo_in_boat_2.
                - apply demo_density. reflexivity. }
            reflexivity. }
      cbn [app map].
      erewrite bind_run.
      2:{ apply bucket_skip. unfold n_target.
          cbn [mean_plastic_concentration snd]. lra. }
      erewrite bind_run.
      2:{ apply bucket_skip. unfold n_target.
          cbn [mean_plastic_concentration snd]. lra. }
      reflexivity. }
  unfold ret. f_equal. f_equal. f_equal.
  unfold with_mass, weight, Trash.set_mass, demo_piece.
  cbn [Trash.x Trash.y Trash.size Trash.mass Trash.density Trash.size_class
       Trash.plastic_type Nat.add Nat.mul].
  assert (Hsize : size_at demo_source SizeClass.MEGA 4 = 0.5).
  { unfold size_at, log_size_at.
    cbn [demo_source py_random size_ranges fst snd].
    rewrite Rmult_0_r, Rplus_0_r, Rpower_10_log10 by lra. lra. }
  rewrite Hsize.
  unfold pos_at, pos_range, mass_target, n_target.
  cbn [demo_source py_random fst snd mean_plastic_concentration].
  f_equal; lra.
Qed.

Lemma C1_witness :
  generate_trash 1 1000 100 (0, 0) (10, 10) false 1 [SizeClass.MEGA] false
                 demo_source (mkCursor 0 0)
  = Ok ([demo_piece], mkCursor 5 3) /\
  exists segs,
    [demo_piece] = concat segs /\
    Forall2 (masses_assigned 1000 100 1) (buckets [SizeClass.MEGA]) segs.
Proof.
  split; [exact demo_run|].
  apply (C1_second_pass_conserves_bucket_mass
           1 1000 100 (0, 0) (10, 10) false 1 [SizeClass.MEGA]
           demo_source (mkCursor 0 0) [demo_piece] (mkCursor 5 3)).
  exact demo_run.
Defined.

(** ** C2: the rounding of the particle count *)

Lemma bind_raise {A B} (m : M A) (k : A -> M B) s c e :
  m s c = Raise e -> bind m k s c = Raise e.
Proof. unfold bind. now intros ->. Qed.

(** For a target that is not an integer the two weights are
    [(1 - frac, frac)] and the expected count is the target. *)
Lemma rounding_weights (nT : R) :
  IZR (Zfloor nT) < nT ->
  let frac := nT - IZR (Zfloor nT) in
  1 - (nT - IZR (Zfloor nT)) = 1 - frac /\
  1 - (IZR (Zceil nT) - nT) = frac /\
  (1 - frac) * IZR (Zfloor nT) + frac * IZR (Zceil nT) = nT.
Proof.
  intros Hfrac frac. rewrite (Zceil_Zfloor_succ nT Hfrac), plus_IZR.
  unfold frac. repeat split; ring.
Qed.

(** In a successful run the count of a bucket with a positive target is the
    floor when the uniform value is below [1 - frac], the ceiling
    otherwise; such a target is never an integer. *)
Lemma rounding_in_successful_run fuel W H boat_pos boat_box centered
  mean_scale s sc pt c c' seg :
  bucket_run fuel W H boat_pos boat_box centered mean_scale s sc pt c c' seg
  -> let nT := n_target W H mean_scale sc pt in
     0 < nT ->
     IZR (Zfloor nT) < nT /\
     length seg
     = Z.to_nat (if Rltb (np_random s (np_pos c))
                         (1 - (nT - IZR (Zfloor nT)))
                 then Zfloor nT else Zceil nT).
Proof.
  intros [Hn _ _ | n raw Hpos Hfrac Hu Hn Hlen Hraw Hnp ->] nT HnT.
  - unfold nT in HnT. lra.
  - split; [assumption|]. rewrite length_map, Hlen, Hn. reflexivity.
Qed.

(** A positive integer target makes both weights 1; NumPy rejects weights
    that sum to 2. *)
Lemma bucket_integer_target fuel W H boat_pos boat_box centered mean_scale
  s sc pt pieces c :
  let nT := n_target W H mean_scale sc pt in
  0 < nT -> IZR (Zfloor nT) = nT ->
  bucket fuel W H boat_pos boat_box centered mean_scale sc pt pieces s c
  = Raise ValueError.
Proof.
  intros nT Hpos Hint. unfold bucket.
  change (mean_scale * snd (mean_plastic_concentration sc pt)
          * (W / 1000) * (H / 1000)) with nT.
  assert (Rltb 0 nT = true) as -> by (now apply Rltb_true).
  rewrite bind_run with (1 := truediv_run _ nT s c ltac:(lra)).
  apply bind_raise.
  rewrite (Zceil_Zfloor_integer nT Hint), Hint.
  apply np_random_choice_bad_sum.
  - unfold Rsum. cbn [fold_right]. lra.
  - reflexivity.
  - discriminate.
  - intros w [<-|[<-|[]]]; lra.
Qed.

(** C2 (the code departs from the specification).  On a square kilometre
    at [mean_scale = 1] the bucket MESO/H has the target count 20993, an
    integer.  The specification lets the draw yield 20993; the source
    passes the weights [(1, 1)] to [np.random.choice], which raises
    [ValueError] before any particle is produced, whatever the generators
    hold. *)
Theorem C2_integer_target_raises fuel s c :
  n_target 1000 1000 1 SizeClass.MESO PlasticType.H = 20993 /\
  Zfloor 20993 = 20993%Z /\ Zceil 20993 = 20993%Z /\
  generate_trash fuel 1000 1000 (0, 0) (0, 0) false 1 [SizeClass.MESO] false
                 s c = Raise ValueError.
Proof.
  assert (HnT : n_target 1000 1000 1 SizeClass.MESO PlasticType.H = 20993).
  { unfold n_target. cbn [mean_plastic_concentration snd]. lra. }
  assert (Hfl : Zfloor 20993 = 20993%Z) by apply ZfloorZ.
  repeat split; try assumption.
  - rewrite Zceil_Zfloor_integer; [assumption | now rewrite Hfl].
  - unfold generate_trash.
    cbn [size_class_loop plastic_type_loop PlasticType.members].
    apply bind_raise. apply bind_raise.
    apply bucket_integer_target; rewrite HnT; [lra | now rewrite Hfl].
Qed.

(** ** Every particle of a successful run *)

Lemma bucket_run_pieces fuel W H boat_pos boat_box centered mean_scale s
  sc pt c c' seg :
  bucket_run fuel W H boat_pos boat_box centered mean_scale s sc pt c c' seg
  -> Forall (finished_piece fuel W H boat_pos boat_box centered s) seg.
Proof.
  intros [_ -> _ | n raw _ _ _ _ _ Hraw _ ->]; [constructor|].
  apply drawn_pieces_Forall in Hraw. rewrite Forall_map.
  eapply Forall_impl; [|exact Hraw].
  intros t (lo & r & _ & _ & Ht). exists lo, r, t.
  destruct (drawn_piece_bucket _ _ _ _ _ _ _ _ _ _ _ _ Ht) as [<- <-].
  split; [assumption | reflexivity].
Qed.

Lemma buckets_run_pieces fuel W H boat_pos boat_box centered mean_scale s
  bs c c' segs :
  buckets_run fuel W H boat_pos boat_box centered mean_scale s bs c c' segs
  -> Forall (finished_piece fuel W H boat_pos boat_box centered s)
            (concat segs).
Proof.
  induction 1 as [|sc pt bs c c1 c2 seg segs Hb Hbs IH]; cbn [concat];
    [constructor|].
  apply Forall_app. split; [|assumption].
  eapply bucket_run_pieces; eauto.
Qed.

Lemma generate_trash_pieces fuel W H boat_pos boat_box centered mean_scale
  rel s c pieces c' :
  generate_trash fuel W H boat_pos boat_box centered mean_scale rel false
                 s c = Ok (pieces, c') ->
  Forall (finished_piece fuel W H boat_pos boat_box centered s) pieces.
Proof.
  intros Hrun. apply generate_trash_Ok in Hrun as (segs & -> & Hruns).
  eapply buckets_run_pieces; eauto.
Qed.

(** ** The loop test on exact reals *)

Lemma in_boat_spec boat_pos boat_box pos :
  in_boat boat_pos boat_box pos = true <->
  strictly_inside boat_pos boat_box pos.
Proof.
  unfold in_boat, strictly_inside.
  rewrite !andb_true_iff, !Rltb_true. tauto.
Qed.

Lemma in_boat_degenerate boat_pos boat_box pos :
  fst boat_box = 0 \/ snd boat_box = 0 ->
  in_boat boat_pos boat_box pos = false.
Proof.
  intros Hdeg. destruct (in_boat boat_pos boat_box pos) eqn:Hin;
    [|reflexivity].
  apply in_boat_spec in Hin. unfold strictly_inside in Hin.
  destruct Hdeg as [Hz|Hz]; rewrite Hz in Hin; lra.
Qed.

(** With no rejection, every particle costs exactly three values of
    [random]: x, y and the size. *)
Lemma drawn_pieces_no_reject fuel W H boat_pos boat_box centered s
  sc pt lo hi raw :
  (forall pos, in_boat boat_pos boat_box pos = false) ->
  drawn_pieces fuel W H boat_pos boat_box centered s sc pt lo hi raw ->
  hi = (lo + 3 * length raw)%nat.
Proof.
  intros Hfree. induction 1 as [|lo r t hi rest Ht Hrest IH]; [simpl; lia|].
  assert (r = O) as ->.
  { destruct r as [|r]; [reflexivity|].
    destruct Ht as (Hrej & _). specialize (Hrej O ltac:(lia)).
    rewrite Hfree in Hrej. discriminate. }
  cbn [length]. lia.
Qed.

Lemma buckets_run_no_reject fuel W H boat_pos boat_box centered mean_scale s
  bs c c' segs :
  (forall pos, in_boat boat_pos boat_box pos = false) ->
  buckets_run fuel W H boat_pos boat_box centered mean_scale s bs c c' segs
  -> py_pos c' = (py_pos c + 3 * length (concat segs))%nat.
Proof.
  intros Hfree.
  induction 1 as [|sc pt bs c c1 c2 seg segs Hb Hbs IH]; cbn [concat].
  - simpl. lia.
  - rewrite length_app, IH.
    destruct Hb as [_ -> -> | n raw _ _ _ _ _ Hraw _ ->].
    + simpl. lia.
    + apply drawn_pieces_no_reject in Hraw; [|assumption].
      rewrite length_map. lia.
Qed.

(** ** The size of a particle on exact reals *)

(** [random.uniform(a, b)] maps [0, 1) onto [a, b) when [a < b]. *)
Lemma uniform_range (a b r : R) :
  a < b -> 0 <= r < 1 -> a <= a + (b - a) * r < b.
Proof. intros Hab Hr. nra. Qed.

Lemma uniform_onto (a b u : R) :
  a < b -> a <= u < b -> exists r, 0 <= r < 1 /\ u = a + (b - a) * r.
Proof.
  intros Hab Hu. exists ((u - a) / (b - a)). split.
  - split.
    + unfold Rdiv. apply Rmult_le_pos; [lra|].
      left. apply Rinv_0_lt_compat. lra.
    + apply Rmult_lt_reg_r with (b - a); [lra|].
      unfold Rdiv. rewrite Rmult_assoc, Rinv_l by lra. lra.
  - field. lra.
Qed.

Lemma log_size_at_range s sc i :
  0 <= py_random s i < 1 ->
  log10 (fst (size_ranges sc)) <= log_size_at s sc i
  < log10 (snd (size_ranges sc)).
Proof.
  intros Hr. unfold log_size_at. apply uniform_range; [|assumption].
  destruct (size_ranges_pos sc). now apply log10_lt.
Qed.

Lemma size_at_range s sc i :
  0 <= py_random s i < 1 ->
  fst (size_ranges sc) / 100 <= size_at s sc i < snd (size_ranges sc) / 100.
Proof.
  intros Hr. destruct (log_size_at_range s sc i Hr) as [Hlo Hhi].
  destruct (size_ranges_pos sc) as [Hpos Hlt].
  apply Rpower_10_le in Hlo. apply Rpower_10_lt in Hhi.
  rewrite Rpower_10_log10 in Hlo, Hhi by lra.
  unfold size_at. lra.
Qed.

Lemma demo_source_unit_interval i : 0 <= py_random demo_source i < 1.
Proof.
  cbn [demo_source py_random].
  destruct i as [|[|[|[|i]]]]; lra.
Qed.

(** ** C10: the order of the output *)

Lemma StronglySorted_app {A} (R : A -> A -> Prop) (l1 l2 : list A) :
  StronglySorted R l1 -> StronglySorted R l2 ->
  (forall a b, In a l1 -> In b l2 -> R a b) ->
  StronglySorted R (l1 ++ l2).
Proof.
  induction 1 as [|a l1 Hl1 IH Ha]; intros Hl2 Hcross; [assumption|].
  cbn [app]. constructor.
  - apply IH; [assumption|]. intros x y Hx Hy. apply Hcross; [now right|auto].
  - apply Forall_app. split; [assumption|].
    apply Forall_forall. intros y Hy. apply Hcross; [now left|assumption].
Qed.

Lemma in_draw_order_nil W H centered s lo hi :
  (lo <= hi)%nat -> in_draw_order W H centered s lo hi [].
Proof.
  intros Hle. split; [assumption|]. exists [].
  repeat split; constructor.
Qed.

Lemma in_draw_order_app W H centered s lo mid hi l1 l2 :
  in_draw_order W H centered s lo mid l1 ->
  in_draw_order W H centered s mid hi l2 ->
  in_draw_order W H centered s lo hi (l1 ++ l2).
Proof.
  intros (Hle1 & js1 & Hm1 & Hs1 & Hb1) (Hle2 & js2 & Hm2 & Hs2 & Hb2).
  split; [lia|]. exists (js1 ++ js2). split; [|split].
  - now apply Forall2_app.
  - apply StronglySorted_app; try assumption.
    intros a b Ha Hb. rewrite Forall_forall in Hb1, Hb2.
    specialize (Hb1 a Ha). specialize (Hb2 b Hb). unfold later_draws. lia.
  - apply Forall_app. split.
    + eapply Forall_impl; [|exact Hb1]. cbv beta. intros; lia.
    + eapply Forall_impl; [|exact Hb2]. cbv beta. intros; lia.
Qed.

Lemma in_draw_order_with_mass W H centered s lo hi target proportion l :
  in_draw_order W H centered s lo hi l ->
  in_draw_order W H centered s lo hi (map (with_mass target proportion) l).
Proof.
  intros (Hle & js & Hm & Hs & Hb). split; [assumption|]. exists js.
  split; [|now split].
  clear Hs Hb. induction Hm as [|j t js l Hjt Hm IH]; constructor; auto.
Qed.

Lemma drawn_pieces_in_draw_order fuel W H boat_pos boat_box centered s
  sc pt lo hi raw :
  drawn_pieces fuel W H boat_pos boat_box centered s sc pt lo hi raw ->
  in_draw_order W H centered s lo hi raw.
Proof.
  induction 1 as [|lo r t hi rest Ht Hrest IH].
  - now apply in_draw_order_nil.
  - change (t :: rest) with ([t] ++ rest).
    eapply in_draw_order_app; [|exact IH].
    split; [lia|]. exists [(lo + 2 * r)%nat].
    destruct Ht as (_ & _ & _ & d & _ & ->).
    split; [|split].
    + constructor; [|constructor]. now repeat split.
    + repeat constructor.
    + constructor; [lia | constructor].
Qed.

Lemma buckets_run_in_draw_order fuel W H boat_pos boat_box centered
  mean_scale s bs c c' segs :
  buckets_run fuel W H boat_pos boat_box centered mean_scale s bs c c' segs
  -> in_draw_order W H centered s (py_pos c) (py_pos c') (concat segs).
Proof.
  induction 1 as [|sc pt bs c c1 c2 seg segs Hb Hbs IH]; cbn [concat].
  - now apply in_draw_order_nil.
  - eapply in_draw_order_app; [|exact IH].
    destruct Hb as [_ -> -> | n raw _ _ _ _ _ Hraw _ ->].
    + now apply in_draw_order_nil.
    + apply in_draw_order_with_mass.
      eapply drawn_pieces_in_draw_order; eauto.
Qed.

Lemma bucket_run_in_bucket fuel W H boat_pos boat_box centered mean_scale s
  sc pt c c' seg :
  bucket_run fuel W H boat_pos boat_box centered mean_scale s sc pt c c' seg
  -> Forall (in_bucket (sc, pt)) seg.
Proof.
  intros Hb. apply bucket_run_masses_assigned in Hb.
  destruct Hb as [[_ ->] | (_ & n & _ & _ & Hall & _)]; [constructor|].
  eapply Forall_impl; [|exact Hall].
  intros t (Hsc & Hpt & _). now split.
Qed.

(** C10.  The output of a successful run of the sampling path is the
    concatenation of one segment per bucket, the buckets taken in the order
    of [relevant_size_classes] and, within a size class, in the order
    H, N, P, F; all particles of a segment belong to its bucket; and along
    the whole output the particles are made from strictly later and later
    draws of [random], that is, they appear in the order they were drawn. *)
Theorem C10_output_grouped_in_loop_order
  fuel W H boat_pos boat_box centered mean_scale relevant_size_classes
  s c pieces c' :
  generate_trash fuel W H boat_pos boat_box centered mean_scale
                 relevant_size_classes false s c = Ok (pieces, c') ->
  buckets relevant_size_classes
  = flat_map (fun sc => [(sc, PlasticType.H); (sc, PlasticType.N);
                         (sc, PlasticType.P); (sc, PlasticType.F)])
             relevant_size_classes /\
  exists segs,
    pieces = concat segs /\
    Forall2 (fun b seg => Forall (in_bucket b) seg)
            (buckets relevant_size_classes) segs /\
    exists js,
      Forall2 (made_from_draws W H centered s) js pieces /\
      StronglySorted later_draws js.
Proof.
  intros Hrun. split; [reflexivity|].
  apply generate_trash_Ok in Hrun as (segs & -> & Hruns).
  exists segs. split; [reflexivity|]. split.
  - eapply buckets_run_Forall2; [|exact Hruns].
    intros sc pt c0 c1 seg. apply bucket_run_in_bucket.
  - apply buckets_run_in_draw_order in Hruns
      as (_ & js & Hm & Hs & _).
    now exists js.
Qed.

(** ** Runs on generators that deliver the same values *)

Lemma bind_cong {A B} (m1 m2 : M A) (k1 k2 : A -> M B) s1 s2 c :
  m1 s1 c = m2 s2 c ->
  (forall a c1, k1 a s1 c1 = k2 a s2 c1) ->
  bind m1 k1 s1 c = bind m2 k2 s2 c.
Proof.
  intros Hm Hk. unfold bind. rewrite Hm.
  destruct (m2 s2 c) as [[a c1]| |]; auto.
Qed.

(** Steps that read no generator. *)
Lemma getitem_pure {A} (o : option A) s1 s2 c :
  getitem o s1 c = getitem o s2 c.
Proof. now destruct o. Qed.

Lemma list_getitem_pure {A} (a : list A) i s1 s2 c :
  list_getitem a i s1 c = list_getitem a i s2 c.
Proof. unfold list_getitem. now destruct (nth_error a i). Qed.

Lemma truediv_pure a b s1 s2 c : truediv a b s1 c = truediv a b s2 c.
Proof. unfold truediv. now destruct (Reqb b 0). Qed.

Lemma materials_of_pure sc pt s1 s2 c :
  materials_of sc pt s1 c = materials_of sc pt s2 c.
Proof.
  unfold materials_of. apply bind_cong; [apply getitem_pure|].
  intros row c1. apply getitem_pure.
Qed.

Section Congruence.

(** Either the redraw budgets agree, or the rectangle rejects nothing and
    the budget is never touched. *)
Variables fuel1 fuel2 : nat.
Variables W H : R.
Variables boat_pos boat_box : R * R.
Variable centered : bool.
Variable mean_scale : R.
Variables s1 s2 : source.
Hypothesis Hdraws : same_draws s1 s2.
Hypothesis Hfuel :
  fuel1 = fuel2 \/ forall pos, in_boat boat_pos boat_box pos = false.

Lemma random_uniform_cong a b c :
  random_uniform a b s1 c = random_uniform a b s2 c.
Proof.
  unfold random_uniform, bind, random_random, ret.
  now rewrite (proj1 Hdraws).
Qed.

Lemma draw_pos_cong c :
  draw_pos W H centered s1 c = draw_pos W H centered s2 c.
Proof.
  unfold draw_pos. apply bind_cong; [apply random_uniform_cong|].
  intros px c1. apply bind_cong; [apply random_uniform_cong|].
  reflexivity.
Qed.

Lemma redraw_same_fuel k : forall pos c,
  redraw W H boat_pos boat_box centered k pos s1 c
  = redraw W H boat_pos boat_box centered k pos s2 c.
Proof.
  induction k as [|k IH]; intros pos c; cbn [redraw];
    destruct (in_boat boat_pos boat_box pos); try reflexivity.
  apply bind_cong; [apply draw_pos_cong|]. intros pos' c1. apply IH.
Qed.

Lemma redraw_cong pos c :
  redraw W H boat_pos boat_box centered fuel1 pos s1 c
  = redraw W H boat_pos boat_box centered fuel2 pos s2 c.
Proof.
  destruct Hfuel as [<-|Hfree]; [apply redraw_same_fuel|].
  destruct fuel1, fuel2; cbn [redraw]; rewrite Hfree; reflexivity.
Qed.

Lemma draw_size_cong sc c : draw_size sc s1 c = draw_size sc s2 c.
Proof.
  unfold draw_size. apply bind_cong; [apply random_uniform_cong|].
  reflexivity.
Qed.

Lemma np_random_choice_cong {A} (a : list A) (p : list R) c :
  np_random_choice a p s1 c = np_random_choice a p s2 c.
Proof.
  unfold np_random_choice.
  destruct (length a =? 0)%nat; [reflexivity|].
  destruct (negb _); [reflexivity|].
  destruct (existsb _ p); [reflexivity|].
  destruct (negb _); [reflexivity|].
  apply bind_cong; [|intros u c1; apply list_getitem_pure].
  unfold np_random_sample. now rewrite (proj2 Hdraws).
Qed.

Lemma draw_density_cong sc pt c :
  draw_density sc pt s1 c = draw_density sc pt s2 c.
Proof.
  unfold draw_density. apply bind_cong; [apply materials_of_pure|].
  intros materials c1. destruct (Reqb _ 0); [reflexivity|].
  apply bind_cong; [apply np_random_choice_cong|].
  intros material c2. apply getitem_pure.
Qed.

Lemma draw_piece_cong sc pt c :
  draw_piece fuel1 W H boat_pos boat_box centered sc pt s1 c
  = draw_piece fuel2 W H boat_pos boat_box centered sc pt s2 c.
Proof.
  unfold draw_piece. apply bind_cong; [apply draw_pos_cong|].
  intros pos c1. apply bind_cong; [apply redraw_cong|].
  intros pos' c2. apply bind_cong; [apply draw_size_cong|].
  intros size c3. apply bind_cong; [apply draw_density_cong|].
  reflexivity.
Qed.

Lemma draw_pieces_cong sc pt n : forall pieces acc c,
  draw_pieces fuel1 W H boat_pos boat_box centered sc pt n pieces acc s1 c
  = draw_pieces fuel2 W H boat_pos boat_box centered sc pt n pieces acc
                s2 c.
Proof.
  induction n as [|n IH]; intros pieces acc c; cbn [draw_pieces];
    [reflexivity|].
  apply bind_cong; [apply draw_piece_cong|]. intros piece c1. apply IH.
Qed.

Lemma assign_mass_cong indices target proportion : forall pieces c,
  assign_mass indices target proportion pieces s1 c
  = assign_mass indices target proportion pieces s2 c.
Proof.
  induction indices as [|i indices IH]; intros pieces c;
    cbn [assign_mass]; [reflexivity|].
  apply bind_cong; [apply list_getitem_pure|]. intros piece c1. apply IH.
Qed.

Lemma bucket_cong sc pt pieces c :
  bucket fuel1 W H boat_pos boat_box centered mean_scale sc pt pieces s1 c
  = bucket fuel2 W H boat_pos boat_box centered mean_scale sc pt pieces
           s2 c.
Proof.
  unfold bucket. destruct (Rltb 0 _); [|reflexivity].
  apply bind_cong; [apply truediv_pure|]. intros avg c1.
  apply bind_cong; [apply np_random_choice_cong|]. intros n c2.
  apply bind_cong; [apply draw_pieces_cong|]. intros [pieces' acc] c3.
  apply assign_mass_cong.
Qed.

Lemma plastic_type_loop_cong sc pts : forall pieces c,
  plastic_type_loop fuel1 W H boat_pos boat_box centered mean_scale
                    sc pts pieces s1 c
  = plastic_type_loop fuel2 W H boat_pos boat_box centered mean_scale
                      sc pts pieces s2 c.
Proof.
  induction pts as [|pt pts IH]; intros pieces c;
    cbn [plastic_type_loop]; [reflexivity|].
  apply bind_cong; [apply bucket_cong|]. intros pieces' c1. apply IH.
Qed.

Lemma size_class_loop_cong rel : forall pieces c,
  size_class_loop fuel1 W H boat_pos boat_box centered mean_scale
                  rel pieces s1 c
  = size_class_loop fuel2 W H boat_pos boat_box centered mean_scale
                    rel pieces s2 c.
Proof.
  induction rel as [|sc rel IH]; intros pieces c;
    cbn [size_class_loop]; [reflexivity|].
  apply bind_cong; [apply plastic_type_loop_cong|].
  intros pieces' c1. apply IH.
Qed.

End Congruence.

(** ** The canned layout, evaluated *)

Lemma fill_avg_density_run :
  exists tbl row,
    (forall s c,
       fill_avg_density plastic_materials empty_avg_density s c
       = Ok (tbl, c)) /\
    dict_get SizeClass.eqb tbl SizeClass.MEGA = Some row /\
    dict_get PlasticType.eqb row PlasticType.N = Some example_density.
Proof.
  eexists. eexists. split; [|split].
  - intros s c.
    cbv beta iota delta
      [fill_avg_density plastic_materials empty_avg_density bind ret
       getitem dict_get dict_set fill_avg_density_row sum_material_density
       material_densities String.eqb Ascii.eqb Bool.eqb SizeClass.eqb
       PlasticType.eqb fst snd].
    reflexivity.
  - cbv beta iota delta [dict_get SizeClass.eqb]. reflexivity.
  - cbv beta iota delta [dict_get PlasticType.eqb]. reflexivity.
Qed.

Lemma log10_1000 : log10 (10^3) = 3.
Proof.
  unfold log10. rewrite ln_pow by lra. pose proof ln_10_pos.
  change (INR 3) with (1 + 1 + 1). field. lra.
Qed.

Lemma avg_vol_per_piece_run a b s c :
  a < b -> avg_vol_per_piece a b s c = Ok (avg_vol_value a b, c).
Proof.
  intros Hab. unfold avg_vol_per_piece.
  rewrite bind_run with (1 := truediv_run 1 (b - a) s c ltac:(lra)).
  apply truediv_run. rewrite log10_1000. lra.
Qed.

Lemma example_log_range :
  log10 (50 / 100) < log10 (200 / 100).
Proof. apply log10_lt; lra. Qed.

Lemma example_piece_run W H mean_scale tbl row piece s c :
  Trash.size_class piece = SizeClass.MEGA ->
  Trash.plastic_type piece = PlasticType.N ->
  dict_get SizeClass.eqb tbl SizeClass.MEGA = Some row ->
  dict_get PlasticType.eqb row PlasticType.N = Some example_density ->
  example_piece W H mean_scale tbl piece s c
  = if Reqb (example_total_vol W H mean_scale) 0
    then Raise ZeroDivisionError
    else Ok (example_fill W H mean_scale piece, c).
Proof.
  intros Hsc Hpt Hrow Hd. unfold example_piece. rewrite Hsc, Hpt.
  cbn [size_ranges fst snd].
  rewrite bind_run with (1 := avg_vol_per_piece_run _ _ s c example_log_range).
  change (mean_scale * snd (mean_plastic_concentration
                              SizeClass.MEGA PlasticType.N)
          * (W / 1000) * (H / 1000))
    with (n_target W H mean_scale SizeClass.MEGA PlasticType.N).
  fold (example_total_vol W H mean_scale).
  destruct (Reqb (example_total_vol W H mean_scale) 0) eqn:Hz.
  - apply bind_raise. unfold truediv. now rewrite Hz.
  - apply Reqb_false in Hz.
    rewrite bind_run with (1 := truediv_run _ _ s c Hz).
    cbn [Trash.set_mass Trash.size_class Trash.plastic_type].
    rewrite Hsc, Hpt, Hrow. cbn [getitem].
    unfold bind at 1. cbn [ret]. rewrite Hd. reflexivity.
Qed.

Lemma example_loop_run W H mean_scale tbl row s c pieces :
  Forall (fun piece => Trash.size_class piece = SizeClass.MEGA /\
                       Trash.plastic_type piece = PlasticType.N) pieces ->
  dict_get SizeClass.eqb tbl SizeClass.MEGA = Some row ->
  dict_get PlasticType.eqb row PlasticType.N = Some example_density ->
  example_loop W H mean_scale tbl pieces s c
  = if Reqb (example_total_vol W H mean_scale) 0
    then match pieces with
         | [] => Ok ([], c)
         | _ => Raise ZeroDivisionError
         end
    else Ok (map (example_fill W H mean_scale) pieces, c).
Proof.
  intros Hall Hrow Hd.
  induction Hall as [|piece pieces [Hsc Hpt] Hall IH]; cbn [example_loop map].
  - now destruct (Reqb _ 0).
  - unfold bind at 1.
    rewrite (example_piece_run W H mean_scale tbl row piece s c Hsc Hpt
               Hrow Hd).
    destruct (Reqb (example_total_vol W H mean_scale) 0); [reflexivity|].
    unfold bind. rewrite IH. reflexivity.
Qed.

(** The canned path: seven particles, or a division by zero when the
    bucket's total volume is zero (for instance when [W] or [H] is 0). *)
Lemma generate_example_run W H mean_scale s c :
  generate_example W H mean_scale s c
  = if Reqb (example_total_vol W H mean_scale) 0
    then Raise ZeroDivisionError
    else Ok (map (example_fill W H mean_scale) example_pieces, c).
Proof.
  destruct fill_avg_density_run as (tbl & row & Hfill & Hrow & Hd).
  unfold generate_example. fold empty_avg_density.
  rewrite bind_run with (1 := Hfill s c).
  rewrite (example_loop_run W H mean_scale tbl row s c example_pieces);
    [reflexivity| |assumption|assumption].
  unfold example_pieces. repeat constructor.
Qed.

(** ** C3: the canned layout and the integral it is meant to use *)

Lemma ln_1000 : ln (10^3) = 3 * ln 10.
Proof. rewrite ln_pow by lra. change (INR 3) with (1+1+1). ring. Qed.

Lemma piece_volume_at_eq u : piece_volume_at u = Rpower (10^3) u.
Proof.
  unfold piece_volume_at, Rpower. rewrite ln_1000.
  rewrite <- Rpower_pow; [|apply exp_pos].
  unfold Rpower. rewrite ln_exp. f_equal. change (INR 3) with (1+1+1). ring.
Qed.

Lemma derivable_pt_lim_volume_primitive u :
  derivable_pt_lim volume_primitive u (piece_volume_at u).
Proof.
  rewrite piece_volume_at_eq. unfold volume_primitive, Rpower.
  set (k := ln (10^3)).
  assert (Hk : k <> 0).
  { unfold k. rewrite ln_1000. pose proof ln_10_pos. lra. }
  replace (exp (u * k))
    with ((exp (u * k) * (1 * k + u * 0)) * / k + exp (u * k) * 0)
    by (field; assumption).
  apply (derivable_pt_lim_mult (fun u => exp (u * k)) (fun _ => / k)).
  - apply (derivable_pt_lim_comp (fun u => u * k) exp).
    + apply (derivable_pt_lim_mult id (fun _ => k)).
      * apply derivable_pt_lim_id.
      * apply derivable_pt_lim_const.
    + apply derivable_pt_lim_exp.
  - apply derivable_pt_lim_const.
Qed.

Lemma derivable_volume_primitive : derivable volume_primitive.
Proof.
  intros u. exists (piece_volume_at u).
  apply derivable_pt_lim_volume_primitive.
Qed.

Lemma derive_volume_primitive u :
  derive volume_primitive derivable_volume_primitive u = piece_volume_at u.
Proof.
  unfold derive. apply derive_pt_eq_0. apply derivable_pt_lim_volume_primitive.
Qed.

Lemma piece_volume_at_continuous : continuity piece_volume_at.
Proof.
  unfold piece_volume_at, Rpower. reg.
Qed.

Lemma derive_volume_primitive_continuous :
  continuity (derive volume_primitive derivable_volume_primitive).
Proof.
  intros u.
  apply continuity_pt_locally_ext with (f := piece_volume_at) (a := 1);
    [lra | | apply piece_volume_at_continuous].
  intros y _. symmetry. apply derive_volume_primitive.
Qed.

Lemma log_uniform_mean_volume_eq a b :
  a <= b ->
  log_uniform_mean_volume a b
  = (Rpower (10^3) b - Rpower (10^3) a) / ln (10^3) / (b - a).
Proof.
  intros Hab. unfold log_uniform_mean_volume. f_equal.
  set (F := mkC1 derive_volume_primitive_continuous).
  rewrite (RiemannInt_P18 (piece_volume_integrable a b)
             (RiemannInt_P32 F a b) Hab).
  - rewrite FTC_Riemann. cbn [c1 F].
    unfold volume_primitive. lra.
  - intros x _. symmetry. apply derive_volume_primitive.
Qed.
Lemma ln_10_gt_1 : 1 < ln 10.
Proof.
  rewrite <- (ln_exp 1). apply ln_increasing; [apply exp_pos|].
  pose proof exp_le_3. lra.
Qed.

(** The source divides by [log10(10^3)] where the integral has [ln(10^3)]:
    its average volume is [ln 10] times the mean of the distribution. *)
Lemma avg_vol_value_vs_integral a b :
  a < b -> avg_vol_value a b = ln 10 * log_uniform_mean_volume a b.
Proof.
  intros Hab. rewrite log_uniform_mean_volume_eq by lra.
  unfold avg_vol_value. rewrite log10_1000, ln_1000.
  pose proof ln_10_pos. field. lra.
Qed.

Lemma avg_vol_value_pos a b : a < b -> 0 < avg_vol_value a b.
Proof.
  intros Hab. unfold avg_vol_value. rewrite log10_1000.
  assert (Rpower (10^3) a < Rpower (10^3) b) by (apply Rpower_lt; lra).
  apply Rdiv_lt_0_compat; [|lra].
  apply Rmult_lt_0_compat; [|lra].
  apply Rdiv_lt_0_compat; lra.
Qed.

Lemma example_targets_pos :
  0 < n_target 100 100 default_mean_scale SizeClass.MEGA PlasticType.N /\
  0 < mass_target 100 100 default_mean_scale SizeClass.MEGA PlasticType.N.
Proof.
  unfold n_target, mass_target, default_mean_scale,
    total_mean_plastic_concentration.
  cbn [mean_plastic_concentration fst snd]. split; lra.
Qed.

Lemma example_total_vol_pos : 0 < example_total_vol 100 100 default_mean_scale.
Proof.
  unfold example_total_vol. apply Rmult_lt_0_compat.
  - apply avg_vol_value_pos, example_log_range.
  - apply example_targets_pos.
Qed.

Lemma example_pieces_sizes_pos :
  Forall (fun piece => 0 < Trash.size piece) example_pieces.
Proof. unfold example_pieces. repeat constructor; cbn [Trash.size]; lra. Qed.

Lemma example_fill_mass piece :
  0 < Trash.size piece ->
  let nTarget :=
    n_target 100 100 default_mean_scale SizeClass.MEGA PlasticType.N in
  let totalMassTarget :=
    mass_target 100 100 default_mean_scale SizeClass.MEGA PlasticType.N in
  let min_log := log10 (50 / 100) in
  let max_log := log10 (200 / 100) in
  let t := example_fill 100 100 default_mean_scale piece in
  Trash.mass t
  = totalMassTarget
    * (Trash.size t ^ 3 / (avg_vol_value min_log max_log * nTarget)) /\
  Trash.mass t
  = totalMassTarget
    * (Trash.size t ^ 3
       / (log_uniform_mean_volume min_log max_log * nTarget)) / ln 10 /\
  Trash.mass t
  <> totalMassTarget
     * (Trash.size t ^ 3
        / (log_uniform_mean_volume min_log max_log * nTarget)).
Proof.
  intros Hsize nTarget totalMassTarget min_log max_log t.
  destruct example_targets_pos as [Hn Hm]. fold nTarget in Hn.
  fold totalMassTarget in Hm.
  pose proof (avg_vol_value_pos _ _ example_log_range) as Havg.
  pose proof (avg_vol_value_vs_integral _ _ example_log_range) as Hint.
  fold min_log max_log in Havg, Hint.
  pose proof ln_10_gt_1 as Hln.
  set (mu := log_uniform_mean_volume min_log max_log) in *.
  assert (Hmu : 0 < mu).
  { apply Rmult_lt_reg_l with (ln 10); [lra|]. lra. }
  assert (Hcode : Trash.mass t
                  = totalMassTarget
                    * (Trash.size piece ^ 3
                       / (avg_vol_value min_log max_log * nTarget))).
  { unfold t, example_fill, example_total_vol.
    cbn [Trash.set_density Trash.set_mass Trash.mass].
    fold min_log max_log nTarget totalMassTarget. field. lra. }
  change (Trash.size t) with (Trash.size piece).
  assert (Hspec :
            0 < totalMassTarget * (Trash.size piece ^ 3 / (mu * nTarget))).
  { apply Rmult_lt_0_compat; [assumption|].
    apply Rdiv_lt_0_compat; [now apply pow_lt|].
    now apply Rmult_lt_0_compat. }
  assert (Hrel : Trash.mass t
                 = totalMassTarget * (Trash.size piece ^ 3 / (mu * nTarget))
                   / ln 10).
  { rewrite Hcode, Hint. field. lra. }
  split; [assumption|]. split; [assumption|].
  rewrite Hrel. intros Heq.
  set (v := totalMassTarget * (Trash.size piece ^ 3 / (mu * nTarget))) in *.
  assert (v = v * ln 10) by (rewrite <- Heq at 2; field; lra).
  nra.
Qed.

(** C3 (the code departs from the specification).  With [W = H = 100], the
    default scale and [use_example] set, the call returns, without reading
    either generator, seven MEGA/N particles at the listed positions with
    the listed sizes, each of density [920*0.80 + 900.5*0.10 = 826.05] and of
    mass
    [totalMassTarget * (size^3 / (avg_vol * nTarget))].  But [avg_vol], the
    value of line 183, is not the integral of the volume over the
    log-uniform size distribution: it is [ln 10] times that mean, because the
    source divides by [math.log10(10**3)] where the integral has
    [ln(10^3)].  Every mass is therefore the specified closed-form ratio
    divided by [ln 10], and differs from it. *)
Theorem C3_example_masses_off_by_ln10 fuel relevant_size_classes s c :
  let nTarget :=
    n_target 100 100 default_mean_scale SizeClass.MEGA PlasticType.N in
  let totalMassTarget :=
    mass_target 100 100 default_mean_scale SizeClass.MEGA PlasticType.N in
  let min_log := log10 (50 / 100) in
  let max_log := log10 (200 / 100) in
  exists pieces,
    generate_trash fuel 100 100 (0, 0) (0, 0) false default_mean_scale
                   relevant_size_classes true s c = Ok (pieces, c) /\
    map (fun t => (Trash.x t, Trash.y t)) pieces
    = [(100, 16); (110, 100); (90, 100); (115, 130); (88, 170);
       (115, 210); (100, 240)] /\
    map Trash.size pieces = [0.75; 0.75; 0.75; 1.00; 0.75; 2.50; 0.50] /\
    Forall (fun t => Trash.size_class t = SizeClass.MEGA /\
                     Trash.plastic_type t = PlasticType.N /\
                     Trash.density t = 826.05) pieces /\
    avg_vol_value min_log max_log
    = ln 10 * log_uniform_mean_volume min_log max_log /\
    Forall (fun t =>
              Trash.mass t
              = totalMassTarget
                * (Trash.size t ^ 3
                   / (avg_vol_value min_log max_log * nTarget)) /\
              Trash.mass t
              = totalMassTarget
                * (Trash.size t ^ 3
                   / (log_uniform_mean_volume min_log max_log * nTarget))
                / ln 10 /\
              Trash.mass t
              <> totalMassTarget
                 * (Trash.size t ^ 3
                    / (log_uniform_mean_volume min_log max_log * nTarget)))
           pieces.
Proof.
  intros nTarget totalMassTarget min_log max_log.
  exists (map (example_fill 100 100 default_mean_scale) example_pieces).
  split; [|split; [|split; [|split; [|split]]]].
  - unfold generate_trash. rewrite generate_example_run.
    pose proof example_total_vol_pos as Hpos.
    assert (Reqb (example_total_vol 100 100 default_mean_scale) 0 = false)
      as -> by (apply Reqb_false; lra).
    reflexivity.
  - unfold example_pieces, example_fill.
    cbn [map Trash.set_density Trash.set_mass Trash.x Trash.y].
    repeat (f_equal; try lra).
  - unfold example_pieces, example_fill.
    cbn [map Trash.set_density Trash.set_mass Trash.size].
    reflexivity.
  - rewrite Forall_map. unfold example_pieces.
    repeat constructor;
      cbn [example_fill Trash.set_density Trash.density];
      unfold example_density; lra.
  - apply avg_vol_value_vs_integral, example_log_range.
  - rewrite Forall_map.
    eapply Forall_impl; [|exact example_pieces_sizes_pos].
    intros piece Hsize. exact (example_fill_mass piece Hsize).
Qed.

(** ** C9: the default scale *)

Lemma scaled_total_mass_concentration_eq mean_scale :
  scaled_total_mass_concentration mean_scale = mean_scale * 69.5763.
Proof.
  unfold scaled_total_mass_concentration, buckets, all_size_classes, Rsum.
  cbn [flat_map map app PlasticType.members fold_right fst snd
       mean_plastic_concentration].
  lra.
Qed.

(** The bucket entries add up to 69.5763, not to the published total 69.58
    the scale is derived from; at the default scale they add up to a little
    less than 100. *)
Lemma C9_counterexample :
  scaled_total_mass_concentration default_mean_scale <> 100.
Proof.
  rewrite scaled_total_mass_concentration_eq.
  unfold default_mean_scale, total_mean_plastic_concentration.
  cbn [fst]. lra.
Qed.

(** C9 (amended).  The default scale is 100 divided by the published total
    mean mass concentration, the constant 69.58, so that the scale times
    that constant is exactly 100; the sum over the sixteen buckets of the
    scale times the bucket's mean mass concentration is
    [100 * 69.5763 / 69.58], within 0.01 of 100. *)
Theorem C9_default_scale :
  default_mean_scale = 100 / 69.58 /\
  default_mean_scale * fst (fst total_mean_plastic_concentration) = 100 /\
  scaled_total_mass_concentration default_mean_scale
  = 100 * 69.5763 / 69.58 /\
  Rabs (scaled_total_mass_concentration default_mean_scale - 100) < 0.01.
Proof.
  rewrite scaled_total_mass_concentration_eq.
  unfold default_mean_scale, total_mean_plastic_concentration. cbn [fst].
  repeat split; try lra.
  apply Rabs_def1; lra.
Qed.

(** ** Which exceptions the sampling path can raise *)

Lemma bind_Raise {A B} (m : M A) (k : A -> M B) s c e :
  bind m k s c = Raise e ->
  m s c = Raise e \/ exists a c1, m s c = Ok (a, c1) /\ k a s c1 = Raise e.
Proof.
  unfold bind. destruct (m s c) as [[a c1]| |]; try discriminate.
  - intros Hk. right. now exists a, c1.
  - intros [= ->]. now left.
Qed.

Lemma getitem_Raise {A} (o : option A) s c e :
  getitem o s c = Raise e -> e = KeyError /\ o = None.
Proof. destruct o; simpl; [discriminate|]. intros [= <-]. now split. Qed.

Lemma list_getitem_Raise {A} (a : list A) i s c e :
  list_getitem a i s c = Raise e -> e = IndexError /\ nth_error a i = None.
Proof.
  unfold list_getitem. destruct (nth_error a i); [discriminate|].
  intros [= <-]. now split.
Qed.

Lemma cumsum_from_length acc p : length (cumsum_from acc p) = length p.
Proof.
  revert acc. induction p as [|w p IH]; intros acc; cbn [cumsum_from length];
    [reflexivity|]. now rewrite IH.
Qed.

Lemma cumsum_from_last p : forall acc d,
  p <> [] -> last (cumsum_from acc p) d = acc + Rsum p.
Proof.
  unfold Rsum.
  induction p as [|w p IH]; intros acc d Hne; [congruence|].
  cbn [cumsum_from fold_right]. destruct p as [|w' p].
  - cbn [cumsum_from last fold_right]. lra.
  - change (last (acc + w :: cumsum_from (acc + w) (w' :: p)) d)
      with (last (cumsum_from (acc + w) (w' :: p)) d).
    rewrite IH by discriminate. cbn [fold_right]. lra.
Qed.

Lemma last_In {A} (l : list A) d : l <> [] -> In (last l d) l.
Proof.
  induction l as [|x l IH]; [congruence|]. intros _.
  destruct l as [|y l]; [now left|].
  right. apply IH. discriminate.
Qed.

Lemma searchsorted_right_lt (cdf : list R) (u c : R) :
  In c cdf -> u < c -> (searchsorted_right cdf u < length cdf)%nat.
Proof.
  induction cdf as [|x cdf IH]; intros Hin Hu; [destruct Hin|].
  cbn [searchsorted_right length].
  destruct (Rltb u x) eqn:Hx; [lia|].
  destruct Hin as [->|Hin].
  - apply Rltb_false in Hx. lra.
  - specialize (IH Hin Hu). lia.
Qed.

(** Weights that sum to 1 and a uniform value below 1 give an index inside
    the population. *)
Lemma choice_index_lt (p : list R) (u : R) :
  p <> [] -> Rsum p = 1 -> u < 1 -> (choice_index p u < length p)%nat.
Proof.
  intros Hne Hsum Hu. unfold choice_index.
  assert (Hlast : last (cumsum p) 0 = 1).
  { unfold cumsum. rewrite cumsum_from_last by assumption. lra. }
  rewrite Hlast.
  replace (length p) with
    (length (map (fun w => w / 1) (cumsum p)))
    by (rewrite length_map; apply cumsum_from_length).
  apply searchsorted_right_lt with (c := 1); [|assumption].
  apply in_map_iff. exists (last (cumsum p) 0).
  split; [rewrite Hlast; lra|].
  apply last_In. unfold cumsum. destruct p; [congruence|discriminate].
Qed.

Lemma Rsum_map_div (l : list R) (t : R) :
  Rsum (map (fun w => w / t) l) = Rsum l / t.
Proof.
  unfold Rsum. induction l as [|w l IH]; cbn [map fold_right]; [lra|].
  rewrite IH. lra.
Qed.

(** Every entry of the material table is usable: some material, no
    negative share, a positive total, every material with a density. *)
Lemma plastic_materials_valid sc pt row materials :
  dict_get SizeClass.eqb plastic_materials sc = Some row ->
  dict_get PlasticType.eqb row pt = Some materials ->
  materials <> [] /\
  (forall w, In w (map snd materials) -> 0 <= w) /\
  0 < Rsum (map snd materials) /\
  (forall m, In m (map fst materials) ->
     dict_get String.eqb material_densities m <> None).
Proof.
  destruct sc; cbn [plastic_materials dict_get SizeClass.eqb];
    intros [= <-]; destruct pt; cbn [dict_get PlasticType.eqb];
    intros [= <-];
    (split; [discriminate|]);
    (split; [cbn [map snd In]; intros w Hw;
             repeat (destruct Hw as [<-|Hw]; [lra|]); destruct Hw|]);
    (split; [unfold Rsum; cbn [map snd fold_right]; lra|]);
    cbn [map fst In]; intros m Hm;
    repeat (destruct Hm as [<-|Hm]; [discriminate|]); destruct Hm.
Qed.

(** A pair without an entry in the material table has no pieces. *)
Lemma plastic_materials_absent sc pt :
  (forall row, dict_get SizeClass.eqb plastic_materials sc = Some row ->
               dict_get PlasticType.eqb row pt = None) ->
  snd (mean_plastic_concentration sc pt) = 0.
Proof.
  destruct sc, pt; cbn [plastic_materials dict_get SizeClass.eqb];
    intros Habs; try reflexivity;
    specialize (Habs _ eq_refl); discriminate Habs.
Qed.

Section Failures.

Variable fuel : nat.
Variables W H : R.
Variables boat_pos boat_box : R * R.
Variable centered : bool.
Variable mean_scale : R.
Variable s : source.

Local Abbreviation explained := (explained boat_pos boat_box s).
Local Abbreviation n_target := (n_target W H mean_scale).
Local Abbreviation integer_target := (integer_target W H mean_scale).

Lemma explained_mono (Pval Pkey Pval' Pkey' : Prop) {A} (r : outcome A) :
  (Pval -> Pval') -> (Pkey -> Pkey') ->
  explained Pval Pkey r -> explained Pval' Pkey' r.
Proof. intros Hv Hk. destruct r as [a|[]|]; cbn; auto. Qed.

Lemma explained_bind (Pval Pkey : Prop) {A B} (m : M A) (k : A -> M B) c :
  explained Pval Pkey (m s c) ->
  (forall a c1, m s c = Ok (a, c1) -> explained Pval Pkey (k a s c1)) ->
  explained Pval Pkey (bind m k s c).
Proof.
  intros Hm Hk. unfold bind.
  destruct (m s c) as [[a c1]|e|]; [now apply Hk | exact Hm | exact Hm].
Qed.

Lemma explained_redraw k : forall pos c,
  explained False False
    (redraw W H boat_pos boat_box centered k pos s c).
Proof.
  induction k as [|k IH]; intros pos c; cbn [redraw];
    destruct (in_boat boat_pos boat_box pos) eqn:Hin; try exact I.
  - cbn. now exists pos.
  - rewrite bind_run with (1 := draw_pos_run W H centered s c). apply IH.
Qed.

Lemma explained_np_random_choice {A} (a : list A) (p : list R) c :
  a <> [] -> length p = length a -> (forall w, In w p -> 0 <= w) ->
  explained (Rsum p <> 1) False (np_random_choice a p s c).
Proof.
  intros Hne Hlen Hpos. unfold np_random_choice.
  destruct a as [|a0 a']; [congruence|].
  cbn [length Nat.eqb]. rewrite Hlen. cbn [length].
  rewrite Nat.eqb_refl. cbn [negb].
  assert (existsb (fun w => Rltb w 0) p = false) as ->.
  { destruct (existsb _ p) eqn:E; [|reflexivity].
    apply existsb_exists in E as (w & Hin & Hw).
    apply Rltb_true in Hw. specialize (Hpos w Hin). lra. }
  destruct (Reqb (Rsum p) 1) eqn:Hsum; cbn [negb].
  - apply Reqb_true in Hsum.
    rewrite bind_run
      with (a := np_random s (np_pos c)) (c1 := np_next c)
      by reflexivity.
    fold (choice_index p (np_random s (np_pos c))).
    unfold list_getitem.
    destruct (nth_error _ _) eqn:Hnth; [exact I|].
    cbn. exists (np_pos c).
    destruct (Rlt_dec (np_random s (np_pos c)) 1) as [Hlt|Hge]; [|lra].
    apply nth_error_None in Hnth.
    assert (Hp : p <> [])
      by (destruct p; [discriminate Hlen | discriminate]).
    pose proof (choice_index_lt p _ Hp Hsum Hlt) as Hidx.
    rewrite Hlen in Hidx. lia.
  - apply Reqb_false in Hsum. exact Hsum.
Qed.

Lemma explained_materials_of sc pt c :
  explained False (snd (mean_plastic_concentration sc pt) = 0)
    (materials_of sc pt s c).
Proof.
  unfold materials_of, bind, getitem.
  destruct (dict_get SizeClass.eqb plastic_materials sc) as [row|] eqn:Hrow.
  - cbn [ret]. destruct (dict_get PlasticType.eqb row pt) eqn:Hm;
      [exact I|].
    cbn. apply plastic_materials_absent. intros row' Hrow'. congruence.
  - cbn. apply plastic_materials_absent. intros row Hrow'. congruence.
Qed.

Lemma explained_draw_density sc pt c :
  explained False (snd (mean_plastic_concentration sc pt) = 0)
    (draw_density sc pt s c).
Proof.
  unfold draw_density.
  apply explained_bind; [apply explained_materials_of|].
  intros materials c1 Hm.
  apply materials_of_Ok in Hm as [-> (row & Hrow & Hm)].
  destruct (plastic_materials_valid sc pt row materials Hrow Hm)
    as (Hne & Hpos & Htot & Hdens).
  assert (Reqb (Rsum (map snd materials)) 0 = false) as ->
    by (apply Reqb_false; lra).
  apply explained_bind.
  - eapply explained_mono;
      [| |apply explained_np_random_choice].
    + intros Hsum. apply Hsum. rewrite Rsum_map_div. field. lra.
    + tauto.
    + destruct materials; [congruence|discriminate].
    + now rewrite !length_map.
    + intros w Hw. apply in_map_iff in Hw as (w0 & <- & Hw0).
      specialize (Hpos w0 Hw0). apply Rmult_le_pos; [assumption|].
      left. now apply Rinv_0_lt_compat.
  - intros material c1 Hch.
    apply np_random_choice_Ok in Hch as (_ & _ & Hnth).
    apply nth_error_In in Hnth. specialize (Hdens material Hnth).
    destruct (dict_get String.eqb material_densities material);
      [exact I|congruence].
Qed.

Lemma explained_draw_piece sc pt c :
  explained False (snd (mean_plastic_concentration sc pt) = 0)
    (draw_piece fuel W H boat_pos boat_box centered sc pt s c).
Proof.
  unfold draw_piece.
  rewrite bind_run with (1 := draw_pos_run W H centered s c).
  apply explained_bind.
  - eapply explained_mono; [| |apply explained_redraw]; tauto.
  - intros pos c1 _.
    rewrite bind_run with (1 := draw_size_run s sc c1).
    apply explained_bind; [apply explained_draw_density|].
    intros d c2 _. exact I.
Qed.

Lemma explained_draw_pieces sc pt n : forall pieces acc c,
  explained False (snd (mean_plastic_concentration sc pt) = 0)
    (draw_pieces fuel W H boat_pos boat_box centered sc pt n pieces acc
                 s c).
Proof.
  induction n as [|n IH]; intros pieces acc c; cbn [draw_pieces];
    [exact I|].
  apply explained_bind; [apply explained_draw_piece|].
  intros piece c1 _. apply IH.
Qed.

Lemma n_target_zero sc pt :
  snd (mean_plastic_concentration sc pt) = 0 -> n_target sc pt = 0.
Proof. unfold n_target. intros ->. ring. Qed.

(** One bucket fails only at a positive integer target, on a value of
    NumPy's generator that is not below 1, or by redrawing for ever. *)
Lemma explained_bucket sc pt pieces c :
  explained (0 < n_target sc pt /\
             IZR (Zfloor (n_target sc pt)) = n_target sc pt) False
    (bucket fuel W H boat_pos boat_box centered mean_scale sc pt pieces
            s c).
Proof.
  unfold bucket.
  change (mean_scale * snd (mean_plastic_concentration sc pt)
          * (W / 1000) * (H / 1000)) with (n_target sc pt).
  set (nT := n_target sc pt).
  destruct (Rltb 0 nT) eqn:Hpos; [|exact I].
  apply Rltb_true in Hpos.
  rewrite bind_run with (1 := truediv_run _ nT s c ltac:(lra)).
  pose proof (Zfloor_bound nT) as Hfl.
  pose proof (Zceil_bound nT) as Hce.
  apply explained_bind.
  - eapply explained_mono; [| |apply explained_np_random_choice].
    + intros Hsum. split; [assumption|].
      destruct (Req_dec_T (IZR (Zfloor nT)) nT) as [Heq|Hne];
        [assumption|].
      exfalso. apply Hsum. unfold Rsum. cbn [fold_right].
      rewrite (Zceil_Zfloor_succ nT ltac:(lra)), plus_IZR. lra.
    + tauto.
    + discriminate.
    + reflexivity.
    + intros w [<-|[<-|[]]]; lra.
  - intros n c1 _. apply explained_bind.
    + eapply explained_mono; [| |apply explained_draw_pieces].
      * tauto.
      * intros Hz. apply n_target_zero in Hz. fold nT in Hz. lra.
    + intros [pieces' acc] c2 Hdraw.
      apply draw_pieces_Ok in Hdraw
        as (raw & -> & Hlen & _ & _ & _).
      replace (length (pieces ++ raw) - Z.to_nat n)%nat
        with (length pieces) by (rewrite length_app; lia).
      rewrite <- Hlen.
      pose proof (assign_mass_slice
                    (mean_scale * fst (mean_plastic_concentration sc pt)
                     * (W / 1000) * (H / 1000) / nT * IZR n)
                    acc s c2 raw pieces []) as Hassign.
      rewrite !app_nil_r in Hassign. rewrite Hassign. exact I.
Qed.

Lemma explained_plastic_type_loop sc pts : forall pieces c,
  explained (integer_target (map (pair sc) pts)) False
    (plastic_type_loop fuel W H boat_pos boat_box centered mean_scale
                       sc pts pieces s c).
Proof.
  induction pts as [|pt pts IH]; intros pieces c;
    cbn [plastic_type_loop]; [exact I|].
  apply explained_bind.
  - eapply explained_mono; [| |apply explained_bucket]; [|tauto].
    intros Hint. exists (sc, pt). split; [now left | exact Hint].
  - intros pieces' c1 _.
    eapply explained_mono; [| |apply IH]; [|tauto].
    intros (b & Hin & Hb). exists b. split; [now right | exact Hb].
Qed.

Lemma explained_size_class_loop rel : forall pieces c,
  explained (integer_target (buckets rel)) False
    (size_class_loop fuel W H boat_pos boat_box centered mean_scale
                     rel pieces s c).
Proof.
  induction rel as [|sc rel IH]; intros pieces c;
    cbn [size_class_loop]; [exact I|].
  unfold buckets. cbn [flat_map]. fold (buckets rel).
  apply explained_bind.
  - eapply explained_mono; [| |apply explained_plastic_type_loop];
      [|tauto].
    intros (b & Hin & Hb). exists b. split; [|exact Hb].
    apply in_or_app. now left.
  - intros pieces' c1 _.
    eapply explained_mono; [| |apply IH]; [|tauto].
    intros (b & Hin & Hb). exists b. split; [|exact Hb].
    apply in_or_app. now right.
Qed.

End Failures.

(** ** C7: no validation of the region *)

Lemma n_target_nonpos W H mean_scale sc pt :
  mean_scale * (W * H) <= 0 -> n_target W H mean_scale sc pt <= 0.
Proof.
  intros Hle. unfold n_target.
  destruct (concentration_nonneg sc pt) as [_ Hc].
  set (cnt := snd (mean_plastic_concentration sc pt)) in *.
  replace (mean_scale * cnt * (W / 1000) * (H / 1000))
    with (cnt * (mean_scale * (W * H)) / 1000000) by field.
  assert (cnt * (mean_scale * (W * H)) <= 0) by nra. lra.
Qed.

Lemma plastic_type_loop_skip fuel W H boat_pos boat_box centered mean_scale
  s sc pts : forall pieces c,
  (forall pt, n_target W H mean_scale sc pt <= 0) ->
  plastic_type_loop fuel W H boat_pos boat_box centered mean_scale
                    sc pts pieces s c = Ok (pieces, c).
Proof.
  induction pts as [|pt pts IH]; intros pieces c Hskip;
    cbn [plastic_type_loop]; [reflexivity|].
  rewrite bind_run
    with (1 := bucket_skip fuel W H boat_pos boat_box centered mean_scale s
                 sc pt pieces c (Hskip pt)).
  now apply IH.
Qed.

Lemma size_class_loop_skip fuel W H boat_pos boat_box centered mean_scale
  s rel : forall pieces c,
  (forall sc pt, n_target W H mean_scale sc pt <= 0) ->
  size_class_loop fuel W H boat_pos boat_box centered mean_scale
                  rel pieces s c = Ok (pieces, c).
Proof.
  induction rel as [|sc rel IH]; intros pieces c Hskip;
    cbn [size_class_loop]; [reflexivity|].
  rewrite bind_run
    with (1 := plastic_type_loop_skip fuel W H boat_pos boat_box centered
                 mean_scale s sc PlasticType.members pieces c (Hskip sc)).
  now apply IH.
Qed.

(** The canned path with a zero width does raise, but a
    [ZeroDivisionError] from line 186, not a configuration error. *)
Lemma example_zero_width fuel H boat_pos boat_box centered mean_scale rel
  s c :
  generate_trash fuel 0 H boat_pos boat_box centered mean_scale rel true s c
  = Raise ZeroDivisionError.
Proof.
  unfold generate_trash. rewrite generate_example_run.
  assert (Reqb (example_total_vol 0 H mean_scale) 0 = true) as ->;
    [|reflexivity].
  apply Reqb_true. unfold example_total_vol, n_target. lra.
Qed.




Lemma demo_np_below_1 i : np_random demo_source i < 1.
Proof. cbn [demo_source np_random]. destruct i; lra. Qed.

(** ** C8: buckets without pieces *)

Lemma materials_of_absent_iff sc pt s c :
  materials_of sc pt s c = Raise KeyError <->
  (sc, pt) = (SizeClass.MACRO, PlasticType.P) \/
  (sc, pt) = (SizeClass.MEGA, PlasticType.P) \/
  (sc, pt) = (SizeClass.MEGA, PlasticType.F).
Proof.
  destruct sc, pt;
    cbv beta iota delta [materials_of bind ret raise getitem dict_get
                         plastic_materials SizeClass.eqb PlasticType.eqb];
    split; intros Hx; try discriminate Hx; auto;
    repeat (destruct Hx as [Hx|Hx]; try discriminate Hx).
Qed.

(** C8.  A bucket whose number concentration is zero leaves the list and
    both generators untouched, whatever the scale and the region, and
    returns before the material table is looked up: it does so even for the
    pairs whose lookup would fail.  The pairs without an entry in the
    material table are exactly MACRO/P, MEGA/P and MEGA/F, each of them has
    number concentration zero, and the sampling path never raises a
    [KeyError]. *)
Theorem C8_zero_count_buckets_are_skipped
  fuel W H boat_pos boat_box centered mean_scale relevant_size_classes
  s c sc pt pieces :
  (snd (mean_plastic_concentration sc pt) = 0 ->
   bucket fuel W H boat_pos boat_box centered mean_scale sc pt pieces s c
   = Ok (pieces, c)) /\
  (materials_of sc pt s c = Raise KeyError <->
   (sc, pt) = (SizeClass.MACRO, PlasticType.P) \/
   (sc, pt) = (SizeClass.MEGA, PlasticType.P) \/
   (sc, pt) = (SizeClass.MEGA, PlasticType.F)) /\
  (materials_of sc pt s c = Raise KeyError ->
   snd (mean_plastic_concentration sc pt) = 0) /\
  generate_trash fuel W H boat_pos boat_box centered mean_scale
                 relevant_size_classes false s c <> Raise KeyError.
Proof.
  split; [|split; [|split]].
  - intros Hz. apply bucket_skip.
    rewrite (n_target_zero W H mean_scale sc pt Hz). lra.
  - apply materials_of_absent_iff.
  - intros Habs. apply materials_of_absent_iff in Habs.
    destruct Habs as [[= -> ->]|[[= -> ->]|[= -> ->]]]; reflexivity.
  - intros Hr.
    pose proof (explained_size_class_loop fuel W H boat_pos boat_box
                  centered mean_scale s relevant_size_classes [] c) as Hex.
    unfold generate_trash in Hr. rewrite Hr in Hex. exact Hex.
Qed.

Lemma C8_witness :
  snd (mean_plastic_concentration SizeClass.MEGA PlasticType.P) = 0 /\
  materials_of SizeClass.MEGA PlasticType.P demo_source (mkCursor 0 0)
  = Raise KeyError /\
  bucket 1 1000 100 (0, 0) (10, 10) false 1
         SizeClass.MEGA PlasticType.P [] demo_source (mkCursor 0 0)
  = Ok ([], mkCursor 0 0).
Proof.
  assert (Hz : snd (mean_plastic_concentration SizeClass.MEGA PlasticType.P)
               = 0) by reflexivity.
  split; [exact Hz|]. split; [reflexivity|].
  exact (proj1 (C8_zero_count_buckets_are_skipped
                  1 1000 100 (0, 0) (10, 10) false 1 [SizeClass.MEGA]
                  demo_source (mkCursor 0 0)
                  SizeClass.MEGA PlasticType.P []) Hz).
Defined.

(** ** X1: positions lie in the sampling region *)

Lemma pos_at_in_region W H centered s j :
  0 < W -> 0 < H -> (forall i, 0 <= py_random s i < 1) ->
  in_region W H centered (pos_at W H centered s j).
Proof.
  intros HW HH Hpy. unfold in_region, pos_at.
  pose proof (Hpy j) as Hx. pose proof (Hpy (S j)) as Hy.
  destruct centered; cbn [pos_range fst snd]; repeat split; nra.
Qed.

(** X1.  In a region of positive width and height, with [random.random()] in
    [0, 1), every particle of a successful run of the sampling path lies in
    the half-open region: [0 <= x < W] and [0 <= y < H] from the corner,
    [-W/2 <= x < W/2] and [-H/2 <= y < H/2] when centered. *)
Theorem X1_positions_in_sampling_region
  fuel W H boat_pos boat_box centered mean_scale relevant_size_classes
  s c pieces c' :
  0 < W -> 0 < H -> (forall i, 0 <= py_random s i < 1) ->
  generate_trash fuel W H boat_pos boat_box centered mean_scale
                 relevant_size_classes false s c = Ok (pieces, c') ->
  Forall (fun t =>
            in_region W H centered (Trash.x t, Trash.y t) /\
            if centered
            then (- W / 2 <= Trash.x t < W / 2)
                 /\ (- H / 2 <= Trash.y t < H / 2)
            else (0 <= Trash.x t < W) /\ (0 <= Trash.y t < H)) pieces.
Proof.
  intros HW HH Hpy Hrun. apply generate_trash_pieces in Hrun.
  eapply Forall_impl; [|exact Hrun].
  intros t (lo & r & raw & (_ & _ & _ & d & _ & Hraw) & Ht).
  assert (Hreg : in_region W H centered (Trash.x t, Trash.y t)).
  { rewrite Ht, Hraw. cbn [Trash.set_mass Trash.x Trash.y].
    rewrite <- surjective_pairing. now apply pos_at_in_region. }
  split; [assumption|].
  unfold in_region in Hreg. cbn [fst snd] in Hreg.
  destruct centered; cbn [pos_range fst snd] in Hreg; tauto.
Qed.

Lemma X1_witness :
  0 < 1000 /\ 0 < 100 /\ (forall i, 0 <= py_random demo_source i < 1) /\
  generate_trash 1 1000 100 (0, 0) (10, 10) false 1 [SizeClass.MEGA] false
                 demo_source (mkCursor 0 0)
  = Ok ([demo_piece], mkCursor 5 3) /\
  Forall (fun t =>
            in_region 1000 100 false (Trash.x t, Trash.y t) /\
            (0 <= Trash.x t < 1000) /\ (0 <= Trash.y t < 100)) [demo_piece].
Proof.
  assert (HW : 0 < 1000) by lra. assert (HH : 0 < 100) by lra.
  split; [exact HW|]. split; [exact HH|].
  split; [exact demo_source_unit_interval|]. split; [exact demo_run|].
  exact (X1_positions_in_sampling_region
           1 1000 100 (0, 0) (10, 10) false 1 [SizeClass.MEGA]
           demo_source (mkCursor 0 0) [demo_piece] (mkCursor 5 3)
           HW HH demo_source_unit_interval demo_run).
Defined.

(** ** X2: densities come from the bucket's materials *)

Lemma material_density_range (material : string) (d : R) :
  dict_get String.eqb material_densities material = Some d ->
  900.5 <= d <= 1005.
Proof.
  unfold material_densities. cbn [dict_get].
  repeat (match goal with
          | |- context [String.eqb ?a ?b] => destruct (String.eqb a b)
          end; [intros [= <-]; lra|]).
  discriminate.
Qed.

(** X2.  Every particle of a successful run of the sampling path has the
    density of a material that [plastic_materials] lists for the particle's
    own size class and plastic type; it lies between 900.5 and 1005
    kg/m^3. *)
Theorem X2_density_of_a_listed_material
  fuel W H boat_pos boat_box centered mean_scale relevant_size_classes
  s c pieces c' :
  generate_trash fuel W H boat_pos boat_box centered mean_scale
                 relevant_size_classes false s c = Ok (pieces, c') ->
  Forall (fun t =>
            is_density_of (Trash.size_class t) (Trash.plastic_type t)
                          (Trash.density t) /\
            900.5 <= Trash.density t <= 1005) pieces.
Proof.
  intros Hrun. apply generate_trash_pieces in Hrun.
  eapply Forall_impl; [|exact Hrun].
  intros t (lo & r & raw & (_ & _ & _ & d & Hd & Hraw) & Ht).
  assert (Hdens : Trash.density t = d) by (rewrite Ht, Hraw; reflexivity).
  rewrite Hdens. split; [assumption|].
  destruct Hd as (row & materials & material & _ & _ & _ & Hd).
  eapply material_density_range; eauto.
Qed.

Lemma X2_witness :
  generate_trash 1 1000 100 (0, 0) (10, 10) false 1 [SizeClass.MEGA] false
                 demo_source (mkCursor 0 0)
  = Ok ([demo_piece], mkCursor 5 3) /\
  Forall (fun t =>
            is_density_of (Trash.size_class t) (Trash.plastic_type t)
                          (Trash.density t) /\
            900.5 <= Trash.density t <= 1005) [demo_piece].
Proof.
  split; [exact demo_run|].
  exact (X2_density_of_a_listed_material
           1 1000 100 (0, 0) (10, 10) false 1 [SizeClass.MEGA]
           demo_source (mkCursor 0 0) [demo_piece] (mkCursor 5 3) demo_run).
Defined.

(** ** X3: the mass of a bucket against the table *)

Lemma avg_mass_from_table W H mean_scale sc pt :
  0 < n_target W H mean_scale sc pt ->
  0 < snd (mean_plastic_concentration sc pt) /\
  mass_target W H mean_scale sc pt / n_target W H mean_scale sc pt
  = fst (mean_plastic_concentration sc pt)
    / snd (mean_plastic_concentration sc pt).
Proof.
  unfold n_target, mass_target. intros Hn.
  destruct (concentration_nonneg sc pt) as [_ Hc].
  set (cnt := snd (mean_plastic_concentration sc pt)) in *.
  set (m := fst (mean_plastic_concentration sc pt)).
  set (a := mean_scale * (W / 1000) * (H / 1000)).
  assert (Hn' : 0 < cnt * a) by (unfold a; lra).
  assert (Hcnt : 0 < cnt).
  { destruct Hc as [Hc|Hc]; [assumption|]. rewrite <- Hc in Hn'. lra. }
  assert (Ha : 0 < a).
  { apply Rmult_lt_reg_l with cnt; [assumption|]. lra. }
  split; [assumption|].
  replace (mean_scale * m * (W / 1000) * (H / 1000)) with (m * a)
    by (unfold a; ring).
  replace (mean_scale * cnt * (W / 1000) * (H / 1000)) with (cnt * a)
    by (unfold a; ring).
  field. lra.
Qed.

Lemma bucket_run_mass_per_piece fuel W H boat_pos boat_box centered
  mean_scale s sc pt c c' seg :
  bucket_run fuel W H boat_pos boat_box centered mean_scale s sc pt c c' seg
  -> mass_per_piece_from_table W H mean_scale (sc, pt) seg.
Proof.
  intros Hb. pose proof (bucket_run_masses_assigned _ _ _ _ _ _ _ _ _ _ _ _
                           _ Hb) as Hm.
  destruct Hb as [Hn -> _ | n raw Hpos Hfrac Hu Hn Hlen Hraw Hnp Hseg];
    [left; now split | right].
  cbn [fst snd].
  destruct (avg_mass_from_table W H mean_scale sc pt Hpos) as [Hcnt Havg].
  split; [assumption|]. split; [assumption|].
  destruct Hm as [[Hle _]|(_ & n' & Hn' & Hlen' & _ & Hsum)];
    [cbn [fst snd] in Hle; lra|].
  cbn [fst snd] in Hn', Hlen', Hsum.
  set (nT := n_target W H mean_scale sc pt) in *.
  fold (total_mass seg) in Hsum. rewrite Havg in Hsum.
  pose proof (Zfloor_bound nT) as Hfl.
  pose proof (Zceil_Zfloor_succ nT Hfrac) as Hce.
  assert (Hfl0 : (0 <= Zfloor nT)%Z) by (apply Zfloor_lub; simpl; lra).
  assert (Hn0 : (0 <= n')%Z) by (destruct Hn' as [->| ->]; lia).
  assert (HINR : INR (length seg) = IZR n').
  { rewrite Hlen', INR_IZR_INZ, Z2Nat.id by assumption. reflexivity. }
  assert (Hnear : Rabs (IZR n' - nT) < 1).
  { apply Rabs_def1; destruct Hn' as [->| ->];
      rewrite ?Hce, ?plus_IZR; lra. }
  set (avg := fst (mean_plastic_concentration sc pt)
              / snd (mean_plastic_concentration sc pt)) in *.
  assert (Havg0 : 0 < avg)
    by (rewrite <- Havg; now apply targets_pos).
  split; [rewrite Hsum, HINR; reflexivity|].
  assert (HmT : mass_target W H mean_scale sc pt = avg * nT).
  { rewrite <- Havg. fold nT. field. lra. }
  rewrite Hsum, HmT.
  replace (avg * IZR n' - avg * nT) with (avg * (IZR n' - nT)) by ring.
  rewrite Rabs_mult, (Rabs_pos_eq avg) by lra.
  rewrite <- (Rmult_1_r avg) at 2.
  apply Rmult_lt_compat_l; assumption.
Qed.

(** X3.  In a successful run of the sampling path, the particles of every
    sampled bucket weigh together [massConc / countConc] times their
    number: the mean particle mass of a bucket is the ratio of its two table
    entries, whatever the region and the scale.  The bucket's mass is
    therefore less than one such mean particle away from the bucket's
    target [mean_scale * massConc * area]. *)
Theorem X3_bucket_mass_follows_table
  fuel W H boat_pos boat_box centered mean_scale relevant_size_classes
  s c pieces c' :
  generate_trash fuel W H boat_pos boat_box centered mean_scale
                 relevant_size_classes false s c = Ok (pieces, c') ->
  exists segs,
    pieces = concat segs /\
    Forall2 (fun b seg => Forall (in_bucket b) seg /\
                          mass_per_piece_from_table W H mean_scale b seg)
            (buckets relevant_size_classes) segs.
Proof.
  intros Hrun. apply generate_trash_Ok in Hrun as (segs & -> & Hruns).
  exists segs. split; [reflexivity|].
  eapply buckets_run_Forall2; [|exact Hruns].
  intros sc pt c0 c1 seg Hb. split.
  - eapply bucket_run_in_bucket; eauto.
  - eapply bucket_run_mass_per_piece; eauto.
Qed.

Lemma X3_witness :
  generate_trash 1 1000 100 (0, 0) (10, 10) false 1 [SizeClass.MEGA] false
                 demo_source (mkCursor 0 0)
  = Ok ([demo_piece], mkCursor 5 3) /\
  exists segs,
    [demo_piece] = concat segs /\
    Forall2 (fun b seg => Forall (in_bucket b) seg /\
                          mass_per_piece_from_table 1000 100 1 b seg)
            (buckets [SizeClass.MEGA]) segs.
Proof.
  split; [exact demo_run|].
  exact (X3_bucket_mass_follows_table
           1 1000 100 (0, 0) (10, 10) false 1 [SizeClass.MEGA]
           demo_source (mkCursor 0 0) [demo_piece] (mkCursor 5 3) demo_run).
Defined.

(** ** X4: what a run reads from the generators *)

Lemma drawn_pieces_py fuel W H boat_pos boat_box centered s sc pt lo hi raw :
  drawn_pieces fuel W H boat_pos boat_box centered s sc pt lo hi raw ->
  (lo + 3 * length raw <= hi)%nat.
Proof.
  induction 1 as [|lo r t hi rest Ht Hrest IH]; cbn [length]; lia.
Qed.

Lemma buckets_run_accounts fuel W H boat_pos boat_box centered mean_scale s
  bs c c' segs :
  buckets_run fuel W H boat_pos boat_box centered mean_scale s bs c c' segs
  -> np_pos c'
     = (np_pos c + length (sampled_buckets W H mean_scale bs)
        + length (concat segs))%nat /\
     (py_pos c + 3 * length (concat segs) <= py_pos c')%nat.
Proof.
  induction 1 as [|sc pt bs c c1 c2 seg segs Hb Hbs [IHnp IHpy]];
    cbn [concat sampled_buckets filter length fst snd].
  - split; lia.
  - rewrite length_app. fold (sampled_buckets W H mean_scale bs).
    destruct Hb as [Hn -> -> | n raw Hpos _ _ _ _ Hraw Hnp ->].
    + assert (Rltb 0 (n_target W H mean_scale sc pt) = false) as ->
        by (now apply Rltb_false).
      cbn [length]. split; lia.
    + assert (Rltb 0 (n_target W H mean_scale sc pt) = true) as ->
        by (now apply Rltb_true).
      apply drawn_pieces_py in Hraw.
      rewrite length_map. cbn [length]. split; lia.
Qed.

(** X4.  A successful run of the sampling path reads from NumPy's generator one
    value per bucket with a positive target (the rounding) and one per
    particle (its material), and from [random] at least three values per
    particle; the particles are as many as the NumPy values not spent on
    rounding. *)
Theorem X4_generator_values_read
  fuel W H boat_pos boat_box centered mean_scale relevant_size_classes
  s c pieces c' :
  generate_trash fuel W H boat_pos boat_box centered mean_scale
                 relevant_size_classes false s c = Ok (pieces, c') ->
  np_pos c'
  = (np_pos c
     + length (sampled_buckets W H mean_scale
                               (buckets relevant_size_classes))
     + length pieces)%nat /\
  (py_pos c + 3 * length pieces <= py_pos c')%nat.
Proof.
  intros Hrun. apply generate_trash_Ok in Hrun as (segs & -> & Hruns).
  eapply buckets_run_accounts; eauto.
Qed.

Lemma X4_witness :
  generate_trash 1 1000 100 (0, 0) (10, 10) false 1 [SizeClass.MEGA] false
                 demo_source (mkCursor 0 0)
  = Ok ([demo_piece], mkCursor 5 3) /\
  np_pos (mkCursor 5 3)
  = (np_pos (mkCursor 0 0)
     + length (sampled_buckets 1000 100 1 (buckets [SizeClass.MEGA]))
     + length [demo_piece])%nat.
Proof.
  split; [exact demo_run|].
  exact (proj1 (X4_generator_values_read
           1 1000 100 (0, 0) (10, 10) false 1 [SizeClass.MEGA]
           demo_source (mkCursor 0 0) [demo_piece] (mkCursor 5 3) demo_run)).
Defined.

(** ** X6: class lists compose, earlier particles are left alone *)

Lemma omap_id {A} (r : outcome (A * cursor)) : omap (fun a => a) r = r.
Proof. now destruct r as [[a c]| |]. Qed.

Lemma bind_omap {A A' B B'} (f : A -> A') (g : B -> B')
  (m1 : M A') (m2 : M A) (k1 : A' -> M B') (k2 : A -> M B) s1 s2 c :
  m1 s1 c = omap f (m2 s2 c) ->
  (forall a c1, m2 s2 c = Ok (a, c1) ->
                k1 (f a) s1 c1 = omap g (k2 a s2 c1)) ->
  bind m1 k1 s1 c = omap g (bind m2 k2 s2 c).
Proof.
  intros Hm Hk. unfold bind. rewrite Hm.
  destruct (m2 s2 c) as [[a c1]| |]; cbn [omap]; auto.
Qed.

Lemma bind_same {A B B'} (g : B -> B') (m : M A)
  (k1 : A -> M B') (k2 : A -> M B) s c :
  (forall a c1, m s c = Ok (a, c1) -> k1 a s c1 = omap g (k2 a s c1)) ->
  bind m k1 s c = omap g (bind m k2 s c).
Proof.
  intros Hk. apply (bind_omap (fun a => a)); [|exact Hk].
  now rewrite omap_id.
Qed.

Section Frame.

Variable fuel : nat.
Variables W H : R.
Variables boat_pos boat_box : R * R.
Variable centered : bool.
Variable mean_scale : R.
Variable s : source.
Variable pre : list Trash.t.

Lemma draw_pieces_frame sc pt n : forall l acc c,
  draw_pieces fuel W H boat_pos boat_box centered sc pt n (pre ++ l) acc s c
  = omap (fun la => (pre ++ fst la, snd la))
         (draw_pieces fuel W H boat_pos boat_box centered sc pt n l acc s c).
Proof.
  induction n as [|n IH]; intros l acc c; cbn [draw_pieces];
    [reflexivity|].
  apply bind_same. intros piece c1 _.
  rewrite <- app_assoc. apply IH.
Qed.

Lemma bucket_frame sc pt l c :
  bucket fuel W H boat_pos boat_box centered mean_scale sc pt (pre ++ l) s c
  = omap (app pre)
         (bucket fuel W H boat_pos boat_box centered mean_scale sc pt l s c).
Proof.
  unfold bucket. destruct (Rltb 0 _); [|reflexivity].
  apply bind_same. intros avg c0 _.
  apply bind_same. intros n c1 _.
  eapply bind_omap; [apply draw_pieces_frame|].
  intros [l' acc] c2 Hdraw. cbn [fst snd].
  apply draw_pieces_Ok in Hdraw as (raw & -> & Hlen & _ & _ & _).
  replace (length (pre ++ l ++ raw) - Z.to_nat n)%nat
    with (length (pre ++ l)) by (rewrite !length_app; lia).
  replace (length (l ++ raw) - Z.to_nat n)%nat
    with (length l) by (rewrite length_app; lia).
  rewrite <- Hlen.
  pose proof (assign_mass_slice (avg * IZR n) acc s c2 raw (pre ++ l) [])
    as H1.
  pose proof (assign_mass_slice (avg * IZR n) acc s c2 raw l []) as H2.
  rewrite !app_nil_r in H1, H2. rewrite <- !app_assoc in H1.
  rewrite H1, H2. cbn [omap]. reflexivity.
Qed.

Lemma plastic_type_loop_frame sc pts : forall l c,
  plastic_type_loop fuel W H boat_pos boat_box centered mean_scale
                    sc pts (pre ++ l) s c
  = omap (app pre)
         (plastic_type_loop fuel W H boat_pos boat_box centered mean_scale
                            sc pts l s c).
Proof.
  induction pts as [|pt pts IH]; intros l c; cbn [plastic_type_loop];
    [reflexivity|].
  eapply bind_omap; [apply bucket_frame|].
  intros l' c1 _. apply IH.
Qed.

Lemma size_class_loop_frame rel : forall l c,
  size_class_loop fuel W H boat_pos boat_box centered mean_scale
                  rel (pre ++ l) s c
  = omap (app pre)
         (size_class_loop fuel W H boat_pos boat_box centered mean_scale
                          rel l s c).
Proof.
  induction rel as [|sc rel IH]; intros l c; cbn [size_class_loop];
    [reflexivity|].
  eapply bind_omap; [apply plastic_type_loop_frame|].
  intros l' c1 _. apply IH.
Qed.

End Frame.

Lemma size_class_loop_app fuel W H boat_pos boat_box centered mean_scale s
  rel1 rel2 : forall l c,
  size_class_loop fuel W H boat_pos boat_box centered mean_scale
                  (rel1 ++ rel2) l s c
  = bind (size_class_loop fuel W H boat_pos boat_box centered mean_scale
                          rel1 l)
         (size_class_loop fuel W H boat_pos boat_box centered mean_scale
                          rel2) s c.
Proof.
  induction rel1 as [|sc rel1 IH]; intros l c;
    cbn [app size_class_loop]; [reflexivity|].
  unfold bind.
  destruct (plastic_type_loop _ _ _ _ _ _ _ _ _ _ _ _) as [[l1 c1]| |];
    [|reflexivity|reflexivity].
  rewrite IH. reflexivity.
Qed.

(** X6.  Generating for the class list [rel1 ++ rel2] is generating for [rel1]
    and then, with the generators where that call left them, for [rel2],
    the second list appended to the first; an exception or an endless
    redraw in either part is that of the whole.  The buckets of [rel2]
    therefore leave the particles of [rel1] untouched, and what they produce
    does not depend on what is already in the list. *)
Theorem X6_class_lists_compose
  fuel W H boat_pos boat_box centered mean_scale rel1 rel2 s c :
  generate_trash fuel W H boat_pos boat_box centered mean_scale
                 (rel1 ++ rel2) false s c
  = then_append
      (generate_trash fuel W H boat_pos boat_box centered mean_scale
                      rel1 false s c)
      (generate_trash fuel W H boat_pos boat_box centered mean_scale
                      rel2 false s).
Proof.
  unfold generate_trash, then_append.
  rewrite size_class_loop_app. unfold bind.
  destruct (size_class_loop _ _ _ _ _ _ _ rel1 _ _ _) as [[out1 c1]| |];
    [|reflexivity|reflexivity].
  rewrite <- (app_nil_r out1) at 1.
  apply size_class_loop_frame.
Qed.

(** ** X7: the centered frame is the corner frame moved *)

Lemma Rltb_ext (a b a' b' : R) :
  (a < b <-> a' < b') -> Rltb a b = Rltb a' b'.
Proof.
  intros Hiff. destruct (Rltb a' b') eqn:E.
  - apply Rltb_true. apply Rltb_true in E. tauto.
  - apply Rltb_false. apply Rltb_false in E.
    destruct (Rle_lt_dec b a) as [Hle|Hlt]; [assumption|].
    apply Hiff in Hlt. lra.
Qed.

Section Centered.

Variable fuel : nat.
Variables W H : R.
Variables boat_pos boat_box : R * R.
Variable mean_scale : R.
Variable s : source.

Local Abbreviation corner_boat := (corner_boat W H boat_pos).
Local Abbreviation shift := (shift W H).
Local Abbreviation move := (translate (- (W / 2)) (- (H / 2))).

Lemma draw_pos_centered c :
  draw_pos W H true s c = omap shift (draw_pos W H false s c).
Proof.
  rewrite !draw_pos_run. cbn [omap]. f_equal. f_equal.
  unfold pos_at, shift. cbn [pos_range fst snd]. f_equal; field.
Qed.

Lemma in_boat_centered pos :
  in_boat boat_pos boat_box (shift pos) = in_boat corner_boat boat_box pos.
Proof.
  unfold in_boat, shift, corner_boat. cbn [fst snd].
  f_equal; [f_equal; [f_equal|]|]; apply Rltb_ext; lra.
Qed.

Lemma redraw_centered k : forall pos c,
  redraw W H boat_pos boat_box true k (shift pos) s c
  = omap shift (redraw W H corner_boat boat_box false k pos s c).
Proof.
  induction k as [|k IH]; intros pos c; cbn [redraw];
    rewrite in_boat_centered;
    destruct (in_boat corner_boat boat_box pos); try reflexivity.
  eapply bind_omap; [apply draw_pos_centered|].
  intros pos' c1 _. apply IH.
Qed.

Lemma draw_piece_centered sc pt c :
  draw_piece fuel W H boat_pos boat_box true sc pt s c
  = omap move (draw_piece fuel W H corner_boat boat_box false sc pt s c).
Proof.
  unfold draw_piece.
  eapply bind_omap; [apply draw_pos_centered|]. intros pos c1 _.
  eapply bind_omap; [apply redraw_centered|]. intros pos' c2 _.
  apply bind_same. intros size c3 _.
  apply bind_same. intros density c4 _.
  reflexivity.
Qed.

Lemma draw_pieces_centered sc pt n : forall l acc c,
  draw_pieces fuel W H boat_pos boat_box true sc pt n (map move l) acc s c
  = omap (fun la => (map move (fst la), snd la))
         (draw_pieces fuel W H corner_boat boat_box false sc pt n l acc
                      s c).
Proof.
  induction n as [|n IH]; intros l acc c; cbn [draw_pieces];
    [reflexivity|].
  eapply bind_omap; [apply draw_piece_centered|].
  intros piece c1 _.
  change (map move l ++ [move piece]) with (map move l ++ map move [piece]).
  rewrite <- map_app. apply IH.
Qed.

Lemma with_mass_move target proportion raw :
  map (with_mass target proportion) (map move raw)
  = map move (map (with_mass target proportion) raw).
Proof. rewrite !map_map. reflexivity. Qed.

Lemma bucket_centered sc pt l c :
  bucket fuel W H boat_pos boat_box true mean_scale sc pt (map move l) s c
  = omap (map move)
         (bucket fuel W H corner_boat boat_box false mean_scale sc pt l
                 s c).
Proof.
  unfold bucket. destruct (Rltb 0 _); [|reflexivity].
  apply bind_same. intros avg c0 _.
  apply bind_same. intros n c1 _.
  eapply bind_omap; [apply draw_pieces_centered|].
  intros [l' acc] c2 Hdraw. cbn [fst snd].
  apply draw_pieces_Ok in Hdraw as (raw & -> & Hlen & _ & _ & _).
  rewrite length_map.
  replace (length (l ++ raw) - Z.to_nat n)%nat
    with (length l) by (rewrite length_app; lia).
  rewrite <- Hlen.
  pose proof (assign_mass_slice (avg * IZR n) acc s c2 (map move raw)
                (map move l) []) as H1.
  pose proof (assign_mass_slice (avg * IZR n) acc s c2 raw l []) as H2.
  rewrite !app_nil_r, !length_map in H1. rewrite !app_nil_r in H2.
  rewrite map_app, H1, H2. cbn [omap].
  now rewrite with_mass_move, map_app.
Qed.

Lemma plastic_type_loop_centered sc pts : forall l c,
  plastic_type_loop fuel W H boat_pos boat_box true mean_scale
                    sc pts (map move l) s c
  = omap (map move)
         (plastic_type_loop fuel W H corner_boat boat_box false mean_scale
                            sc pts l s c).
Proof.
  induction pts as [|pt pts IH]; intros l c; cbn [plastic_type_loop];
    [reflexivity|].
  eapply bind_omap; [apply bucket_centered|].
  intros l' c1 _. apply IH.
Qed.

Lemma size_class_loop_centered rel : forall l c,
  size_class_loop fuel W H boat_pos boat_box true mean_scale
                  rel (map move l) s c
  = omap (map move)
         (size_class_loop fuel W H corner_boat boat_box false mean_scale
                          rel l s c).
Proof.
  induction rel as [|sc rel IH]; intros l c; cbn [size_class_loop];
    [reflexivity|].
  eapply bind_omap; [apply plastic_type_loop_centered|].
  intros l' c1 _. apply IH.
Qed.

End Centered.

(** X7.  In exact arithmetic the centered frame is the corner frame moved by
    [(-W/2, -H/2)]: a centered call with the exclusion rectangle centred at
    [boat_pos] has the outcome of the corner call with the rectangle
    centred at [boat_pos + (W/2, H/2)], every particle moved by
    [(-W/2, -H/2)] and otherwise unchanged, the generators advanced
    alike. *)
Theorem X7_centered_is_corner_translated
  fuel W H boat_pos boat_box mean_scale relevant_size_classes s c :
  generate_trash fuel W H boat_pos boat_box true mean_scale
                 relevant_size_classes false s c
  = omap (map (translate (- (W / 2)) (- (H / 2))))
         (generate_trash fuel W H
                         (fst boat_pos + W / 2, snd boat_pos + H / 2)
                         boat_box false mean_scale
                         relevant_size_classes false s c).
Proof.
  unfold generate_trash.
  exact (size_class_loop_centered fuel W H boat_pos boat_box mean_scale s
           relevant_size_classes [] c).
Qed.

(** ** X8: the material follows the renormalised shares *)

Lemma searchsorted_cumsum (t u : R) : forall (p : list R) (acc : R),
  0 < t -> acc / t <= u -> u < (acc + Rsum p) / t ->
  let i := searchsorted_right (map (fun c => c / t) (cumsum_from acc p)) u in
  (i < length p)%nat /\
  (acc + prefix_sum p i) / t <= u < (acc + prefix_sum p (S i)) / t.
Proof.
  unfold prefix_sum, Rsum.
  induction p as [|w p IH]; intros acc Ht Hlo Hhi; cbn [fold_right] in Hhi.
  - rewrite Rplus_0_r in Hhi. lra.
  - cbn [cumsum_from map searchsorted_right length].
    destruct (Rltb u ((acc + w) / t)) eqn:Hu.
    + apply Rltb_true in Hu. cbn [firstn fold_right].
      rewrite !Rplus_0_r. split; [lia|]. split; assumption.
    + apply Rltb_false in Hu.
      destruct (IH (acc + w) Ht Hu) as [Hi Hint].
      { now rewrite Rplus_assoc. }
      split; [lia|].
      cbn [firstn fold_right] in Hint |- *.
      rewrite <- !Rplus_assoc. exact Hint.
Qed.

Lemma np_random_choice_run {A} (a : list A) (p : list R) s c :
  a <> [] -> length p = length a -> (forall w, In w p -> 0 <= w) ->
  Rsum p = 1 ->
  np_random_choice a p s c
  = list_getitem a (choice_index p (np_random s (np_pos c))) s (np_next c).
Proof.
  intros Hne Hlen Hpos Hsum. unfold np_random_choice.
  destruct a as [|a0 a']; [congruence|].
  cbn [length Nat.eqb]. rewrite Hlen. cbn [length].
  rewrite Nat.eqb_refl. cbn [negb].
  assert (existsb (fun w => Rltb w 0) p = false) as ->.
  { destruct (existsb _ p) eqn:E; [|reflexivity].
    apply existsb_exists in E as (w & Hin & Hw).
    apply Rltb_true in Hw. specialize (Hpos w Hin). lra. }
  assert (Reqb (Rsum p) 1 = true) as -> by (now apply Reqb_true).
  cbn [negb]. reflexivity.
Qed.

Lemma prefix_sum_map_div (ws : list R) (total : R) (i : nat) :
  prefix_sum (map (fun w => w / total) ws) i = prefix_sum ws i / total.
Proof.
  unfold prefix_sum. rewrite firstn_map. apply Rsum_map_div.
Qed.

Lemma prefix_sum_S (ws : list R) (i : nat) (w : R) :
  nth_error ws i = Some w -> prefix_sum ws (S i) = prefix_sum ws i + w.
Proof.
  unfold prefix_sum, Rsum. revert i.
  induction ws as [|w0 ws IH]; intros [|i] Hnth; try discriminate.
  - injection Hnth as ->. cbn [firstn fold_right]. lra.
  - cbn [nth_error] in Hnth.
    change (firstn (S (S i)) (w0 :: ws)) with (w0 :: firstn (S i) ws).
    change (firstn (S i) (w0 :: ws)) with (w0 :: firstn i ws).
    cbn [fold_right]. rewrite (IH i Hnth). lra.
Qed.



(** ** X10: the tally and the report of [plot_trash] *)

Lemma SizeClass_eqb_eq a b : SizeClass.eqb a b = true <-> a = b.
Proof. destruct a, b; split; intros E; try reflexivity; discriminate. Qed.

Lemma PlasticType_eqb_eq a b : PlasticType.eqb a b = true <-> a = b.
Proof. destruct a, b; split; intros E; try reflexivity; discriminate. Qed.

Lemma dict_get_set {K V} (eqb : K -> K -> bool)
  (Heqb : forall a b, eqb a b = true <-> a = b) (d : dict K V) k v k' :
  dict_get eqb (dict_set eqb d k v) k'
  = if eqb k k' then Some v else dict_get eqb d k'.
Proof.
  induction d as [|[k0 v0] d IH]; cbn [dict_set dict_get].
  - reflexivity.
  - destruct (eqb k0 k) eqn:E0; cbn [dict_get].
    + apply Heqb in E0. subst k0. now destruct (eqb k k').
    + destruct (eqb k0 k') eqn:E1; [|exact IH].
      apply Heqb in E1. subst k0.
      destruct (eqb k k') eqn:E2; [|reflexivity].
      apply Heqb in E2. subst k'.
      assert (eqb k k = true) by now apply Heqb. congruence.
Qed.

Lemma lookup_count_zero sc pt :
  lookup_count (zero_piece_counts) sc pt = Some 0%nat.
Proof. destruct sc, pt; reflexivity. Qed.

Lemma in_bucketb_true sc pt t :
  in_bucketb sc pt t = true <-> in_bucket (sc, pt) t.
Proof.
  unfold in_bucketb, in_bucket. cbn [fst snd].
  rewrite andb_true_iff, SizeClass_eqb_eq, PlasticType_eqb_eq. tauto.
Qed.

Lemma tally_piece_run cl pc piece (f : SizeClass.t -> PlasticType.t -> nat)
  s c :
  (forall sc pt, lookup_count pc sc pt = Some (f sc pt)) ->
  exists pc',
    tally_piece (cl, pc) piece s c
    = Ok ((set_add cl (Trash.size_class piece), pc'), c) /\
    forall sc pt,
      lookup_count pc' sc pt
      = Some (f sc pt + count_pieces sc pt [piece])%nat.
Proof.
  intros Hf. unfold tally_piece. cbn [fst snd].
  pose proof (Hf (Trash.size_class piece) (Trash.plastic_type piece)) as Hp.
  unfold lookup_count in Hp.
  destruct (dict_get SizeClass.eqb pc (Trash.size_class piece))
    as [row|] eqn:Hrow; [|discriminate].
  eexists. split.
  - unfold bind, getitem, ret. rewrite Hp. reflexivity.
  - intros sc pt. unfold lookup_count, count_pieces, in_bucketb.
    cbn [filter]. rewrite (dict_get_set _ SizeClass_eqb_eq).
    destruct (SizeClass.eqb (Trash.size_class piece) sc) eqn:Esc.
    + rewrite (dict_get_set _ PlasticType_eqb_eq).
      apply SizeClass_eqb_eq in Esc. subst sc.
      destruct (PlasticType.eqb (Trash.plastic_type piece) pt) eqn:Ept;
        cbn [andb length].
      * apply PlasticType_eqb_eq in Ept. subst pt. reflexivity.
      * specialize (Hf (Trash.size_class piece) pt).
        unfold lookup_count in Hf. rewrite Hrow in Hf. rewrite Hf.
        f_equal. lia.
    + cbn [andb length]. specialize (Hf sc pt).
      unfold lookup_count in Hf. rewrite Hf. f_equal. lia.
Qed.

Lemma count_pieces_cons sc pt piece rest :
  count_pieces sc pt (piece :: rest)
  = (count_pieces sc pt [piece] + count_pieces sc pt rest)%nat.
Proof.
  unfold count_pieces. cbn [filter].
  destruct (in_bucketb sc pt piece); reflexivity.
Qed.

Lemma tally_run pieces : forall cl pc f s c,
  (forall sc pt, lookup_count pc sc pt = Some (f sc pt)) ->
  exists pc',
    tally pieces (cl, pc) s c
    = Ok ((fold_left set_add (map Trash.size_class pieces) cl, pc'), c) /\
    forall sc pt,
      lookup_count pc' sc pt
      = Some (f sc pt + count_pieces sc pt pieces)%nat.
Proof.
  induction pieces as [|piece rest IH]; intros cl pc f s c Hf.
  - exists pc. split; [reflexivity|].
    intros sc pt. rewrite Hf. unfold count_pieces. cbn [filter length].
    f_equal. lia.
  - destruct (tally_piece_run cl pc piece f s c Hf) as (pc1 & Hrun1 & Hf1).
    destruct (IH (set_add cl (Trash.size_class piece)) pc1 _ s c Hf1)
      as (pc' & Hrun & Hf').
    exists pc'. split.
    + cbn [tally map fold_left]. rewrite bind_run with (1 := Hrun1).
      exact Hrun.
    + intros sc pt. rewrite (count_pieces_cons sc pt piece rest), Hf'.
      f_equal. lia.
Qed.

Lemma existsb_eqb_In sc l :
  existsb (SizeClass.eqb sc) l = true <-> In sc l.
Proof.
  rewrite existsb_exists. split.
  - intros (x & Hin & E). apply SizeClass_eqb_eq in E. now subst x.
  - intros Hin. exists sc. split; [assumption|now apply SizeClass_eqb_eq].
Qed.

Lemma set_add_In l sc x : In x (set_add l sc) <-> In x l \/ x = sc.
Proof.
  unfold set_add. destruct (existsb (SizeClass.eqb sc) l) eqn:E.
  - apply existsb_eqb_In in E. split; [tauto|].
    intros [Hin| ->]; assumption.
  - rewrite in_app_iff. cbn [In]. intuition congruence.
Qed.

Lemma set_add_NoDup l sc : NoDup l -> NoDup (set_add l sc).
Proof.
  intros Hnd. unfold set_add.
  destruct (existsb (SizeClass.eqb sc) l) eqn:E; [assumption|].
  assert (Hnin : ~ In sc l).
  { intros Hin. apply existsb_eqb_In in Hin. congruence. }
  clear E. induction Hnd as [|a l Ha Hnd IH]; cbn [app].
  - constructor; [intros []|constructor].
  - constructor.
    + rewrite in_app_iff. cbn [In]. intros [Hin|[->|[]]]; [tauto|].
      apply Hnin. now left.
    + apply IH. intros Hin. apply Hnin. now right.
Qed.

Lemma fold_set_add classes : forall l,
  NoDup l ->
  NoDup (fold_left set_add classes l) /\
  forall x, In x (fold_left set_add classes l) <-> In x l \/ In x classes.
Proof.
  induction classes as [|sc classes IH]; intros l Hnd; cbn [fold_left].
  - split; [assumption|]. intros x. cbn [In]. tauto.
  - destruct (IH (set_add l sc) (set_add_NoDup l sc Hnd)) as [Hnd' Hin].
    split; [assumption|]. intros x. rewrite Hin, set_add_In. cbn [In].
    intuition congruence.
Qed.

Lemma report_row_run pc g sc s c : forall types,
  (forall sc pt, lookup_count pc sc pt = Some (g sc pt)) ->
  report_row pc sc types s c
  = Ok (map (fun pt => (sc, pt, g sc pt)) types, c).
Proof.
  intros types Hg. induction types as [|pt types IH]; [reflexivity|].
  cbn [report_row map]. specialize (Hg sc pt). unfold lookup_count in Hg.
  destruct (dict_get SizeClass.eqb pc sc) as [row|]; [|discriminate].
  rewrite (bind_run _ _ s c row c) by reflexivity.
  rewrite (bind_run _ _ s c (g sc pt) c) by (rewrite Hg; reflexivity).
  rewrite bind_run with (1 := IH). reflexivity.
Qed.

Lemma report_run pc g s c : forall order,
  (forall sc pt, lookup_count pc sc pt = Some (g sc pt)) ->
  report pc order s c
  = Ok (flat_map (fun sc => map (fun pt => (sc, pt, g sc pt))
                                PlasticType.members) order, c).
Proof.
  intros order Hg. induction order as [|sc order IH]; [reflexivity|].
  cbn [report flat_map].
  rewrite bind_run with (1 := report_row_run pc g sc s c _ Hg).
  rewrite bind_run with (1 := IH). reflexivity.
Qed.

(** The lines [plot_trash] prints, in closed form. *)
Lemma plot_trash_run set_order W H pieces centered s c :
  plot_trash set_order W H pieces centered s c
  = Ok (flat_map (fun sc => map (fun pt => (sc, pt, count_pieces sc pt pieces))
                                PlasticType.members)
                 (set_order (fold_left set_add
                                       (map Trash.size_class pieces) [])),
        c).
Proof.
  unfold plot_trash. fold zero_piece_counts.
  destruct (tally_run pieces [] (zero_piece_counts)
                      (fun _ _ => 0%nat) s c lookup_count_zero)
    as (pc' & Hrun & Hf).
  rewrite bind_run with (1 := Hrun). cbn [fst snd].
  apply report_run. intros sc pt. rewrite Hf. reflexivity.
Qed.

Lemma count_pieces_one sc pt t :
  count_pieces sc pt [t] = if in_bucketb sc pt t then 1%nat else 0%nat.
Proof.
  unfold count_pieces. cbn [filter]. now destruct (in_bucketb sc pt t).
Qed.

Lemma count_class sc pieces :
  list_sum (map (fun pt => count_pieces sc pt pieces) PlasticType.members)
  = length (filter (in_class sc) pieces).
Proof.
  cbn [PlasticType.members map list_sum fold_right].
  induction pieces as [|t rest IH]; [reflexivity|].
  rewrite !(count_pieces_cons _ _ t rest), !count_pieces_one.
  cbn [filter]. unfold in_bucketb, in_class at 1.
  destruct (SizeClass.eqb (Trash.size_class t) sc); cbn [andb length].
  - destruct (Trash.plastic_type t); cbn [PlasticType.eqb]; lia.
  - lia.
Qed.

Lemma count_classes pieces : forall order,
  NoDup order ->
  list_sum (map snd
    (flat_map (fun sc => map (fun pt => (sc, pt, count_pieces sc pt pieces))
                             PlasticType.members) order))
  = length (filter (fun t => existsb (SizeClass.eqb (Trash.size_class t))
                                     order) pieces).
Proof.
  induction 1 as [|sc order Hnin Hnd IH]; cbn [flat_map].
  - cbn [map list_sum fold_right existsb].
    induction pieces as [|t rest IHp]; [reflexivity|exact IHp].
  - rewrite map_app, list_sum_app, IH, map_map. cbn [snd].
    rewrite count_class. clear IH.
    induction pieces as [|t rest IHp]; [reflexivity|].
    cbn [filter existsb] in IHp |- *. unfold in_class at 1.
    destruct (SizeClass.eqb (Trash.size_class t) sc) eqn:E.
    + apply SizeClass_eqb_eq in E.
      assert (existsb (SizeClass.eqb (Trash.size_class t)) order = false)
        as ->.
      { destruct (existsb _ order) eqn:E'; [|reflexivity].
        apply existsb_eqb_In in E'. congruence. }
      cbn [orb length]. lia.
    + cbn [orb].
      destruct (existsb (SizeClass.eqb (Trash.size_class t)) order);
        cbn [length]; lia.
Qed.

Lemma filter_all {A} (P : A -> bool) (l : list A) :
  (forall t, In t l -> P t = true) -> filter P l = l.
Proof.
  induction l as [|a l IH]; intros HP; [reflexivity|].
  cbn [filter]. rewrite (HP a) by now left.
  f_equal. apply IH. intros t Ht. apply HP. now right.
Qed.

Lemma plot_trash_lines set_order W H pieces centered s c :
  lists_the_set set_order ->
  exists order,
    plot_trash set_order W H pieces centered s c
    = Ok (flat_map (fun sc =>
                      map (fun pt => (sc, pt, count_pieces sc pt pieces))
                          PlasticType.members) order, c) /\
    NoDup order /\
    (forall sc, In sc order
                <-> exists t, In t pieces /\ Trash.size_class t = sc).
Proof.
  intros Hord.
  destruct (fold_set_add (map Trash.size_class pieces) [] (NoDup_nil _))
    as [Hnd Hin].
  destruct (Hord _ Hnd) as [Hnd' Hin'].
  eexists. split; [apply plot_trash_run|]. split; [assumption|].
  intros sc. rewrite Hin', Hin, in_map_iff. cbn [In]. split.
  - intros [[]|(t & E & Ht)]. now exists t.
  - intros (t & Ht & E). right. now exists t.
Qed.

(** X10.  Whatever the particles and whatever the order in which the set of
    size classes is iterated, [plot_trash] raises nothing and prints, for
    every size class that has a particle in the list and for no other, one
    line per plastic type in the order H, N, P, F (also for the types with
    no particle), each with the number of particles of that class and type;
    no class is printed twice and the printed counts add up to the length of
    the list. *)
Theorem X10_report_counts_every_piece_once
  set_order W H pieces centered s c :
  lists_the_set set_order ->
  exists order,
    plot_trash set_order W H pieces centered s c
    = Ok (flat_map (fun sc =>
                      map (fun pt => (sc, pt, count_pieces sc pt pieces))
                          PlasticType.members) order, c) /\
    NoDup order /\
    (forall sc, In sc order
                <-> exists t, In t pieces /\ Trash.size_class t = sc) /\
    reported_total
      (flat_map (fun sc =>
                   map (fun pt => (sc, pt, count_pieces sc pt pieces))
                       PlasticType.members) order)
    = length pieces.
Proof.
  intros Hord.
  destruct (plot_trash_lines set_order W H pieces centered s c Hord)
    as (order & Hrun & Hnd & Hcl).
  exists order. repeat split; try assumption; try (now apply Hcl).
  unfold reported_total. rewrite count_classes by assumption.
  f_equal. apply filter_all. intros t Ht.
  apply existsb_eqb_In, Hcl. now exists t.
Qed.

Lemma rev_lists_the_set : lists_the_set (@rev SizeClass.t).
Proof.
  intros l Hnd. split; [now apply NoDup_rev|].
  intros x. symmetry. apply in_rev.
Qed.

Lemma X10_witness :
  lists_the_set (@rev SizeClass.t) /\
  exists order,
    plot_trash (@rev SizeClass.t) 1000 100 [demo_piece; demo_piece] false
               demo_source (mkCursor 5 3)
    = Ok (flat_map (fun sc =>
                      map (fun pt =>
                             (sc, pt,
                              count_pieces sc pt [demo_piece; demo_piece]))
                          PlasticType.members) order, mkCursor 5 3) /\
    NoDup order /\
    (forall sc, In sc order
                <-> exists t, In t [demo_piece; demo_piece]
                              /\ Trash.size_class t = sc) /\
    reported_total
      (flat_map (fun sc =>
                   map (fun pt =>
                          (sc, pt,
                           count_pieces sc pt [demo_piece; demo_piece]))
                       PlasticType.members) order)
    = length [demo_piece; demo_piece].
Proof.
  split; [exact rev_lists_the_set|].
  exact (X10_report_counts_every_piece_once
           (@rev SizeClass.t) 1000 100 [demo_piece; demo_piece] false
           demo_source (mkCursor 5 3) rev_lists_the_set).
Defined.

(** ** X11: the report of a generated list *)

Lemma count_pieces_app sc pt l1 l2 :
  count_pieces sc pt (l1 ++ l2)
  = (count_pieces sc pt l1 + count_pieces sc pt l2)%nat.
Proof. unfold count_pieces. now rewrite filter_app, length_app. Qed.

Lemma count_pieces_own sc pt seg :
  Forall (in_bucket (sc, pt)) seg -> count_pieces sc pt seg = length seg.
Proof.
  intros Hall. unfold count_pieces. f_equal. apply filter_all.
  intros t Ht. apply in_bucketb_true.
  rewrite Forall_forall in Hall. now apply Hall.
Qed.

Lemma count_pieces_other b sc pt seg :
  Forall (in_bucket b) seg -> b <> (sc, pt) -> count_pieces sc pt seg = 0%nat.
Proof.
  intros Hall Hne. unfold count_pieces.
  induction Hall as [|t seg Ht Hall IH]; [reflexivity|].
  cbn [filter]. destruct (in_bucketb sc pt t) eqn:E; [|exact IH].
  apply in_bucketb_true in E. destruct b as [sc' pt'].
  destruct Ht as [E1 E2], E as [E3 E4]. cbn [fst snd] in *.
  exfalso. apply Hne. congruence.
Qed.

Lemma count_pieces_absent bs segs sc pt :
  Forall2 (fun b seg => Forall (in_bucket b) seg) bs segs ->
  ~ In (sc, pt) bs ->
  count_pieces sc pt (concat segs) = 0%nat.
Proof.
  induction 1 as [|b seg bs segs Hb Hbs IH]; intros Hnin; [reflexivity|].
  cbn [concat]. rewrite count_pieces_app, IH.
  - rewrite (count_pieces_other b) by
      (try assumption; intros ->; apply Hnin; now left).
    reflexivity.
  - intros Hin. apply Hnin. now right.
Qed.

Lemma count_pieces_segment (P : SizeClass.t * PlasticType.t -> nat -> Prop)
  bs segs sc pt :
  Forall2 (fun b seg => Forall (in_bucket b) seg /\ P b (length seg))
          bs segs ->
  NoDup bs -> In (sc, pt) bs ->
  P (sc, pt) (count_pieces sc pt (concat segs)).
Proof.
  induction 1 as [|b seg bs segs [Hb HP] Hbs IH]; intros Hnd Hin;
    [destruct Hin|].
  inversion Hnd as [|b' bs' Hnin Hnd']; subst.
  cbn [concat]. rewrite count_pieces_app.
  assert (Hall : Forall2 (fun b seg => Forall (in_bucket b) seg) bs segs).
  { eapply Forall2_impl; [|exact Hbs]. now intros b0 seg0 [H0 _]. }
  destruct Hin as [->|Hin].
  - rewrite (count_pieces_own sc pt seg Hb).
    rewrite (count_pieces_absent bs segs sc pt Hall Hnin).
    now rewrite Nat.add_0_r.
  - rewrite (count_pieces_other b sc pt seg Hb) by
      (intros ->; now apply Hnin).
    now apply IH.
Qed.

Lemma In_buckets rel sc pt : In (sc, pt) (buckets rel) <-> In sc rel.
Proof.
  unfold buckets. rewrite in_flat_map. split.
  - intros (sc' & Hin & Hp). apply in_map_iff in Hp as (pt' & E & _).
    now inversion E; subst.
  - intros Hin. exists sc. split; [assumption|]. apply in_map.
    destruct pt; cbn [PlasticType.members In]; tauto.
Qed.

Lemma NoDup_buckets rel : NoDup rel -> NoDup (buckets rel).
Proof.
  induction 1 as [|sc rel Hnin Hnd IH]; [constructor|].
  unfold buckets. cbn [flat_map]. fold (buckets rel).
  cbn [PlasticType.members map app].
  repeat constructor; cbn [In];
    try (intros Hin; repeat (destruct Hin as [Hin|Hin]; [discriminate|]);
         apply In_buckets in Hin; contradiction).
  exact IH.
Qed.

Lemma bucket_run_length fuel W H boat_pos boat_box centered mean_scale s
  sc pt c c' seg :
  bucket_run fuel W H boat_pos boat_box centered mean_scale s sc pt c c' seg
  -> rounded_count W H mean_scale (sc, pt) (length seg).
Proof.
  unfold rounded_count. cbn [fst snd].
  intros [Hn -> _ | n raw Hpos _ _ Hn Hlen _ _ ->].
  - split; [reflexivity|]. intros Hpos. lra.
  - split; [intros Hle; lra|]. intros _.
    rewrite length_map, Hlen.
    pose proof (Zfloor_bound (n_target W H mean_scale sc pt)) as [Hf1 Hf2].
    assert (Hfl : (0 <= Zfloor (n_target W H mean_scale sc pt))%Z).
    { apply Z.lt_succ_r. apply lt_IZR. rewrite succ_IZR. lra. }
    assert (Hce : (0 <= Zceil (n_target W H mean_scale sc pt))%Z).
    { pose proof (Zceil_bound (n_target W H mean_scale sc pt)) as [_ Hc2].
      apply le_IZR. lra. }
    destruct (Rltb _ _); subst n; rewrite Z2Nat.id by assumption; tauto.
Qed.

(** X11.  [plot_trash] applied to what a successful run of the sampling
    path returned, for a class list without repetition: every printed line
    is about a class of the list, and its count is the rounded target of the
    bucket, that is 0 when the target count is not positive and otherwise
    the floor or the ceiling of [mean_scale * numConc * W/1000 * H/1000]. *)
Theorem X11_report_shows_rounded_targets
  fuel W H boat_pos boat_box centered mean_scale relevant_size_classes
  s c pieces c' set_order :
  lists_the_set set_order ->
  NoDup relevant_size_classes ->
  generate_trash fuel W H boat_pos boat_box centered mean_scale
                 relevant_size_classes false s c = Ok (pieces, c') ->
  exists lines,
    plot_trash set_order W H pieces centered s c' = Ok (lines, c') /\
    forall sc pt n, In (sc, pt, n) lines ->
      In sc relevant_size_classes /\
      rounded_count W H mean_scale (sc, pt) n.
Proof.
  intros Hord Hnd Hrun.
  destruct (plot_trash_lines set_order W H pieces centered s c' Hord)
    as (order & Hplot & _ & Hcl).
  eexists. split; [exact Hplot|].
  apply generate_trash_Ok in Hrun as (segs & -> & Hruns).
  assert (Hall : Forall2 (fun b seg =>
                            Forall (in_bucket b) seg /\
                            rounded_count W H mean_scale b (length seg))
                         (buckets relevant_size_classes) segs).
  { eapply (buckets_run_Forall2 fuel W H boat_pos boat_box centered
              mean_scale s
              (fun b seg => Forall (in_bucket b) seg /\
                            rounded_count W H mean_scale b (length seg)));
      [|exact Hruns].
    intros sc pt c0 c1 seg Hb. split.
    - eapply bucket_run_in_bucket; eauto.
    - eapply bucket_run_length; eauto. }
  assert (Hall' : Forall2 (fun b seg => Forall (in_bucket b) seg)
                          (buckets relevant_size_classes) segs).
  { eapply Forall2_impl; [|exact Hall]. now intros b0 seg0 [H0 _]. }
  intros sc pt n Hin. apply in_flat_map in Hin as (sc' & Hsc & Hin).
  apply in_map_iff in Hin as (pt' & E & _). inversion E; subst sc' pt' n.
  clear E.
  assert (Hrel : In sc relevant_size_classes).
  { apply Hcl in Hsc as (t & Ht & Esc).
    destruct (in_dec (fun a b : SizeClass.t =>
                        ltac:(decide equality) : {a = b} + {a <> b})
                     sc relevant_size_classes) as [Hin|Hnin];
      [assumption|exfalso].
    assert (Hz : count_pieces sc (Trash.plastic_type t) (concat segs)
                 = 0%nat).
    { apply (count_pieces_absent _ _ _ _ Hall').
      intros Hb. apply In_buckets in Hb. contradiction. }
    unfold count_pieces in Hz. apply length_zero_iff_nil in Hz.
    assert (Hf : In t (filter (in_bucketb sc (Trash.plastic_type t))
                              (concat segs))).
    { apply filter_In. split; [assumption|].
      apply in_bucketb_true. now split. }
    rewrite Hz in Hf. destruct Hf. }
  split; [assumption|].
  apply (count_pieces_segment (rounded_count W H mean_scale)
           (buckets relevant_size_classes) segs sc pt Hall).
  - now apply NoDup_buckets.
  - now apply In_buckets.
Qed.

Lemma X11_witness :
  lists_the_set (@rev SizeClass.t) /\
  NoDup [SizeClass.MEGA] /\
  generate_trash 1 1000 100 (0, 0) (10, 10) false 1 [SizeClass.MEGA] false
                 demo_source (mkCursor 0 0)
  = Ok ([demo_piece], mkCursor 5 3) /\
  exists lines,
    plot_trash (@rev SizeClass.t) 1000 100 [demo_piece] false
               demo_source (mkCursor 5 3) = Ok (lines, mkCursor 5 3) /\
    forall sc pt n, In (sc, pt, n) lines ->
      In sc [SizeClass.MEGA] /\ rounded_count 1000 100 1 (sc, pt) n.
Proof.
  assert (Hnd : NoDup [SizeClass.MEGA])
    by (constructor; [intros []|constructor]).
  split; [exact rev_lists_the_set|]. split; [exact Hnd|].
  split; [exact demo_run|].
  exact (X11_report_shows_rounded_targets
           1 1000 100 (0, 0) (10, 10) false 1 [SizeClass.MEGA]
           demo_source (mkCursor 0 0) [demo_piece] (mkCursor 5 3)
           (@rev SizeClass.t) rev_lists_the_set Hnd demo_run).
Defined.

(** ** X12: [calculate_expected_collection] and the integral behind it *)

Lemma sensing_distance_at_eq k u :
  0 < k ->
  sensing_distance_at k u
  = exp (u * (ln 10 / 2)) * exp (- (1 / 4 * ln k)).
Proof.
  intros Hk. unfold sensing_distance_at, sensing_distance, Rpower.
  assert (He : 0 < exp (u * ln 10)) by apply exp_pos.
  change (exp (u * ln 10) ^ 2 / k) with (exp (u * ln 10) ^ 2 * / k).
  rewrite ln_mult;
    [|apply pow_lt; assumption|apply Rinv_0_lt_compat; assumption].
  rewrite ln_Rinv by assumption.
  rewrite ln_pow by assumption. rewrite ln_exp.
  rewrite <- exp_plus. f_equal. change (INR 2) with (1 + 1). field.
Qed.

(** The distance is the one at which size and distance meet the sensor's
    threshold. *)
Lemma sensing_distance_threshold k D :
  0 < k -> 0 < D -> D ^ 2 / sensing_distance k D ^ 4 = k.
Proof.
  intros Hk HD. unfold sensing_distance.
  assert (Hx : 0 < D ^ 2 / k).
  { apply Rdiv_lt_0_compat; [apply pow_lt|]; assumption. }
  rewrite <- (Rpower_pow 4 (Rpower (D ^ 2 / k) (1 / 4)))
    by (unfold Rpower; apply exp_pos).
  rewrite Rpower_mult.
  replace (1 / 4 * INR 4) with 1
    by (change (INR 4) with (1 + 1 + 1 + 1); field).
  rewrite Rpower_1 by assumption. field. split; lra.
Qed.

Lemma derivable_pt_lim_sensing_primitive k u :
  0 < k ->
  derivable_pt_lim (sensing_primitive k) u (sensing_distance_at k u).
Proof.
  intros Hk. rewrite sensing_distance_at_eq by assumption.
  unfold sensing_primitive.
  set (c := exp (- (1 / 4 * ln k))).
  pose proof ln_10_pos as H10.
  replace (exp (u * (ln 10 / 2)) * c)
    with (0 * (exp (u * (ln 10 / 2)) * c)
          + 2 / ln 10
            * ((exp (u * (ln 10 / 2)) * (1 * (ln 10 / 2) + u * 0)) * c
               + exp (u * (ln 10 / 2)) * 0))
    by (field; lra).
  apply (derivable_pt_lim_mult (fun _ => 2 / ln 10)
           (fun u => exp (u * (ln 10 / 2)) * c)).
  - apply derivable_pt_lim_const.
  - apply (derivable_pt_lim_mult (fun u => exp (u * (ln 10 / 2)))
             (fun _ => c)).
    + apply (derivable_pt_lim_comp (fun u => u * (ln 10 / 2)) exp).
      * apply (derivable_pt_lim_mult id (fun _ => ln 10 / 2)).
        -- apply derivable_pt_lim_id.
        -- apply derivable_pt_lim_const.
      * apply derivable_pt_lim_exp.
    + apply derivable_pt_lim_const.
Qed.

Section SensingIntegral.

Variable k : R.
Hypothesis k_pos : 0 < k.

Lemma derivable_sensing_primitive : derivable (sensing_primitive k).
Proof.
  intros u. exists (sensing_distance_at k u).
  now apply derivable_pt_lim_sensing_primitive.
Qed.

Lemma derive_sensing_primitive u :
  derive (sensing_primitive k) derivable_sensing_primitive u
  = sensing_distance_at k u.
Proof.
  unfold derive. apply derive_pt_eq_0.
  now apply derivable_pt_lim_sensing_primitive.
Qed.

Lemma sensing_distance_at_continuous : continuity (sensing_distance_at k).
Proof.
  intros u.
  apply continuity_pt_locally_ext
    with (f := fun u => exp (u * (ln 10 / 2)) * exp (- (1 / 4 * ln k)))
         (a := 1); [lra| |reg].
  intros y _. symmetry. now apply sensing_distance_at_eq.
Qed.

Lemma derive_sensing_primitive_continuous :
  continuity (derive (sensing_primitive k) derivable_sensing_primitive).
Proof.
  intros u.
  apply continuity_pt_locally_ext with (f := sensing_distance_at k) (a := 1);
    [lra | | apply sensing_distance_at_continuous].
  intros y _. symmetry. apply derive_sensing_primitive.
Qed.

Lemma log_uniform_mean_sensing_distance_eq a b :
  a <= b ->
  log_uniform_mean_sensing_distance k a b
  = 2 / ln 10 * (sensing_distance_at k b - sensing_distance_at k a)
    / (b - a).
Proof.
  intros Hab. unfold log_uniform_mean_sensing_distance. f_equal.
  set (F := mkC1 derive_sensing_primitive_continuous).
  rewrite (RiemannInt_P18 (sensing_distance_integrable k a b)
             (RiemannInt_P32 F a b) Hab).
  - rewrite FTC_Riemann. cbn [c1 F].
    rewrite !sensing_distance_at_eq by assumption.
    unfold sensing_primitive. lra.
  - intros x _. symmetry. apply derive_sensing_primitive.
Qed.

(** Line 279 computes the mean of the sensing distance over the log-uniform
    size distribution between [Dmin] and [Dmax]. *)
Lemma avg_sensing_distance_run Dmin Dmax s c :
  0 < Dmin -> Dmin < Dmax ->
  avg_sensing_distance k Dmin Dmax s c
  = Ok (log_uniform_mean_sensing_distance k (log10 Dmin) (log10 Dmax), c).
Proof.
  intros Hmin Hlt.
  pose proof (log10_lt Dmin Dmax Hmin Hlt) as Hlog.
  pose proof ln_10_pos as H10.
  assert (H1 : log10 Dmax - log10 Dmin <> 0) by lra.
  assert (H2 : k <> 0) by lra.
  assert (H3 : ln 10 <> 0) by lra.
  unfold avg_sensing_distance.
  rewrite bind_run with (1 := truediv_run 1 _ s c H1).
  rewrite bind_run with (1 := truediv_run (Dmax ^ 2) _ s c H2).
  rewrite bind_run with (1 := truediv_run (Dmin ^ 2) _ s c H2).
  rewrite truediv_run by exact H3. f_equal. f_equal.
  rewrite log_uniform_mean_sensing_distance_eq by lra.
  unfold sensing_distance_at, sensing_distance.
  rewrite !Rpower_10_log10 by lra.
  field. split; lra.
Qed.

End SensingIntegral.

Lemma small_trash_mass_concentration_value :
  sum_mass_concentration [SizeClass.MESO; SizeClass.MACRO] 0 = 20.7343.
Proof.
  cbn [sum_mass_concentration sum_mass_concentration_row
       PlasticType.members mean_plastic_concentration fst].
  lra.
Qed.

Lemma megaplastic_mass_concentration_value :
  sum_mass_concentration_row SizeClass.MEGA PlasticType.members 0 = 46.34.
Proof.
  cbn [sum_mass_concentration_row PlasticType.members
       mean_plastic_concentration fst].
  lra.
Qed.

(** X12.  [calculate_expected_collection] raises nothing and reads no random
    value.  The average sensing distance of line 279 is the mean, over
    megaplastic sizes with log10 size uniform between 0.5 m and 2 m, of the
    distance at which a piece meets the sensor's threshold
    [k = (1/60^4)/0.5] (the Riemann integral, divided by the length of the
    interval).  The printed masses per kilometre are
    [4.5/1000 * 20.7343] for small trash and
    [2 * mean * sin(65 degrees) / 1000 * 46.34] for megaplastics; the second
    block is the first multiplied by [default_mean_scale], and each rate in
    kg/h is the block's total times [1.5/1000*3600]. *)
Theorem X12_expected_collection_uses_mean_sensing_distance s c :
  let mean_distance :=
    log_uniform_mean_sensing_distance (1 / 60 ^ 4 / 0.5)
      (log10 (50 / 100)) (log10 (200 / 100)) in
  let small := 4.5 / 1000 * 20.7343 in
  let mega := 2 * (mean_distance * sin (65 * PI / 180)) / 1000 * 46.34 in
  calculate_expected_collection s c
  = Ok ((printed_block small mega (small + mega),
         printed_block (small * default_mean_scale)
                       (mega * default_mean_scale)
                       ((small + mega) * default_mean_scale)), c).
Proof.
  intros mean_distance small mega.
  unfold calculate_expected_collection.
  assert (Hh : 0.5 <> 0) by lra.
  rewrite bind_run with (1 := truediv_run (1 ^ 2 / 60 ^ 4) _ s c Hh).
  assert (Hk : 0 < 1 ^ 2 / 60 ^ 4 / 0.5) by lra.
  assert (Hmin : 0 < 50 / 100) by lra.
  assert (Hlt : 50 / 100 < 200 / 100) by lra.
  cbn [size_ranges fst snd].
  rewrite bind_run
    with (1 := avg_sensing_distance_run _ Hk (50 / 100) (200 / 100) s c
                 Hmin Hlt).
  rewrite small_trash_mass_concentration_value,
    megaplastic_mass_concentration_value.
  replace (1 ^ 2 / 60 ^ 4 / 0.5) with (1 / 60 ^ 4 / 0.5) by lra.
  fold mean_distance.
  unfold ret. f_equal. f_equal.
  assert (Hmega : mean_distance * sin (130 / 2 * PI / 180) * 2 / 1000 * 46.34
                  = mega).
  { unfold mega. replace (130 / 2 * PI / 180) with (65 * PI / 180) by lra.
    lra. }
  rewrite Hmega. reflexivity.
Qed.

(** ** X13: [main] *)

Lemma calculate_expected_collection_Ok s c :
  exists printed, calculate_expected_collection s c = Ok (printed, c).
Proof.
  unfold calculate_expected_collection.
  assert (Hh : 0.5 <> 0) by lra.
  rewrite bind_run with (1 := truediv_run (1 ^ 2 / 60 ^ 4) _ s c Hh).
  assert (Hk : 0 < 1 ^ 2 / 60 ^ 4 / 0.5) by lra.
  assert (Hmin : 0 < 50 / 100) by lra.
  assert (Hlt : 50 / 100 < 200 / 100) by lra.
  cbn [size_ranges fst snd].
  rewrite bind_run
    with (1 := avg_sensing_distance_run _ Hk (50 / 100) (200 / 100) s c
                 Hmin Hlt).
  eexists. reflexivity.
Qed.

(** In the call [main] makes, a bucket's target count is zero or lies
    strictly between two consecutive integers. *)
Lemma main_targets b :
  In b (buckets [SizeClass.MESO; SizeClass.MACRO; SizeClass.MEGA]) ->
  n_target 100 100 default_mean_scale (fst b) (snd b) = 0 \/
  IZR (main_floor b) < n_target 100 100 default_mean_scale (fst b) (snd b)
  /\ n_target 100 100 default_mean_scale (fst b) (snd b)
     < IZR (main_floor b) + 1.
Proof.
  unfold buckets. cbn [flat_map map app PlasticType.members In].
  unfold n_target, default_mean_scale, total_mean_plastic_concentration.
  intros Hin.
  repeat (destruct Hin as [<-|Hin];
          [cbn [fst snd mean_plastic_concentration main_floor]; lra|]).
  destruct Hin.
Qed.

Lemma main_no_integer_target :
  ~ integer_target 100 100 default_mean_scale
      (buckets [SizeClass.MESO; SizeClass.MACRO; SizeClass.MEGA]).
Proof.
  intros (b & Hin & Hpos & Hint).
  destruct (main_targets b Hin) as [Hz|[Hlo Hhi]]; [lra|].
  rewrite (Zfloor_eq (main_floor b)) in Hint by lra. lra.
Qed.

Lemma main_rounded_count b n :
  In b (buckets [SizeClass.MESO; SizeClass.MACRO; SizeClass.MEGA]) ->
  rounded_count 100 100 default_mean_scale b n ->
  (main_floor b <= Z.of_nat n <= main_floor b + 1)%Z /\
  (n_target 100 100 default_mean_scale (fst b) (snd b) = 0 -> n = 0%nat).
Proof.
  intros Hin [Hzero Hpos].
  destruct (main_targets b Hin) as [Hz|[Hlo Hhi]].
  - rewrite (Hzero ltac:(lra)). split; [|reflexivity].
    revert Hin. unfold buckets.
    cbn [flat_map map app PlasticType.members In].
    intros Hin.
    repeat (destruct Hin as [<-|Hin];
            [revert Hz; unfold n_target, default_mean_scale,
               total_mean_plastic_concentration;
             cbn [fst snd mean_plastic_concentration main_floor];
             intros Hz; try lra; cbn; lia|]).
    destruct Hin.
  - split; [|intros Hz; exfalso].
    + assert (Hge : 0 <= IZR (main_floor b)).
      { destruct b as [[] []]; cbn [main_floor]; lra. }
      destruct Hpos as [E|E]; [lra| |].
      * rewrite E, (Zfloor_eq (main_floor b)) by lra. lia.
      * rewrite E, (Zceil_eq (main_floor b + 1)) by (rewrite plus_IZR; lra).
        lia.
    + assert (Hge : 0 <= IZR (main_floor b)).
      { destruct b as [[] []]; cbn [main_floor]; lra. }
      lra.
Qed.

Lemma main_count_bounds b n :
  In b (buckets [SizeClass.MESO; SizeClass.MACRO; SizeClass.MEGA]) ->
  rounded_count 100 100 default_mean_scale b n ->
  (main_floor b <= Z.of_nat n <= main_ceil b)%Z.
Proof.
  intros Hin Hr.
  destruct (main_rounded_count b n Hin Hr) as [Hb Hz].
  revert Hin Hb Hz. unfold buckets.
  cbn [flat_map map app PlasticType.members In].
  unfold n_target, default_mean_scale, total_mean_plastic_concentration.
  intros Hin.
  repeat (destruct Hin as [<-|Hin];
          [cbn [fst snd mean_plastic_concentration main_floor main_ceil];
           intros Hb Hz;
           first [ lia | rewrite Hz by lra; cbn; lia ]|]).
  destruct Hin.
Qed.

Lemma concat_length_bounds {B} (lo hi : B -> Z) bs
  (segs : list (list Trash.t)) :
  Forall2 (fun b seg => (lo b <= Z.of_nat (length seg) <= hi b)%Z) bs segs ->
  (Zsum (map lo bs) <= Z.of_nat (length (concat segs))
   <= Zsum (map hi bs))%Z.
Proof.
  induction 1 as [|b seg bs segs Hb Hbs IH];
    cbn [map Zsum fold_right concat length]; [lia|].
  rewrite length_app, Nat2Z.inj_add. fold (Zsum (map lo bs)).
  fold (Zsum (map hi bs)). lia.
Qed.

Lemma Forall2_with_In {A B} (R : A -> B -> Prop) l l' :
  Forall2 R l l' -> Forall2 (fun a b => In a l /\ R a b) l l'.
Proof.
  induction 1 as [|a b l l' HR Hl IH]; constructor.
  - split; [now left|assumption].
  - eapply Forall2_impl; [|exact IH].
    intros a0 b0 [Hin H0]. split; [now right|assumption].
Qed.

Lemma no_integer_target_returns fuel W H boat_pos boat_box centered
  mean_scale rel s c :
  fst boat_box = 0 \/ snd boat_box = 0 ->
  (forall i, np_random s i < 1) ->
  ~ integer_target W H mean_scale (buckets rel) ->
  exists pieces c',
    generate_trash fuel W H boat_pos boat_box centered mean_scale rel false
                   s c = Ok (pieces, c').
Proof.
  intros Hdeg Hnp Hint.
  pose proof (explained_size_class_loop fuel W H boat_pos boat_box
                centered mean_scale s rel [] c) as Hex.
  unfold generate_trash.
  destruct (size_class_loop _ _ _ _ _ _ _ _ _ _ _) as [[pieces c']|e|].
  - now exists pieces, c'.
  - exfalso. destruct e; cbn in Hex.
    + tauto.
    + tauto.
    + destruct Hex as (i & Hi). specialize (Hnp i). lra.
    + tauto.
  - exfalso. cbn in Hex. destruct Hex as (pos & Hin).
    rewrite in_boat_degenerate in Hin by assumption. discriminate.
Qed.

(** X13.  The script's [main], whatever the two generators return as long as
    NumPy's values are below 1, and in whatever order the set of size
    classes is iterated: no exception is raised (none of the target counts
    of its call is a positive integer) and no position is redrawn, so that
    [random] is read exactly three times per particle; between 321 and 330
    particles are generated; the report lists classes among MESO, MACRO and
    MEGA only, and its counts add up to the number of particles. *)
Theorem X13_main_completes fuel set_order s c :
  lists_the_set set_order ->
  (forall i, np_random s i < 1) ->
  exists printed lines c',
    main fuel set_order s c = Ok ((printed, lines), c') /\
    (321 <= reported_total lines <= 330)%nat /\
    py_pos c' = (py_pos c + 3 * reported_total lines)%nat /\
    forall sc pt n, In (sc, pt, n) lines ->
      In sc [SizeClass.MESO; SizeClass.MACRO; SizeClass.MEGA].
Proof.
  intros Hord Hnp.
  destruct (calculate_expected_collection_Ok s c) as (printed & Hcalc).
  assert (Hdeg : fst (0, 0) = 0 \/ snd (0, 0) = 0) by (now left).
  set (rel := [SizeClass.MESO; SizeClass.MACRO; SizeClass.MEGA]).
  destruct (no_integer_target_returns fuel 100 100 (0, 0) (0, 0) false
              default_mean_scale rel s c Hdeg Hnp main_no_integer_target)
    as (pieces & c' & Hgen).
  destruct (plot_trash_lines set_order 100 100 pieces false s c' Hord)
    as (order & Hplot & Hnd & Hcl).
  set (lines := flat_map _ order) in Hplot.
  assert (Htotal : reported_total lines = length pieces).
  { unfold reported_total, lines. rewrite count_classes by assumption.
    f_equal. apply filter_all. intros t Ht.
    apply existsb_eqb_In, Hcl. now exists t. }
  exists printed, lines, c'. split.
  { unfold main. rewrite bind_run with (1 := Hcalc). cbv zeta.
    fold rel. rewrite bind_run with (1 := Hgen).
    rewrite bind_run with (1 := Hplot). reflexivity. }
  rewrite Htotal.
  pose proof Hgen as Hrun.
  apply generate_trash_Ok in Hrun as (segs & Hpieces & Hruns).
  assert (Hin_b : Forall2 (fun b seg => Forall (in_bucket b) seg)
                          (buckets rel) segs).
  { eapply (buckets_run_Forall2 fuel 100 100 (0, 0) (0, 0) false
              default_mean_scale s
              (fun b seg => Forall (in_bucket b) seg)); [|exact Hruns].
    intros sc pt c0 c1 seg Hb. eapply bucket_run_in_bucket; eauto. }
  split; [|split].
  - assert (Hlen : Forall2 (fun b seg =>
                              rounded_count 100 100 default_mean_scale b
                                            (length seg))
                           (buckets rel) segs).
    { eapply (buckets_run_Forall2 fuel 100 100 (0, 0) (0, 0) false
                default_mean_scale s
                (fun b seg => rounded_count 100 100 default_mean_scale b
                                            (length seg))); [|exact Hruns].
      intros sc pt c0 c1 seg Hb. eapply bucket_run_length; eauto. }
    apply Forall2_with_In in Hlen.
    assert (Hb : Forall2 (fun b seg =>
                            (main_floor b <= Z.of_nat (length seg)
                             <= main_ceil b)%Z) (buckets rel) segs).
    { eapply Forall2_impl; [|exact Hlen].
      intros b seg [Hin Hr]. now apply main_count_bounds. }
    apply concat_length_bounds in Hb. rewrite <- Hpieces in Hb.
    change (Zsum (map main_floor (buckets rel))) with 321%Z in Hb.
    change (Zsum (map main_ceil (buckets rel))) with 330%Z in Hb.
    lia.
  - rewrite Hpieces.
    eapply buckets_run_no_reject; [|exact Hruns].
    intros pos. now apply in_boat_degenerate.
  - intros sc pt n Hin. apply in_flat_map in Hin as (sc' & Hsc & Hin).
    apply in_map_iff in Hin as (pt' & E & _). inversion E; subst sc' pt' n.
    clear E. apply Hcl in Hsc as (t & Ht & Esc).
    destruct sc; [exfalso|cbn [rel In]; tauto..].
    assert (Hz : count_pieces SizeClass.MICRO (Trash.plastic_type t)
                              (concat segs) = 0%nat).
    { apply (count_pieces_absent _ _ _ _ Hin_b).
      intros Hb. apply In_buckets in Hb.
      cbn [rel In] in Hb. intuition discriminate. }
    unfold count_pieces in Hz. apply length_zero_iff_nil in Hz.
    assert (Hf : In t (filter (in_bucketb SizeClass.MICRO
                                          (Trash.plastic_type t))
                              (concat segs))).
    { apply filter_In. split; [now rewrite <- Hpieces|].
      apply in_bucketb_true. now split. }
    rewrite Hz in Hf. destruct Hf.
Qed.

Lemma X13_witness :
  lists_the_set (@rev SizeClass.t) /\
  (forall i, np_random demo_source i < 1) /\
  exists printed lines c',
    main 0 (@rev SizeClass.t) demo_source (mkCursor 0 0)
    = Ok ((printed, lines), c') /\
    (321 <= reported_total lines <= 330)%nat /\
    py_pos c' = (py_pos (mkCursor 0 0) + 3 * reported_total lines)%nat /\
    forall sc pt n, In (sc, pt, n) lines ->
      In sc [SizeClass.MESO; SizeClass.MACRO; SizeClass.MEGA].
Proof.
  split; [exact rev_lists_the_set|]. split; [exact demo_np_below_1|].
  exact (X13_main_completes 0 (@rev SizeClass.t) demo_source (mkCursor 0 0)
           rev_lists_the_set demo_np_below_1).
Defined.

(** ** The rejection loop in any arithmetic *)

Lemma in_boat_fl_spec ops boat_pos boat_box pos :
  in_boat_fl ops boat_pos boat_box pos = true
  <-> strictly_between (boat_bounds ops boat_pos boat_box) pos.
Proof.
  unfold in_boat_fl, strictly_between, boat_bounds. cbn [fst snd].
  rewrite !andb_true_iff, !Rltb_true. tauto.
Qed.

Lemma in_boat_exact boat_pos boat_box pos :
  in_boat boat_pos boat_box pos = in_boat_fl exact_ops boat_pos boat_box pos.
Proof. reflexivity. Qed.

Lemma draw_pos_exact W H centered s c :
  draw_pos W H centered s c = draw_pos_fl exact_ops W H centered s c.
Proof. destruct centered; reflexivity. Qed.

Lemma redraw_exact W H boat_pos boat_box centered k pos s c :
  redraw W H boat_pos boat_box centered k pos s c
  = redraw_fl exact_ops W H boat_pos boat_box centered k pos s c.
Proof. destruct centered; reflexivity. Qed.

Lemma draw_size_exact sc s c :
  draw_size sc s c = draw_size_fl exact_ops sc s c.
Proof. reflexivity. Qed.

(** What the loop returns fails its test. *)
Lemma redraw_fl_Ok ops W H boat_pos boat_box centered k :
  forall pos s c pos' c',
  redraw_fl ops W H boat_pos boat_box centered k pos s c = Ok (pos', c') ->
  in_boat_fl ops boat_pos boat_box pos' = false.
Proof.
  induction k as [|k IH]; intros pos s c pos' c'; cbn [redraw_fl];
    destruct (in_boat_fl ops boat_pos boat_box pos) eqn:Hin.
  - discriminate.
  - intros [= <- <-]. exact Hin.
  - intros Hrun. apply bind_Ok in Hrun as (pos1 & c1 & _ & Hrun).
    eapply IH; eauto.
  - intros [= <- <-]. exact Hin.
Qed.

Lemma in_boat_fl_degenerate ops boat_pos boat_box pos :
  zero_is_exact ops ->
  fst boat_box = 0 \/ snd boat_box = 0 ->
  in_boat_fl ops boat_pos boat_box pos = false.
Proof.
  intros [Hdiv Hzero] Hdeg.
  destruct (in_boat_fl ops boat_pos boat_box pos) eqn:Hin; [|reflexivity].
  apply in_boat_fl_spec in Hin. unfold strictly_between, boat_bounds in Hin.
  cbn [fst snd] in Hin.
  destruct Hdeg as [Hz|Hz]; rewrite Hz, Hdiv in Hin;
    rewrite (proj1 (Hzero _)), (proj2 (Hzero _)) in Hin; lra.
Qed.

Lemma exact_ops_zero_is_exact : zero_is_exact exact_ops.
Proof.
  split; [cbn [exact_ops fl_div]; lra|].
  intros x. cbn [exact_ops fl_sub fl_add]. split; lra.
Qed.

(** ** C4: the exclusion rectangle *)

Lemma mega_n_density s c :
  np_random s (np_pos c) = 9/10 ->
  draw_density SizeClass.MEGA PlasticType.N s c = Ok (900.5, np_next c).
Proof.
  intros Hu. unfold draw_density, materials_of.
  cbv beta iota delta [bind ret getitem dict_get plastic_materials
                       SizeClass.eqb PlasticType.eqb map fst snd Rsum
                       fold_right].
  Rltb_decide. cbv iota.
  rewrite np_random_choice_two_run by lra.
  rewrite Hu. Rltb_decide. reflexivity.
Qed.

Lemma edge_run boat_pos boat_box :
  in_boat boat_pos boat_box (500, 0) = false ->
  generate_trash 1 1000 100 boat_pos boat_box false 1 [SizeClass.MEGA] false
                 edge_source (mkCursor 0 0)
  = Ok ([edge_piece], mkCursor 3 3).
Proof.
  intros Hout.
  assert (Hpos : pos_at 1000 100 false edge_source (0 + 2 * 0) = (500, 0)).
  { unfold pos_at, pos_range.
    cbn [fst snd edge_source py_random Nat.add Nat.mul]. f_equal; lra. }
  unfold generate_trash.
  cbn [size_class_loop plastic_type_loop PlasticType.members].
  erewrite bind_run.
  2:{ erewrite bind_run.
      2:{ apply bucket_eval with (fl := 0%Z) (n := 0%Z) (raw := []) (acc := 0).
          - unfold n_target. cbn [mean_plastic_concentration snd]. lra.
          - unfold n_target. cbn [mean_plastic_concentration snd]. lra.
          - cbn [edge_source np_random np_pos]. lra.
          - unfold n_target.
            cbn [mean_plastic_concentration snd edge_source np_random np_pos].
            Rltb_decide. reflexivity.
          - reflexivity. }
      cbn [app map].
      erewrite bind_run.
      2:{ apply bucket_eval with (fl := 0%Z) (n := 1%Z).
          - unfold n_target. cbn [mean_plastic_concentration snd]. lra.
          - unfold n_target. cbn [mean_plastic_concentration snd]. lra.
          - cbn [edge_source np_random np_pos np_next]. lra.
          - unfold n_target.
            cbn [mean_plastic_concentration snd edge_source np_random np_pos
                 np_next].
            Rltb_decide. reflexivity.
          - change (Z.to_nat 1) with 1%nat. cbn [draw_pieces].
            erewrite bind_run.
            2:{ apply draw_piece_run with (r := 0%nat) (lo := 0%nat).
                - lia.
                - intros i Hi. lia.
                - rewrite Hpos. exact Hout.
                - apply mega_n_density. reflexivity. }
            reflexivity. }
      cbn [app map].
      erewrite bind_run.
      2:{ apply bucket_skip. unfold n_target.
          cbn [mean_plastic_concentration snd]. lra. }
      erewrite bind_run.
      2:{ apply bucket_skip. unfold n_target.
          cbn [mean_plastic_concentration snd]. lra. }
      reflexivity. }
  unfold ret. f_equal. f_equal. f_equal.
  unfold with_mass, weight, Trash.set_mass, edge_piece.
  cbn [Trash.x Trash.y Trash.size Trash.mass Trash.density Trash.size_class
       Trash.plastic_type Nat.add Nat.mul].
  assert (Hsize : size_at edge_source SizeClass.MEGA 2 = 0.5).
  { unfold size_at, log_size_at.
    cbn [edge_source py_random size_ranges fst snd].
    rewrite Rmult_0_r, Rplus_0_r, Rpower_10_log10 by lra. lra. }
  rewrite Hsize.
  unfold pos_at, pos_range, mass_target, n_target.
  cbn [edge_source py_random fst snd mean_plastic_concentration].
  f_equal; lra.
Qed.

(** A candidate on the edge of the rectangle is kept: the particle at
    [(500, 0)] lies on the rectangle [[400, 500] x [-5, 5]], not strictly
    outside it. *)
Lemma C4_counterexample :
  generate_trash 1 1000 100 (450, 0) (100, 10) false 1 [SizeClass.MEGA]
                 false edge_source (mkCursor 0 0)
  = Ok ([edge_piece], mkCursor 3 3) /\
  Trash.x edge_piece = fst (450, 0) + fst (100, 10) / 2 /\
  ~ strictly_outside (450, 0) (100, 10)
      (Trash.x edge_piece, Trash.y edge_piece).
Proof.
  split.
  { apply edge_run. unfold in_boat. cbn [fst snd]. Rltb_decide.
    reflexivity. }
  cbn [edge_piece Trash.x Trash.y fst snd]. split; [lra|].
  unfold strictly_outside. cbn [fst snd]. lra.
Qed.

(** C4 (amended).  In whatever arithmetic the bounds are computed, the test
    of line 205 holds exactly when the candidate is strictly between the
    computed bounds on both axes, and the loop returns only a position that
    fails it: a returned position is never strictly inside the rectangle,
    but it may lie on its boundary.  When halving and adding zero are exact
    and the rectangle has zero width or zero height, the test is never
    true and the loop returns its first candidate.  In the model of the
    whole function every particle's position is a position the loop
    returned; with a degenerate rectangle a run reads exactly three values
    of [random] per particle and gives the same result whatever the number
    of redraws allowed, none included. *)
Theorem C4_positions_avoid_exclusion_rectangle
  ops fuel W H boat_pos boat_box centered :
  (forall pos,
     in_boat_fl ops boat_pos boat_box pos = true
     <-> strictly_between (boat_bounds ops boat_pos boat_box) pos) /\
  (forall pos s c pos' c',
     redraw_fl ops W H boat_pos boat_box centered fuel pos s c
     = Ok (pos', c') ->
     ~ strictly_between (boat_bounds ops boat_pos boat_box) pos') /\
  (zero_is_exact ops -> fst boat_box = 0 \/ snd boat_box = 0 ->
   forall pos s c,
     in_boat_fl ops boat_pos boat_box pos = false /\
     redraw_fl ops W H boat_pos boat_box centered fuel pos s c
     = Ok (pos, c)) /\
  (forall mean_scale relevant_size_classes s c pieces c',
     generate_trash fuel W H boat_pos boat_box centered mean_scale
                    relevant_size_classes false s c = Ok (pieces, c') ->
     Forall (fun t => exists j r np,
               redraw_fl exact_ops W H boat_pos boat_box centered fuel
                         (pos_at W H centered s j) s (mkCursor (j + 2) np)
               = Ok ((Trash.x t, Trash.y t), mkCursor (j + 2 * r + 2) np))
            pieces /\
     (fst boat_box = 0 \/ snd boat_box = 0 ->
      py_pos c' = (py_pos c + 3 * length pieces)%nat /\
      forall fuel',
        generate_trash fuel' W H boat_pos boat_box centered mean_scale
                       relevant_size_classes false s c = Ok (pieces, c'))).
Proof.
  split; [intros pos; apply in_boat_fl_spec|]. split; [|split].
  - intros pos s c pos' c' Hrun Hin. apply redraw_fl_Ok in Hrun.
    apply in_boat_fl_spec in Hin. congruence.
  - intros Hzero Hdeg pos s c.
    assert (Hfree : in_boat_fl ops boat_pos boat_box pos = false)
      by (now apply in_boat_fl_degenerate).
    split; [assumption|].
    destruct fuel; cbn [redraw_fl]; rewrite Hfree; reflexivity.
  - intros mean_scale rel s c pieces c' Hrun. split.
    + apply generate_trash_pieces in Hrun.
      eapply Forall_impl; [|exact Hrun].
      intros t (lo & r & raw & (Hrej & Hacc & Hle & d & _ & Hraw) & Ht).
      exists lo, r, 0%nat. rewrite <- redraw_exact.
      rewrite (redraw_run W H boat_pos boat_box centered s fuel r lo 0
                 Hle Hrej Hacc).
      rewrite Ht, Hraw. cbn [Trash.set_mass Trash.x Trash.y].
      now rewrite <- surjective_pairing.
    + intros Hdeg.
      assert (Hfree : forall pos, in_boat boat_pos boat_box pos = false)
        by (intros pos; now apply in_boat_degenerate).
      split.
      * apply generate_trash_Ok in Hrun as (segs & -> & Hruns).
        eapply buckets_run_no_reject; eauto.
      * intros fuel'. rewrite <- Hrun. unfold generate_trash.
        apply size_class_loop_cong; [now split | now right].
Qed.

(** ** A run over two size classes, evaluated *)

Lemma two_material_density sc pt row m1 w1 m2 w2 d1 d2 s c :
  dict_get SizeClass.eqb plastic_materials sc = Some row ->
  dict_get PlasticType.eqb row pt = Some [(m1, w1); (m2, w2)] ->
  dict_get String.eqb material_densities m1 = Some d1 ->
  dict_get String.eqb material_densities m2 = Some d2 ->
  0 < w1 -> 0 < w2 ->
  np_random s (np_pos c) < 1 ->
  draw_density sc pt s c
  = Ok (if Rltb (np_random s (np_pos c)) (w1 / (w1 + w2)) then d1 else d2,
        np_next c).
Proof.
  intros Hrow Hmat Hd1 Hd2 Hw1 Hw2 Hu.
  unfold draw_density, materials_of.
  rewrite Hrow. cbn [getitem]. unfold bind at 2. unfold ret at 1.
  rewrite Hmat. cbn [getitem]. unfold bind at 1. unfold ret at 1.
  cbn [map fst snd Rsum fold_right].
  assert (Reqb (w1 + (w2 + 0)) 0 = false) as ->
    by (apply Reqb_false; lra).
  assert (Hsum : w1 / (w1 + (w2 + 0)) + w2 / (w1 + (w2 + 0)) = 1)
    by (field; lra).
  assert (Hp1 : 0 <= w1 / (w1 + (w2 + 0)))
    by (apply Rlt_le, Rdiv_lt_0_compat; lra).
  assert (Hp2 : 0 <= w2 / (w1 + (w2 + 0)))
    by (apply Rlt_le, Rdiv_lt_0_compat; lra).
  rewrite bind_run
    with (1 := np_random_choice_two_run m1 m2 _ _ s c Hsum Hp1 Hp2 Hu).
  replace (w1 + (w2 + 0)) with (w1 + w2) by lra.
  destruct (Rltb _ _); [rewrite Hd1 | rewrite Hd2]; reflexivity.
Qed.

Lemma two_class_in_boat pos : in_boat (0, 0) (0, 0) pos = false.
Proof. apply in_boat_degenerate. now left. Qed.

Lemma two_class_piece sc pt row m1 w1 m2 w2 d1 d2 lo np :
  dict_get SizeClass.eqb plastic_materials sc = Some row ->
  dict_get PlasticType.eqb row pt = Some [(m1, w1); (m2, w2)] ->
  dict_get String.eqb material_densities m1 = Some d1 ->
  dict_get String.eqb material_densities m2 = Some d2 ->
  0 < w1 -> 0 < w2 ->
  np_random two_class_source np < 1 ->
  draw_piece 0 50 50 (0, 0) (0, 0) false sc pt two_class_source
             (mkCursor lo np)
  = Ok (raw_piece sc pt lo
          (if Rltb (np_random two_class_source np) (w1 / (w1 + w2))
           then d1 else d2),
        mkCursor (lo + 3) (S np)).
Proof.
  intros Hrow Hmat Hd1 Hd2 Hw1 Hw2 Hu.
  rewrite (draw_piece_run 0 50 50 (0, 0) (0, 0) false two_class_source
             sc pt 0 lo np
             (if Rltb (np_random two_class_source np) (w1 / (w1 + w2))
              then d1 else d2)
             (mkCursor (lo + 3) (S np))).
  - unfold raw_piece. rewrite Nat.mul_0_r, Nat.add_0_r. reflexivity.
  - lia.
  - intros i Hi. lia.
  - apply two_class_in_boat.
  - rewrite Nat.mul_0_r, Nat.add_0_r.
    rewrite (two_material_density sc pt row m1 w1 m2 w2 d1 d2
               two_class_source (mkCursor (lo + 3) np))
      by assumption.
    reflexivity.
Qed.

Ltac two_class_target :=
  unfold n_target; cbn [mean_plastic_concentration snd]; lra.

Ltac two_class_np :=
  cbn [two_class_source np_random np_pos np_next]; lra.

Ltac two_class_round :=
  unfold n_target;
  cbn [mean_plastic_concentration snd two_class_source np_random np_pos
       np_next];
  Rltb_decide; reflexivity.

Lemma two_class_run :
  generate_trash 0 50 50 (0, 0) (0, 0) false 1
                 [SizeClass.MACRO; SizeClass.MEGA] false
                 two_class_source (mkCursor 0 0)
  = Ok (two_class_pieces, mkCursor 12 9).
Proof.
  unfold generate_trash.
  cbn [size_class_loop plastic_type_loop PlasticType.members].
  (* MACRO *)
  erewrite bind_run.
  2:{ (* MACRO/H: 1.6 rounds up to 2 *)
      erewrite bind_run.
      2:{ apply bucket_eval with (fl := 1%Z) (n := 2%Z);
            [two_class_target | two_class_target | two_class_np
            | two_class_round |].
          change (Z.to_nat 2) with 2%nat. cbn [draw_pieces np_next np_pos
                                                py_pos].
          erewrite bind_run.
          2:{ eapply (two_class_piece SizeClass.MACRO PlasticType.H);
                try reflexivity; try lra.
              cbn [two_class_source np_random np_pos np_next py_pos]. lra. }
          erewrite bind_run.
          2:{ eapply (two_class_piece SizeClass.MACRO PlasticType.H);
                try reflexivity; try lra.
              cbn [two_class_source np_random np_pos np_next py_pos]. lra. }
          cbn [app]. reflexivity. }
      cbn [app].
      (* MACRO/N: 0.1225 rounds up to 1 *)
      erewrite bind_run.
      2:{ apply bucket_eval with (fl := 0%Z) (n := 1%Z);
            [two_class_target | two_class_target | two_class_np
            | two_class_round |].
          change (Z.to_nat 1) with 1%nat. cbn [draw_pieces np_next np_pos
                                                py_pos].
          erewrite bind_run.
          2:{ eapply (two_class_piece SizeClass.MACRO PlasticType.N);
                try reflexivity; try lra.
              cbn [two_class_source np_random np_pos np_next py_pos]. lra. }
          reflexivity. }
      (* MACRO/P: no target *)
      erewrite bind_run.
      2:{ apply bucket_skip. two_class_target. }
      (* MACRO/F: 0.00175 rounds down to 0 *)
      erewrite bind_run.
      2:{ apply bucket_eval with (fl := 0%Z) (n := 0%Z) (raw := [])
                                 (acc := 0);
            [two_class_target | two_class_target | two_class_np
            | two_class_round | reflexivity]. }
      reflexivity. }
  (* MEGA *)
  erewrite bind_run.
  2:{ (* MEGA/H: 0.00075 rounds down to 0 *)
      erewrite bind_run.
      2:{ apply bucket_eval with (fl := 0%Z) (n := 0%Z) (raw := [])
                                 (acc := 0);
            [two_class_target | two_class_target | two_class_np
            | two_class_round | reflexivity]. }
      (* MEGA/N: 0.00825 rounds up to 1 *)
      erewrite bind_run.
      2:{ apply bucket_eval with (fl := 0%Z) (n := 1%Z);
            [two_class_target | two_class_target | two_class_np
            | two_class_round |].
          change (Z.to_nat 1) with 1%nat. cbn [draw_pieces np_next np_pos
                                                py_pos].
          erewrite bind_run.
          2:{ eapply (two_class_piece SizeClass.MEGA PlasticType.N);
                try reflexivity; try lra.
              cbn [two_class_source np_random np_pos np_next py_pos]. lra. }
          reflexivity. }
      erewrite bind_run.
      2:{ apply bucket_skip. two_class_target. }
      erewrite bind_run.
      2:{ apply bucket_skip. two_class_target. }
      reflexivity. }
  unfold ret.
  cbn [py_pos np_pos np_next Nat.add two_class_source np_random map app].
  Rltb_decide. cbv iota.
  unfold two_class_pieces, filled, total_weight, Rsum, weight.
  cbn [map app fold_right].
  f_equal. f_equal.
  repeat (apply (f_equal2 (@cons Trash.t));
          [unfold with_mass, Rdiv; do 3 f_equal; lra|]).
  reflexivity.
Qed.

(** ** The two runs as instances *)

Lemma C4_witness :
  (generate_trash 1 1000 100 (0, 0) (10, 10) false 1 [SizeClass.MEGA] false
                  demo_source (mkCursor 0 0)
   = Ok ([demo_piece], mkCursor 5 3) /\
   Forall (fun t => exists j r np,
             redraw_fl exact_ops 1000 100 (0, 0) (10, 10) false 1
                       (pos_at 1000 100 false demo_source j) demo_source
                       (mkCursor (j + 2) np)
             = Ok ((Trash.x t, Trash.y t), mkCursor (j + 2 * r + 2) np))
          [demo_piece]) /\
  (redraw_fl exact_ops 1000 100 (0, 0) (10, 10) false 1
             (pos_at 1000 100 false demo_source 0) demo_source
             (mkCursor 2 0)
   = Ok (pos_at 1000 100 false demo_source 2, mkCursor 4 0) /\
   ~ strictly_between (boat_bounds exact_ops (0, 0) (10, 10))
       (pos_at 1000 100 false demo_source 2)) /\
  (zero_is_exact exact_ops /\ (fst (0, 0) = 0 \/ snd (0, 0) = 0) /\
   generate_trash 0 50 50 (0, 0) (0, 0) false 1
                  [SizeClass.MACRO; SizeClass.MEGA] false
                  two_class_source (mkCursor 0 0)
   = Ok (two_class_pieces, mkCursor 12 9) /\
   py_pos (mkCursor 12 9)
   = (py_pos (mkCursor 0 0) + 3 * length two_class_pieces)%nat).
Proof.
  pose proof (C4_positions_avoid_exclusion_rectangle
                exact_ops 1 1000 100 (0, 0) (10, 10) false)
    as (_ & Hloop & _ & Hrun).
  pose proof (C4_positions_avoid_exclusion_rectangle
                exact_ops 0 50 50 (0, 0) (0, 0) false)
    as (_ & _ & _ & Hdeg).
  assert (Hredraw :
    redraw_fl exact_ops 1000 100 (0, 0) (10, 10) false 1
              (pos_at 1000 100 false demo_source 0) demo_source
              (mkCursor 2 0)
    = Ok (pos_at 1000 100 false demo_source 2, mkCursor 4 0)).
  { rewrite <- redraw_exact.
    apply (redraw_run 1000 100 (0, 0) (10, 10) false demo_source 1 1 0 0).
    - lia.
    - intros i Hi. assert (i = 0%nat) as -> by lia. exact demo_in_boat_0.
    - exact demo_in_boat_2. }
  assert (Hbox : fst (0, 0) = 0 \/ snd (0, 0) = 0) by (now left).
  split; [|split].
  - split; [exact demo_run|].
    exact (proj1 (Hrun 1 [SizeClass.MEGA] demo_source (mkCursor 0 0)
                       [demo_piece] (mkCursor 5 3) demo_run)).
  - split; [exact Hredraw|]. exact (Hloop _ _ _ _ _ Hredraw).
  - split; [exact exact_ops_zero_is_exact|]. split; [exact Hbox|].
    split; [exact two_class_run|].
    exact (proj1 (proj2 (Hdeg 1 [SizeClass.MACRO; SizeClass.MEGA]
                              two_class_source (mkCursor 0 0)
                              two_class_pieces (mkCursor 12 9)
                              two_class_run) Hbox)).
Defined.

Lemma C10_witness :
  generate_trash 0 50 50 (0, 0) (0, 0) false 1
                 [SizeClass.MACRO; SizeClass.MEGA] false
                 two_class_source (mkCursor 0 0)
  = Ok (two_class_pieces, mkCursor 12 9) /\
  length two_class_pieces = 4%nat /\
  exists segs,
    two_class_pieces = concat segs /\
    Forall2 (fun b seg => Forall (in_bucket b) seg)
            (buckets [SizeClass.MACRO; SizeClass.MEGA]) segs /\
    exists js,
      Forall2 (made_from_draws 50 50 false two_class_source) js
              two_class_pieces /\
      StronglySorted later_draws js.
Proof.
  split; [exact two_class_run|]. split; [reflexivity|].
  exact (proj2 (C10_output_grouped_in_loop_order
           0 50 50 (0, 0) (0, 0) false 1 [SizeClass.MACRO; SizeClass.MEGA]
           two_class_source (mkCursor 0 0) two_class_pieces (mkCursor 12 9)
           two_class_run)).
Defined.

(** ** C6: the output is determined by the values read *)

Lemma cursor_le_refl c : cursor_le c c.
Proof. split; lia. Qed.

Lemma reads_ret {A} (a : A) : reads_its_window (ret a).
Proof.
  intros s1 c a' c' [= <- <-]. split; [apply cursor_le_refl|].
  intros s2 _. reflexivity.
Qed.

Lemma reads_raise {A} e : reads_its_window (@raise A e).
Proof. intros s1 c a c'. discriminate. Qed.

Lemma reads_hang {A} : reads_its_window (@hang A).
Proof. intros s1 c a c'. discriminate. Qed.

Lemma reads_bind {A B} (m : M A) (k : A -> M B) :
  reads_its_window m -> (forall a, reads_its_window (k a)) ->
  reads_its_window (bind m k).
Proof.
  intros Hm Hk s1 c b c' Hrun.
  apply bind_Ok in Hrun as (a & c1 & Hma & Hkb).
  destruct (Hm _ _ _ _ Hma) as [[Hpy1 Hnp1] Hm2].
  destruct (Hk a _ _ _ _ Hkb) as [[Hpy2 Hnp2] Hk2].
  split; [split; lia|].
  intros s2 [Hpy Hnp].
  rewrite bind_run with (a := a) (c1 := c1).
  - apply Hk2. split; intros i Hi; [apply Hpy | apply Hnp]; lia.
  - apply Hm2. split; intros i Hi; [apply Hpy | apply Hnp]; lia.
Qed.

Lemma reads_getitem {A} (o : option A) : reads_its_window (getitem o).
Proof. destruct o; [apply reads_ret | apply reads_raise]. Qed.

Lemma reads_list_getitem {A} (a : list A) i :
  reads_its_window (list_getitem a i).
Proof.
  unfold list_getitem. destruct (nth_error a i);
    [apply reads_ret | apply reads_raise].
Qed.

Lemma reads_truediv a b : reads_its_window (truediv a b).
Proof.
  unfold truediv. destruct (Reqb b 0); [apply reads_raise | apply reads_ret].
Qed.

Lemma reads_random_random : reads_its_window random_random.
Proof.
  intros s1 c a c' [= <- <-]. split; [split; cbn [py_pos np_pos]; lia|].
  intros s2 [Hpy _]. unfold random_random.
  rewrite <- (Hpy (py_pos c)) by (cbn [py_pos]; lia). reflexivity.
Qed.

Lemma reads_np_random_sample : reads_its_window np_random_sample.
Proof.
  intros s1 c a c' [= <- <-]. split; [split; cbn [py_pos np_pos]; lia|].
  intros s2 [_ Hnp]. unfold np_random_sample.
  rewrite <- (Hnp (np_pos c)) by (cbn [np_pos]; lia). reflexivity.
Qed.

Lemma reads_random_uniform a b : reads_its_window (random_uniform a b).
Proof.
  unfold random_uniform. apply reads_bind; [apply reads_random_random|].
  intros r. apply reads_ret.
Qed.

Lemma reads_np_random_choice {A} (a : list A) (p : list R) :
  reads_its_window (np_random_choice a p).
Proof.
  unfold np_random_choice.
  destruct (length a =? 0)%nat; [apply reads_raise|].
  destruct (negb _); [apply reads_raise|].
  destruct (existsb _ p); [apply reads_raise|].
  destruct (negb _); [apply reads_raise|].
  apply reads_bind; [apply reads_np_random_sample|].
  intros u. apply reads_list_getitem.
Qed.

Section Reads.

Variable fuel : nat.
Variables W H : R.
Variables boat_pos boat_box : R * R.
Variable centered : bool.
Variable mean_scale : R.

Lemma reads_draw_pos : reads_its_window (draw_pos W H centered).
Proof.
  unfold draw_pos. apply reads_bind; [apply reads_random_uniform|].
  intros px. apply reads_bind; [apply reads_random_uniform|].
  intros py. apply reads_ret.
Qed.

Lemma reads_redraw k : forall pos,
  reads_its_window (redraw W H boat_pos boat_box centered k pos).
Proof.
  induction k as [|k IH]; intros pos; cbn [redraw];
    destruct (in_boat boat_pos boat_box pos);
    try apply reads_ret; [apply reads_hang|].
  apply reads_bind; [apply reads_draw_pos | exact IH].
Qed.

Lemma reads_draw_size sc : reads_its_window (draw_size sc).
Proof.
  unfold draw_size. apply reads_bind; [apply reads_random_uniform|].
  intros u. apply reads_ret.
Qed.

Lemma reads_draw_density sc pt : reads_its_window (draw_density sc pt).
Proof.
  unfold draw_density, materials_of.
  apply reads_bind.
  - apply reads_bind; [apply reads_getitem|]. intros row.
    apply reads_getitem.
  - intros materials. destruct (Reqb _ 0); [apply reads_raise|].
    apply reads_bind; [apply reads_np_random_choice|].
    intros material. apply reads_getitem.
Qed.

Lemma reads_draw_piece sc pt :
  reads_its_window
    (draw_piece fuel W H boat_pos boat_box centered sc pt).
Proof.
  unfold draw_piece. apply reads_bind; [apply reads_draw_pos|].
  intros pos. apply reads_bind; [apply reads_redraw|].
  intros pos'. apply reads_bind; [apply reads_draw_size|].
  intros size. apply reads_bind; [apply reads_draw_density|].
  intros density. apply reads_ret.
Qed.

Lemma reads_draw_pieces sc pt n : forall pieces acc,
  reads_its_window
    (draw_pieces fuel W H boat_pos boat_box centered sc pt n pieces acc).
Proof.
  induction n as [|n IH]; intros pieces acc; cbn [draw_pieces];
    [apply reads_ret|].
  apply reads_bind; [apply reads_draw_piece|]. intros piece. apply IH.
Qed.

Lemma reads_assign_mass indices target proportion : forall pieces,
  reads_its_window (assign_mass indices target proportion pieces).
Proof.
  induction indices as [|i indices IH]; intros pieces; cbn [assign_mass];
    [apply reads_ret|].
  apply reads_bind; [apply reads_list_getitem|]. intros piece. apply IH.
Qed.

Lemma reads_bucket sc pt pieces :
  reads_its_window
    (bucket fuel W H boat_pos boat_box centered mean_scale sc pt pieces).
Proof.
  unfold bucket. destruct (Rltb 0 _); [|apply reads_ret].
  apply reads_bind; [apply reads_truediv|]. intros avg.
  apply reads_bind; [apply reads_np_random_choice|]. intros n.
  apply reads_bind; [apply reads_draw_pieces|]. intros [pieces' acc].
  apply reads_assign_mass.
Qed.

Lemma reads_plastic_type_loop sc pts : forall pieces,
  reads_its_window
    (plastic_type_loop fuel W H boat_pos boat_box centered mean_scale
                       sc pts pieces).
Proof.
  induction pts as [|pt pts IH]; intros pieces; cbn [plastic_type_loop];
    [apply reads_ret|].
  apply reads_bind; [apply reads_bucket | exact IH].
Qed.

Lemma reads_size_class_loop rel : forall pieces,
  reads_its_window
    (size_class_loop fuel W H boat_pos boat_box centered mean_scale
                     rel pieces).
Proof.
  induction rel as [|sc rel IH]; intros pieces; cbn [size_class_loop];
    [apply reads_ret|].
  apply reads_bind; [apply reads_plastic_type_loop | exact IH].
Qed.

End Reads.

Lemma reads_generate_example W H mean_scale :
  reads_its_window (generate_example W H mean_scale).
Proof.
  unfold reads_its_window. intros s1 c a c'.
  rewrite generate_example_run. intros Hrun.
  assert (Hc : c' = c).
  { destruct (Reqb _ 0); [discriminate|]. now injection Hrun. }
  subst c'. split; [apply cursor_le_refl|].
  intros s2 _. rewrite generate_example_run. exact Hrun.
Qed.

(** Same arguments, other values from the generators: another list. *)
Lemma C6_counterexample :
  generate_trash 1 1000 100 (0, 0) (10, 10) false 1 [SizeClass.MEGA] false
                 demo_source (mkCursor 0 0)
  = Ok ([demo_piece], mkCursor 5 3) /\
  generate_trash 1 1000 100 (0, 0) (10, 10) false 1 [SizeClass.MEGA] false
                 edge_source (mkCursor 0 0)
  = Ok ([edge_piece], mkCursor 3 3) /\
  [demo_piece] <> [edge_piece].
Proof.
  split; [exact demo_run|]. split.
  { apply edge_run. unfold in_boat. cbn [fst snd]. Rltb_decide.
    reflexivity. }
  intros E. injection E as E. lra.
Qed.

(** C6 (amended).  The function takes no seed: all it has besides its
    arguments is what the two process-wide generators deliver.  A call that
    returns has read from each generator a stretch of consecutive values,
    and every call with the same arguments for which the generators deliver
    the same values on these stretches returns the same list (the same
    particles in the same order with equal fields) and leaves the
    generators at the same positions, whatever they would deliver later. *)
Theorem C6_output_determined_by_values_read
  fuel W H boat_pos boat_box centered mean_scale relevant_size_classes
  use_example s1 c pieces c' :
  generate_trash fuel W H boat_pos boat_box centered mean_scale
                 relevant_size_classes use_example s1 c = Ok (pieces, c') ->
  cursor_le c c' /\
  forall s2,
    agree_between s1 s2 c c' ->
    generate_trash fuel W H boat_pos boat_box centered mean_scale
                   relevant_size_classes use_example s2 c
    = Ok (pieces, c').
Proof.
  unfold generate_trash. destruct use_example.
  - apply reads_generate_example.
  - apply reads_size_class_loop.
Qed.

Lemma demo_late_agree :
  agree_between demo_source late_source (mkCursor 0 0) (mkCursor 5 3).
Proof.
  split; intros i Hi; cbn [py_pos np_pos] in Hi;
    cbn [demo_source late_source py_random np_random].
  - destruct i as [|[|[|[|[|i]]]]]; try lra; lia.
  - destruct i as [|[|[|i]]]; try lra; lia.
Qed.

Lemma C6_witness :
  generate_trash 1 1000 100 (0, 0) (10, 10) false 1 [SizeClass.MEGA] false
                 demo_source (mkCursor 0 0)
  = Ok ([demo_piece], mkCursor 5 3) /\
  agree_between demo_source late_source (mkCursor 0 0) (mkCursor 5 3) /\
  py_random demo_source 5 <> py_random late_source 5 /\
  generate_trash 1 1000 100 (0, 0) (10, 10) false 1 [SizeClass.MEGA] false
                 late_source (mkCursor 0 0)
  = Ok ([demo_piece], mkCursor 5 3).
Proof.
  split; [exact demo_run|]. split; [exact demo_late_agree|].
  split; [cbn [demo_source late_source py_random]; lra|].
  exact (proj2 (C6_output_determined_by_values_read
                  1 1000 100 (0, 0) (10, 10) false 1 [SizeClass.MEGA] false
                  demo_source (mkCursor 0 0) [demo_piece] (mkCursor 5 3)
                  demo_run)
               late_source demo_late_agree).
Defined.

(** ** C5: the size of a particle in rounded arithmetic *)

Lemma Rabs_le_bounds a b : Rabs a <= b -> - b <= a <= b.
Proof. unfold Rabs. destruct (Rcase_abs a); lra. Qed.

(** A relative error of [eps] on a value of size at most [M]. *)
Lemma rel_error x y eps M :
  0 <= eps -> Rabs (y - x) <= eps * Rabs x -> Rabs x <= M ->
  x - eps * M <= y <= x + eps * M.
Proof.
  intros He Herr HM. apply Rabs_le_bounds in Herr.
  assert (eps * Rabs x <= eps * M) by (apply Rmult_le_compat_l; lra).
  lra.
Qed.

Lemma scaled_error x r e :
  - e <= x <= e -> 0 <= r <= 1 -> - e <= x * r <= e.
Proof. intros Hx Hr. nra. Qed.

Lemma exp_upper x : 0 <= x <= 1/2 -> exp x <= 1 + 2 * x.
Proof.
  intros Hx.
  pose proof (exp_ineq1_le (- x)) as Hlow.
  rewrite exp_Ropp in Hlow.
  pose proof (exp_pos x) as Hpos.
  assert (Hle : (1 - x) * exp x <= 1).
  { replace 1 with (/ exp x * exp x) at 2 by (field; lra).
    apply Rmult_le_compat_r; lra. }
  nra.
Qed.

Lemma exp_lower x : 1 - x <= exp (- x).
Proof. pose proof (exp_ineq1_le (- x)). lra. Qed.

Lemma ln_10_lt_4 : ln 10 < 4.
Proof.
  apply exp_lt_inv. rewrite exp_ln by lra.
  replace 4 with (1 + 1 + (1 + 1)) by lra.
  rewrite !exp_plus.
  pose proof (exp_ineq1_le 1) as He. set (e := exp 1) in *.
  assert (He2 : 4 <= e * e) by nra. nra.
Qed.

Lemma log10_le (a b : R) : 0 < a -> a <= b -> log10 a <= log10 b.
Proof.
  intros Ha [Hlt|Heq].
  - left. now apply log10_lt.
  - subst b. apply Rle_refl.
Qed.

Lemma log10_range x : 1/1000 <= x <= 1000 -> - 3 <= log10 x <= 3.
Proof.
  intros [Hlo Hhi].
  assert (H3 : log10 1000 = 3).
  { replace 1000 with (10 ^ 3) by lra. apply log10_1000. }
  assert (Hm3 : log10 (1/1000) = - 3).
  { unfold log10. replace (1 / 1000) with (/ 1000) by lra.
    rewrite ln_Rinv by lra. fold (log10 1000) in H3.
    unfold log10 in H3. pose proof ln_10_pos.
    replace (- ln 1000 / ln 10) with (- (ln 1000 / ln 10)) by (field; lra).
    now rewrite H3. }
  split.
  - rewrite <- Hm3. apply log10_le; lra.
  - rewrite <- H3. apply log10_le; lra.
Qed.

(** [log10] of a value known up to the relative error [eps]. *)
Lemma log10_perturbed x y eps :
  0 <= eps <= 1/2 -> 0 < x -> Rabs (y - x) <= eps * Rabs x ->
  0 < y /\ log10 x - 2 * eps <= log10 y <= log10 x + 2 * eps.
Proof.
  intros He Hx Herr. rewrite (Rabs_pos_eq x) in Herr by lra.
  apply Rabs_le_bounds in Herr.
  assert (Hy : 0 < y) by nra. split; [assumption|].
  pose proof ln_10_gt_1 as H10.
  assert (Hq : 1 - eps <= y / x <= 1 + eps).
  { split.
    - apply Rmult_le_reg_r with x; [assumption|].
      replace (y / x * x) with y by (field; lra). nra.
    - apply Rmult_le_reg_r with x; [assumption|].
      replace (y / x * x) with y by (field; lra). nra. }
  assert (Hqpos : 0 < y / x) by lra.
  assert (Hln : ln y - ln x = ln (y / x)).
  { unfold Rdiv. rewrite ln_mult, ln_Rinv; try lra.
    now apply Rinv_0_lt_compat. }
  assert (Hup : ln (y / x) <= eps).
  { destruct (Rle_lt_dec (ln (y / x)) eps) as [|Hgt]; [assumption|].
    exfalso. apply exp_increasing in Hgt. rewrite exp_ln in Hgt by lra.
    pose proof (exp_ineq1_le eps). lra. }
  assert (Hdown : - (2 * eps) <= ln (y / x)).
  { destruct (Rle_lt_dec (- (2 * eps)) (ln (y / x))) as [|Hlt];
      [assumption|].
    exfalso. apply exp_increasing in Hlt. rewrite exp_ln in Hlt by lra.
    pose proof (exp_ineq1_le (2 * eps)) as Hlow.
    rewrite exp_Ropp in Hlt.
    pose proof (exp_pos (2 * eps)) as Hpos.
    assert (Hinv : / exp (2 * eps) <= / (1 + 2 * eps)).
    { apply Rinv_le_contravar; lra. }
    assert (Hcmp : / (1 + 2 * eps) <= 1 - eps).
    { apply Rmult_le_reg_r with (1 + 2 * eps); [lra|].
      rewrite Rinv_l by lra. nra. }
    lra. }
  unfold log10.
  assert (Hdiv : ln y / ln 10 - ln x / ln 10 = ln (y / x) / ln 10)
    by (rewrite <- Hln; field; lra).
  assert (Hb1 : ln (y / x) / ln 10 <= 2 * eps).
  { apply Rmult_le_reg_r with (ln 10); [lra|].
    replace (ln (y / x) / ln 10 * ln 10) with (ln (y / x)) by (field; lra).
    nra. }
  assert (Hb2 : - (2 * eps) <= ln (y / x) / ln 10).
  { apply Rmult_le_reg_r with (ln 10); [lra|].
    replace (ln (y / x) / ln 10 * ln 10) with (ln (y / x)) by (field; lra).
    nra. }
  lra.
Qed.

(** [10^u] for an exponent known up to [d]. *)
Lemma Rpower_10_perturbed U u d :
  0 <= d <= 1/8 -> U - d <= u <= U + d ->
  Rpower 10 U * (1 - 4 * d) <= Rpower 10 u <= Rpower 10 U * (1 + 8 * d).
Proof.
  intros Hd Hu.
  pose proof ln_10_pos as Hpos. pose proof ln_10_lt_4 as H4.
  assert (HU : 0 < Rpower 10 U) by (unfold Rpower; apply exp_pos).
  assert (Eu : Rpower 10 u = Rpower 10 U * exp ((u - U) * ln 10)).
  { unfold Rpower. rewrite <- exp_plus. f_equal. ring. }
  rewrite Eu. split.
  - apply Rmult_le_compat_l; [lra|].
    apply Rle_trans with (exp (- (d * ln 10))).
    + pose proof (exp_lower (d * ln 10)). nra.
    + destruct (Req_dec ((u - U) * ln 10) (- (d * ln 10))) as [->|Hne];
        [lra|]. left. apply exp_increasing. nra.
  - apply Rmult_le_compat_l; [lra|].
    apply Rle_trans with (exp (d * ln 10)).
    + destruct (Req_dec ((u - U) * ln 10) (d * ln 10)) as [->|Hne];
        [lra|]. left. apply exp_increasing. nra.
    + assert (Hx : 0 <= d * ln 10 <= 1/2) by nra.
      pose proof (exp_upper (d * ln 10) Hx). nra.
Qed.

Section SizeError.

Variable eps : R.
Variable ops : float_ops.
Hypothesis eps_range : 0 <= eps <= 1/1000.
Hypothesis ops_accurate : accurate eps ops.
Variables lo hi r : R.
Hypothesis lo_range : 1/1000 <= lo.
Hypothesis lo_hi : lo < hi.
Hypothesis hi_range : hi <= 1000.
Hypothesis r_range : 0 <= r < 1.

(** The exponent is within [36 eps] of the exact one. *)
Lemma exponent_error :
  let U := log10 lo + (log10 hi - log10 lo) * r in
  let a := fl_log10 ops (fl_literal ops lo) in
  let b := fl_log10 ops (fl_literal ops hi) in
  let u := fl_add ops a (fl_mul ops (fl_sub ops b a) r) in
  log10 lo <= U <= log10 hi /\ U - 36 * eps <= u <= U + 36 * eps.
Proof.
  intros U a b u.
  destruct ops_accurate as (Hlit & Hadd & Hsub & Hmul & _ & Hlog & _).
  assert (HA : - 3 <= log10 lo <= 3) by (apply log10_range; lra).
  assert (HB : - 3 <= log10 hi <= 3) by (apply log10_range; lra).
  assert (HAB : log10 lo < log10 hi) by (apply log10_lt; lra).
  assert (HU : log10 lo <= U <= log10 hi) by (unfold U; nra).
  split; [assumption|].
  (* the literals and their logarithms *)
  assert (He : 0 <= eps) by lra.
  assert (He2 : 0 <= eps <= 1/2) by lra.
  assert (Hlo : 0 < lo) by lra. assert (Hhi : 0 < hi) by lra.
  destruct (log10_perturbed lo (fl_literal ops lo) eps He2 Hlo (Hlit lo))
    as [Hl0 HA0].
  destruct (log10_perturbed hi (fl_literal ops hi) eps He2 Hhi (Hlit hi))
    as [Hh0 HB0].
  assert (HA4 : Rabs (log10 (fl_literal ops lo)) <= 4)
    by (apply Rabs_le; lra).
  assert (HB4 : Rabs (log10 (fl_literal ops hi)) <= 4)
    by (apply Rabs_le; lra).
  pose proof (rel_error _ _ eps 4 He (Hlog _ Hl0) HA4) as Ha.
  pose proof (rel_error _ _ eps 4 He (Hlog _ Hh0) HB4) as Hb.
  fold a in Ha. fold b in Hb.
  (* the difference *)
  assert (Hba : Rabs (b - a) <= 7) by (apply Rabs_le; lra).
  pose proof (rel_error _ _ eps 7 He (Hsub b a) Hba) as Hd.
  set (d := fl_sub ops b a) in *.
  (* the product *)
  assert (Hdr : - 7 <= d * r <= 7) by (apply scaled_error; lra).
  pose proof (rel_error _ _ eps 7 He (Hmul d r) (Rabs_le _ _ Hdr)) as Hm.
  set (m := fl_mul ops d r) in *.
  assert (Hdiff : - (19 * eps) <= (d - (log10 hi - log10 lo)) * r
                  <= 19 * eps)
    by (apply scaled_error; lra).
  (* the sum *)
  assert (Ham : Rabs (a + m) <= 4)
    by (apply Rabs_le; unfold U in HU; lra).
  pose proof (rel_error _ _ eps 4 He (Hadd a m) Ham) as Hu.
  fold u in Hu. unfold U in *. lra.
Qed.

(** The size is within the relative distance [300 eps] of the interval. *)
Lemma size_error :
  let a := fl_log10 ops (fl_literal ops lo) in
  let b := fl_log10 ops (fl_literal ops hi) in
  let u := fl_add ops a (fl_mul ops (fl_sub ops b a) r) in
  lo / 100 * (1 - 300 * eps) <= fl_div ops (fl_pow ops 10 u) 100
  <= hi / 100 * (1 + 300 * eps).
Proof.
  intros a b u.
  destruct exponent_error as [HU Hu]. fold a b u in Hu.
  set (U := log10 lo + (log10 hi - log10 lo) * r) in *.
  destruct ops_accurate as (_ & _ & _ & _ & Hdiv & _ & Hpow).
  assert (HPU : lo <= Rpower 10 U <= hi).
  { assert (Elo : Rpower 10 (log10 lo) = lo)
      by (apply Rpower_10_log10; lra).
    assert (Ehi : Rpower 10 (log10 hi) = hi)
      by (apply Rpower_10_log10; lra).
    assert (H1 : Rpower 10 (log10 lo) <= Rpower 10 U)
      by (apply Rpower_10_le; lra).
    assert (H2 : Rpower 10 U <= Rpower 10 (log10 hi))
      by (apply Rpower_10_le; lra).
    lra. }
  assert (Hd : 0 <= 36 * eps <= 1/8) by lra.
  replace (U - 36 * eps) with (U - 36 * eps) in Hu by reflexivity.
  destruct (Rpower_10_perturbed U u (36 * eps) Hd Hu) as [HP1 HP2].
  set (P := Rpower 10 u) in *.
  assert (HPpos : 0 < P) by (unfold P, Rpower; apply exp_pos).
  assert (H10 : 0 < 10) by lra.
  pose proof (Hpow 10 u H10) as Hp. fold P in Hp.
  apply Rabs_le_bounds in Hp.
  set (p := fl_pow ops 10 u) in *.
  assert (Hppos : 0 <= p) by nra.
  assert (H100 : 100 <> 0) by lra.
  pose proof (Hdiv p 100 H100) as Hq.
  rewrite (Rabs_pos_eq (p / 100)) in Hq by lra.
  apply Rabs_le_bounds in Hq.
  set (q := fl_div ops p 100) in *.
  assert (Hlow : (1 - 144 * eps) * (1 - eps) * (1 - eps) >= 1 - 300 * eps)
    by nra.
  assert (Hupp : (1 + 288 * eps) * (1 + eps) * (1 + eps) <= 1 + 300 * eps)
    by nra.
  split.
  - apply Rle_trans with (lo / 100 * ((1 - 144 * eps) * (1 - eps)
                                       * (1 - eps))).
    + apply Rmult_le_compat_l; lra.
    + assert (H1 : lo * (1 - 144 * eps) <= P) by nra.
      assert (H2 : P * (1 - eps) <= p) by lra.
      assert (H3 : p / 100 * (1 - eps) <= q) by lra.
      assert (H4 : lo * (1 - 144 * eps) * (1 - eps) <= p) by nra.
      nra.
  - apply Rle_trans with (hi / 100 * ((1 + 288 * eps) * (1 + eps)
                                       * (1 + eps))).
    + assert (H1 : P <= hi * (1 + 288 * eps)) by nra.
      assert (H2 : p <= P * (1 + eps)) by lra.
      assert (H3 : q <= p / 100 * (1 + eps)) by lra.
      assert (H4 : p <= hi * (1 + 288 * eps) * (1 + eps)) by nra.
      nra.
    + apply Rmult_le_compat_l; lra.
Qed.

End SizeError.

Lemma exact_ops_accurate eps : 0 <= eps -> accurate eps exact_ops.
Proof.
  intros He. unfold accurate. cbn [exact_ops fl_literal fl_add fl_sub fl_mul
                                   fl_div fl_log10 fl_pow].
  repeat split; intros;
    match goal with
    | |- Rabs (?x - ?x) <= _ =>
        replace (x - x) with 0 by ring; rewrite Rabs_R0
    end;
    try (apply Rmult_le_pos; [assumption | apply Rabs_pos]).
  apply Rmult_le_pos; [assumption|]. left. unfold Rpower. apply exp_pos.
Qed.

Lemma low_log10_ops_accurate : accurate (/ 2 ^ 53) low_log10_ops.
Proof.
  assert (He : 0 <= / 2 ^ 53).
  { left. apply Rinv_0_lt_compat. apply pow_lt. lra. }
  destruct (exact_ops_accurate _ He) as (H1 & H2 & H3 & H4 & H5 & _ & H7).
  unfold accurate. repeat split; try assumption.
  intros x Hx. cbn [low_log10_ops fl_log10].
  replace (log10 x - / 2 ^ 53 * Rabs (log10 x) - log10 x)
    with (- (/ 2 ^ 53 * Rabs (log10 x))) by ring.
  rewrite Rabs_Ropp, Rabs_pos_eq; [lra|].
  apply Rmult_le_pos; [assumption | apply Rabs_pos].
Qed.

Lemma draw_size_fl_run ops sc s c :
  draw_size_fl ops sc s c
  = Ok (let a := fl_log10 ops (fl_literal ops (fst (size_ranges sc))) in
        let b := fl_log10 ops (fl_literal ops (snd (size_ranges sc))) in
        fl_div ops
          (fl_pow ops 10
             (fl_add ops a
                (fl_mul ops (fl_sub ops b a) (py_random s (py_pos c)))))
          100,
        py_next c).
Proof. reflexivity. Qed.



